(** * plot_hsr: the event-replay engine of [plot_hsr.py]

    A shallow embedding of [process_stimulation_data] and of the command
    line wrapper around it, together with the properties of the
    reconstruction that the specification states.

    Python objects coming out of [json.load] are values of type [json];
    an operation that can raise returns a [result].  The mutable [state]
    dictionary of the source is a record that is threaded through the
    stages (initialisation, event loop, session bound, finalisation). *)

From Stdlib Require Import ZArith QArith List String Ascii Bool Lia.
From Stdlib Require Import Permutation Sorted.
From Stdlib Require Import SpecFloat.
Import ListNotations.

Local Open Scope string_scope.
Local Open Scope Z_scope.

Set Warnings "-register-all".

(** ** Exceptions and the error monad *)

Inductive exn : Type :=
| TypeError
| IndexError
| KeyError
| AttributeError
| OverflowError
| ValueError
| OSError.

Inductive result (A : Type) : Type :=
| Ok (a : A)
| Raise (e : exn).

Arguments Ok {A} a.
Arguments Raise {A} e.

Definition bind {A B : Type} (r : result A) (k : A -> result B) : result B :=
  match r with
  | Ok a => k a
  | Raise e => Raise e
  end.

Declare Scope py_scope.
Delimit Scope py_scope with py.
Notation "x <- c ;; k" := (bind c (fun x => k))
  (at level 61, c at next level, right associativity) : py_scope.
Notation "' p <- c ;; k" := (bind c (fun x => let 'p := x in k))
  (at level 61, p pattern, c at next level, right associativity) : py_scope.
Local Open Scope py_scope.

Fixpoint mapM {A B : Type} (f : A -> result B) (l : list A) : result (list B) :=
  match l with
  | [] => Ok []
  | x :: l' => y <- f x ;; ys <- mapM f l' ;; Ok (y :: ys)
  end.

(** ** Python values produced by [json.load]

    A JSON object becomes a [dict] with distinct string keys that keeps
    the insertion order; a number without fraction or exponent becomes an
    [int] of arbitrary size, any other number a binary64 [float]
    ([NaN] and [Infinity] are accepted by [json.load]).  A [str] is a
    sequence of characters, here the characters of [string].  None of
    these objects is changed in place by the program, which only
    appends to lists of its own and assigns dictionary entries, so they
    are values. *)

Inductive json : Type :=
| JNull
| JBool (b : bool)
| JInt (z : Z)
| JFloat (f : spec_float)
| JStr (s : string)
| JArr (l : list json)
| JObj (m : list (string * json)).

Fixpoint lookup (k : string) (m : list (string * json)) : option json :=
  match m with
  | [] => None
  | (k', v) :: m' => if String.eqb k k' then Some v else lookup k m'
  end.

(** ** Numbers

    [bool] is a subclass of [int]; a [float] is an IEEE 754 binary64
    value.  Comparison between an [int] and a [float] is exact in Python,
    so the order is defined on the exact value of the operands. *)

Module PyNum.

Definition prec : Z := 53.
Definition emax : Z := 1024.

(** [float(z)] for an [int z]: the integer is rounded to the nearest
    binary64 value, ties to even; OverflowError ("int too large to convert
    to float") when the rounded value is not finite, that is when
    [abs z >= 2**1024 - 2**970]. *)
Definition float_of_int (z : Z) : result spec_float :=
  match binary_normalize prec emax z 0 false with
  | S754_infinity _ => Raise OverflowError
  | f => Ok f
  end.

Definition fadd (x y : spec_float) : spec_float := SFadd prec emax x y.
Definition fmul (x y : spec_float) : spec_float := SFmul prec emax x y.

(** The exact value of a number: a rational, or an infinity. *)
Inductive xval : Type :=
| NegInf
| Fin (q : Q)
| PosInf.

Definition float_val (f : spec_float) : option xval :=
  match f with
  | S754_zero _ => Some (Fin 0)
  | S754_infinity s => Some (if s then NegInf else PosInf)
  | S754_nan => None
  | S754_finite s m e =>
      Some (Fin (inject_Z (if s then Z.neg m else Z.pos m) * Qpower 2 e))
  end.

Definition xltb (a b : xval) : bool :=
  match a, b with
  | NegInf, NegInf => false
  | NegInf, _ => true
  | Fin _, NegInf => false
  | Fin p, Fin q => match Qcompare p q with Lt => true | _ => false end
  | Fin _, PosInf => true
  | PosInf, _ => false
  end.

Definition xeqb (a b : xval) : bool :=
  match a, b with
  | NegInf, NegInf => true
  | Fin p, Fin q => Qeq_bool p q
  | PosInf, PosInf => true
  | _, _ => false
  end.

End PyNum.

Inductive num : Type :=
| NInt (z : Z)
| NFloat (f : spec_float).

Definition as_num (j : json) : option num :=
  match j with
  | JBool b => Some (NInt (if b then 1 else 0))
  | JInt z => Some (NInt z)
  | JFloat f => Some (NFloat f)
  | _ => None
  end.

Definition num_val (n : num) : option PyNum.xval :=
  match n with
  | NInt z => Some (PyNum.Fin (inject_Z z))
  | NFloat f => PyNum.float_val f
  end.

(** [a < b] and [a == b] on numbers; every comparison with a NaN is
    false. *)
Definition num_lt (a b : num) : bool :=
  match num_val a, num_val b with
  | Some x, Some y => PyNum.xltb x y
  | _, _ => false
  end.

Definition num_eq (a b : num) : bool :=
  match num_val a, num_val b with
  | Some x, Some y => PyNum.xeqb x y
  | _, _ => false
  end.

Definition num_add (a b : num) : result json :=
  match a, b with
  | NInt x, NInt y => Ok (JInt (x + y))
  | NInt x, NFloat g => f <- PyNum.float_of_int x ;; Ok (JFloat (PyNum.fadd f g))
  | NFloat f, NInt y => g <- PyNum.float_of_int y ;; Ok (JFloat (PyNum.fadd f g))
  | NFloat f, NFloat g => Ok (JFloat (PyNum.fadd f g))
  end.

Definition num_mul (a b : num) : result json :=
  match a, b with
  | NInt x, NInt y => Ok (JInt (x * y))
  | NInt x, NFloat g => f <- PyNum.float_of_int x ;; Ok (JFloat (PyNum.fmul f g))
  | NFloat f, NInt y => g <- PyNum.float_of_int y ;; Ok (JFloat (PyNum.fmul f g))
  | NFloat f, NFloat g => Ok (JFloat (PyNum.fmul f g))
  end.

(** ** Operations on Python values *)

(** [bool(x)] *)
Definition truthy (x : json) : bool :=
  match x with
  | JNull => false
  | JBool b => b
  | JInt z => negb (z =? 0)
  | JFloat (S754_zero _) => false
  | JFloat _ => true
  | JStr s => negb (String.eqb s "")
  | JArr l => match l with [] => false | _ :: _ => true end
  | JObj m => match m with [] => false | _ :: _ => true end
  end.

(** [x is None] *)
Definition is_none (x : json) : bool :=
  match x with
  | JNull => true
  | _ => false
  end.

(** [a == b].  Numbers compare by value, sequences element by element,
    dictionaries key by key whatever the order of the keys. *)
Fixpoint py_eq (a b : json) {struct a} : bool :=
  match a, b with
  | JNull, JNull => true
  | JStr s, JStr t => String.eqb s t
  | JArr l, JArr l2 =>
      (fix go (l l2 : list json) {struct l} : bool :=
         match l, l2 with
         | [], [] => true
         | x :: l', y :: l2' => py_eq x y && go l' l2'
         | _, _ => false
         end) l l2
  | JObj m, JObj m2 =>
      (List.length m =? List.length m2)%nat &&
      (fix go (m : list (string * json)) {struct m} : bool :=
         match m with
         | [] => true
         | (k, v) :: m' =>
             match lookup k m2 with
             | Some w => py_eq v w && go m'
             | None => false
             end
         end) m
  | _, _ =>
      match as_num a, as_num b with
      | Some x, Some y => num_eq x y
      | _, _ => false
      end
  end.

(** [a < b]: defined between two numbers, two strings or two lists;
    anything else is a TypeError. *)
Fixpoint py_lt (a b : json) {struct a} : result bool :=
  match a, b with
  | JStr s, JStr t => Ok (String.ltb s t)
  | JArr l, JArr l2 =>
      (fix go (l l2 : list json) {struct l} : result bool :=
         match l, l2 with
         | [], [] => Ok false
         | [], _ :: _ => Ok true
         | _ :: _, [] => Ok false
         | x :: l', y :: l2' => if py_eq x y then go l' l2' else py_lt x y
         end) l l2
  | _, _ =>
      match as_num a, as_num b with
      | Some x, Some y => Ok (num_lt x y)
      | _, _ => Raise TypeError
      end
  end.

(** [a > b] is the mirrored [<] for the built-in types. *)
Definition py_gt (a b : json) : result bool := py_lt b a.

Fixpoint repeat_string (n : nat) (s : string) : string :=
  match n with
  | O => ""
  | S n' => s ++ repeat_string n' s
  end.

Fixpoint repeat_list {A : Type} (n : nat) (l : list A) : list A :=
  match n with
  | O => []
  | S n' => l ++ repeat_list n' l
  end.

Definition as_int (j : json) : option Z :=
  match j with
  | JBool b => Some (if b then 1 else 0)
  | JInt z => Some z
  | _ => None
  end.

(** [a + b] *)
Definition py_add (a b : json) : result json :=
  match a, b with
  | JStr s, JStr t => Ok (JStr (s ++ t))
  | JArr l, JArr l2 => Ok (JArr (l ++ l2))
  | _, _ =>
      match as_num a, as_num b with
      | Some x, Some y => num_add x y
      | _, _ => Raise TypeError
      end
  end.

(** [a * b] *)
Definition py_mul (a b : json) : result json :=
  match as_num a, as_num b with
  | Some x, Some y => num_mul x y
  | _, _ =>
      match a, as_int b, as_int a, b with
      | JStr s, Some n, _, _ => Ok (JStr (repeat_string (Z.to_nat n) s))
      | JArr l, Some n, _, _ => Ok (JArr (repeat_list (Z.to_nat n) l))
      | _, _, Some n, JStr s => Ok (JStr (repeat_string (Z.to_nat n) s))
      | _, _, Some n, JArr l => Ok (JArr (repeat_list (Z.to_nat n) l))
      | _, _, _, _ => Raise TypeError
      end
  end.

(** [min(a, b)] and [max(a, b)]: the first argument is kept unless the
    second one is strictly smaller (greater). *)
Definition py_min (a b : json) : result json :=
  c <- py_lt b a ;; Ok (if c then b else a).

Definition py_max (a b : json) : result json :=
  c <- py_gt b a ;; Ok (if c then b else a).

(** [x.get(k, default)] *)
Definition py_get (x : json) (k : string) (default : json) : result json :=
  match x with
  | JObj m => Ok (match lookup k m with Some v => v | None => default end)
  | _ => Raise AttributeError
  end.

Definition nth_index {A : Type} (l : list A) (i : Z) : result A :=
  let i' := if i <? 0 then i + Z.of_nat (List.length l) else i in
  if i' <? 0 then Raise IndexError
  else match nth_error l (Z.to_nat i') with
       | Some x => Ok x
       | None => Raise IndexError
       end.

Definition chars (s : string) : list json :=
  map (fun c => JStr (String c "")) (list_ascii_of_string s).

(** [x[i]] for an integer [i] *)
Definition getitem_int (x : json) (i : Z) : result json :=
  match x with
  | JArr l => nth_index l i
  | JStr s => nth_index (chars s) i
  | JObj _ => Raise KeyError
  | _ => Raise TypeError
  end.

(** [x[k]] for a string [k] *)
Definition getitem_str (x : json) (k : string) : result json :=
  match x with
  | JObj m => match lookup k m with Some v => Ok v | None => Raise KeyError end
  | _ => Raise TypeError
  end.

(** [l[-1]] on a list built by the program *)
Definition py_last (l : list json) : result json := nth_index l (-1).

(** The items produced by iterating over [x] (as [list(x)] does). *)
Definition py_iter (x : json) : result (list json) :=
  match x with
  | JArr l => Ok l
  | JStr s => Ok (chars s)
  | JObj m => Ok (map (fun kv => JStr (fst kv)) m)
  | _ => Raise TypeError
  end.

(** [k in x] for a string [k] *)
Definition py_contains (k : string) (x : json) : result bool :=
  match x with
  | JObj m => Ok (match lookup k m with Some _ => true | None => false end)
  | JArr l => Ok (existsb (py_eq (JStr k)) l)
  | JStr s => Ok (match String.index 0 k s with Some _ => true | None => false end)
  | _ => Raise TypeError
  end.

(** ** Sorting

    [sorted] is a stable sort that only uses [<].  It is modelled by a
    stable insertion sort: an element is placed behind every element
    that is not greater than it.  An exception raised by a comparison
    ends the sort.  Whenever [<] orders the elements (as it does for
    numbers other than NaN, and for pairs of them), every stable sort
    returns this list. *)

Section Sort.
Context {A : Type}.
Variable lt : A -> A -> result bool.

Fixpoint insert (x : A) (l : list A) : result (list A) :=
  match l with
  | [] => Ok [x]
  | y :: l' =>
      c <- lt x y ;;
      if c then Ok (x :: y :: l')
      else r <- insert x l' ;; Ok (y :: r)
  end.

Definition sorted (l : list A) : result (list A) :=
  fold_left (fun acc x => s <- acc ;; insert x s) l (Ok []).
End Sort.

(** ** The state dictionary of [process_stimulation_data] *)

(** [plot_data] and [adjust_plot_data]: a [defaultdict(list)] that only
    ever holds the two lists ['time'] and ['value']. *)
Record plot : Type := mkPlot {
  time : list json;
  value : list json
}.

Record generator : Type := mkGenerator {
  base_intensity : json;
  plot_data : plot;
  adjust_value : json;
  adjust_plot_data : plot
}.

Record boost_state : Type := mkBoost {
  shockMode : json;
  channels : json;
  duration : json;
  offset : json
}.

(** An entry [{'ts': ts, 'mode': mode}] of a mode timeline. *)
Record mode_entry : Type := mkMode {
  mode_ts : json;
  mode : json
}.

(** An entry [{'ts': ts, 'channels': [...]}] of [fire_events]. *)
Record fire_event : Type := mkFire {
  fire_ts : json;
  fire_channels : list json
}.

Record state : Type := mkState {
  g1 : generator;
  g2 : generator;
  boost : boost_state;
  modes_g1 : list mode_entry;
  modes_g2 : list mode_entry;
  fire_events : list fire_event
}.

Inductive gen_key : Type := G1 | G2.

Definition get_gen (st : state) (k : gen_key) : generator :=
  match k with G1 => g1 st | G2 => g2 st end.

Definition set_gen (st : state) (k : gen_key) (g : generator) : state :=
  match k with
  | G1 => mkState g (g2 st) (boost st) (modes_g1 st) (modes_g2 st) (fire_events st)
  | G2 => mkState (g1 st) g (boost st) (modes_g1 st) (modes_g2 st) (fire_events st)
  end.

Definition set_boost (st : state) (b : boost_state) : state :=
  mkState (g1 st) (g2 st) b (modes_g1 st) (modes_g2 st) (fire_events st).

(** [state['modes'][gen_key].append({'ts': ts, 'mode': m})] *)
Definition append_mode (st : state) (k : gen_key) (ts m : json) : state :=
  match k with
  | G1 => mkState (g1 st) (g2 st) (boost st) (modes_g1 st ++ [mkMode ts m])
            (modes_g2 st) (fire_events st)
  | G2 => mkState (g1 st) (g2 st) (boost st) (modes_g1 st)
            (modes_g2 st ++ [mkMode ts m]) (fire_events st)
  end.

(** [state['fire_events'].append({'ts': ts, 'channels': chans})] *)
Definition append_fire (st : state) (ts : json) (chans : list json) : state :=
  mkState (g1 st) (g2 st) (boost st) (modes_g1 st) (modes_g2 st)
    (fire_events st ++ [mkFire ts chans]).

Definition append_sample (p : plot) (t v : json) : plot :=
  mkPlot (time p ++ [t]) (value p ++ [v]).

(** [state[gen_key]['plot_data']['time'].append(t)] followed by
    [state[gen_key]['plot_data']['value'].append(v)] *)
Definition append_plot (st : state) (k : gen_key) (t v : json) : state :=
  let g := get_gen st k in
  set_gen st k (mkGenerator (base_intensity g) (append_sample (plot_data g) t v)
                  (adjust_value g) (adjust_plot_data g)).

Definition append_adjust (st : state) (k : gen_key) (t v : json) : state :=
  let g := get_gen st k in
  set_gen st k (mkGenerator (base_intensity g) (plot_data g)
                  (adjust_value g) (append_sample (adjust_plot_data g) t v)).

Definition set_base_intensity (st : state) (k : gen_key) (v : json) : state :=
  let g := get_gen st k in
  set_gen st k (mkGenerator v (plot_data g) (adjust_value g) (adjust_plot_data g)).

Definition set_adjust_value (st : state) (k : gen_key) (v : json) : state :=
  let g := get_gen st k in
  set_gen st k (mkGenerator (base_intensity g) (plot_data g) v (adjust_plot_data g)).

(** The keys of [state['boost']], in the order of the dictionary. *)
Definition boost_keys : list string :=
  ["shockMode"; "channels"; "duration"; "offset"].

(** [state['boost'][key] = v] for one of the four keys. *)
Definition set_boost_field (b : boost_state) (key : string) (v : json) : boost_state :=
  if String.eqb key "shockMode" then mkBoost v (channels b) (duration b) (offset b)
  else if String.eqb key "channels" then mkBoost (shockMode b) v (duration b) (offset b)
  else if String.eqb key "duration" then mkBoost (shockMode b) (channels b) v (offset b)
  else if String.eqb key "offset" then mkBoost (shockMode b) (channels b) (duration b) v
  else b.

(** [prop in state['boost']]: a list or a dictionary is unhashable. *)
Definition in_boost (prop : json) : result bool :=
  match prop with
  | JStr k => Ok (existsb (String.eqb k) boost_keys)
  | JArr _ | JObj _ => Raise TypeError
  | _ => Ok false
  end.

Definition prop_key (prop : json) : string :=
  match prop with
  | JStr k => k
  | _ => ""
  end.

(** The index of a generator in [enumerate(['g1', 'g2'])]. *)
Definition gen_index (k : gen_key) : Z :=
  match k with G1 => 0 | G2 => 1 end.

(** ** State initialisation (lines 52 to 99) *)

Definition empty_plot : plot := mkPlot [] [].

(** The literal [0.1]: the binary64 value [7205759403792794 * 2**-56]. *)
Definition float_0_1 : spec_float := S754_finite false 7205759403792794 (-56).

(** The dictionary literal of lines 52 to 66. *)
Definition state0 : state :=
  mkState
    (mkGenerator (JInt 0) empty_plot (JInt 0) empty_plot)
    (mkGenerator (JInt 0) empty_plot (JInt 0) empty_plot)
    (mkBoost (JBool false) (JArr [JBool false; JBool false])
       (JFloat float_0_1) (JInt 0))
    [] [] [].

(** [for key in state['boost']: if key in initial_boost: ...] *)
Fixpoint load_boost (keys : list string) (initial_boost : json) (b : boost_state)
  : result boost_state :=
  match keys with
  | [] => Ok b
  | key :: keys' =>
      c <- py_contains key initial_boost ;;
      if c then
        v <- getitem_str initial_boost key ;;
        load_boost keys' initial_boost (set_boost_field b key v)
      else load_boost keys' initial_boost b
  end.

Definition initial_state (data : json) : result state :=
  initial_context <- py_get data "initialContext" (JObj []) ;;
  gen1 <- py_get initial_context "generator1" (JObj []) ;;
  i1 <- py_get gen1 "intensity" (JInt 0) ;;
  gen2 <- py_get initial_context "generator2" (JObj []) ;;
  i2 <- py_get gen2 "intensity" (JInt 0) ;;
  a1 <- py_get gen1 "adjust" (JInt 50) ;;
  a2 <- py_get gen2 "adjust" (JInt 50) ;;
  let st := mkState (mkGenerator i1 empty_plot a1 empty_plot)
              (mkGenerator i2 empty_plot a2 empty_plot)
              (boost state0) [] [] [] in
  let st := append_plot st G1 (JInt 0) (base_intensity (g1 st)) in
  let st := append_plot st G2 (JInt 0) (base_intensity (g2 st)) in
  let st := append_adjust st G1 (JInt 0) (adjust_value (g1 st)) in
  let st := append_adjust st G2 (JInt 0) (adjust_value (g2 st)) in
  initial_boost <- py_get initial_context "boost" (JObj []) ;;
  b <- load_boost boost_keys initial_boost (boost st) ;;
  let st := set_boost st b in
  g1_initial_mode <- py_get gen1 "mode" JNull ;;
  g2_initial_mode <- py_get gen2 "mode" JNull ;;
  let st := if truthy g1_initial_mode
            then append_mode st G1 (JInt 0) g1_initial_mode else st in
  let st := if truthy g2_initial_mode
            then append_mode st G2 (JInt 0) g2_initial_mode else st in
  Ok st.

(** ** The event loop (lines 101 to 182) *)

(** [sorted(data.get('data', []), key=lambda x: x.get('ts', 0))]: the
    keys are computed first, then the events are ordered by their key. *)
Definition event_key (event : json) : result json := py_get event "ts" (JInt 0).

Definition key_lt (a b : json * json) : result bool := py_lt (fst a) (fst b).

Definition sort_events (events : list json) : result (list json) :=
  keyed <- mapM (fun x => k <- event_key x ;; Ok (k, x)) events ;;
  s <- sorted key_lt keyed ;;
  Ok (map snd s).

(** The body of [for i, gen_key in enumerate(['g1', 'g2'])] after a
    change of [shockMode] (lines 130 to 138). *)
Definition shock_channel (st : state) (k : gen_key) (ts is_entering_shock : json)
  : result state :=
  c <- getitem_int (channels (boost st)) (gen_index k) ;;
  if truthy c then
    if truthy is_entering_shock
    then Ok (append_plot st k ts (JInt 0))
    else Ok (append_plot st k ts (base_intensity (get_gen st k)))
  else Ok st.

(** The body of the same loop for a fire event (lines 148 to 164). *)
Definition fire_channel (st : state) (k : gen_key) (ts : json) : result state :=
  c <- getitem_int (channels (boost st)) (gen_index k) ;;
  if truthy c then
    if truthy (shockMode (boost st)) then
      duration_ms <- py_mul (duration (boost st)) (JInt 1000) ;;
      let st := append_plot st k ts (base_intensity (get_gen st k)) in
      t <- py_add ts duration_ms ;;
      Ok (append_plot st k t (JInt 0))
    else
      s <- py_add (base_intensity (get_gen st k)) (offset (boost st)) ;;
      boosted_val <- py_min (JInt 100) s ;;
      current_val <- py_last (value (plot_data (get_gen st k))) ;;
      let st := append_plot st k ts boosted_val in
      t <- py_add ts (JInt 1) ;;
      Ok (append_plot st k t current_val)
  else Ok st.

(** [path[0] == 'boost'] (lines 118 to 164).  The second component is
    the local variable [current_boost_channels]. *)
Definition boost_event (st : state) (current_boost_channels : list json)
  (ts path v event_type : json) : result (state * list json) :=
  prop <- getitem_int path 1 ;;
  if py_eq prop (JStr "channels") then
    cur <- py_iter v ;;
    Ok (set_boost st (set_boost_field (boost st) "channels" v), cur)
  else
    known <- in_boost prop ;;
    if known then
      if py_eq prop (JStr "shockMode") && negb (py_eq (shockMode (boost st)) v) then
        let st := set_boost st (set_boost_field (boost st) "shockMode" v) in
        st <- shock_channel st G1 ts v ;;
        st <- shock_channel st G2 ts v ;;
        Ok (st, current_boost_channels)
      else
        Ok (set_boost st (set_boost_field (boost st) (prop_key prop) v),
            current_boost_channels)
    else if py_eq prop (JStr "fire") && py_eq event_type (JStr "action") then
      let st := append_fire st ts current_boost_channels in
      st <- fire_channel st G1 ts ;;
      st <- fire_channel st G2 ts ;;
      Ok (st, current_boost_channels)
    else Ok (st, current_boost_channels).

(** [path[0] in ['generator1', 'generator2']] (lines 167 to 182) *)
Definition generator_event (st : state) (k : gen_key) (ts path v : json)
  : result state :=
  prop <- getitem_int path 1 ;;
  if py_eq prop (JStr "intensity") then
    let st := set_base_intensity st k v in
    is_in_shock <-
      (if truthy (shockMode (boost st))
       then getitem_int (channels (boost st)) (gen_index k)
       else Ok (shockMode (boost st))) ;;
    if negb (truthy is_in_shock) then Ok (append_plot st k ts v) else Ok st
  else if py_eq prop (JStr "mode") then
    Ok (append_mode st k ts v)
  else if py_eq prop (JStr "adjust") then
    Ok (append_adjust (set_adjust_value st k v) k ts v)
  else Ok st.

(** One iteration of [for event in all_events]. *)
Definition step (sc : state * list json) (event : json)
  : result (state * list json) :=
  let '(st, current_boost_channels) := sc in
  ts <- py_get event "ts" JNull ;;
  path <- py_get event "path" (JArr []) ;;
  v <- py_get event "value" JNull ;;
  event_type <- py_get event "type" JNull ;;
  if is_none ts || negb (truthy path) then Ok (st, current_boost_channels)
  else
    p0 <- getitem_int path 0 ;;
    if py_eq p0 (JStr "boost") then
      boost_event st current_boost_channels ts path v event_type
    else if py_eq p0 (JStr "generator1") || py_eq p0 (JStr "generator2") then
      let k := if py_eq p0 (JStr "generator1") then G1 else G2 in
      st <- generator_event st k ts path v ;;
      Ok (st, current_boost_channels)
    else Ok (st, current_boost_channels).

Fixpoint run_events (sc : state * list json) (events : list json)
  : result (state * list json) :=
  match events with
  | [] => Ok sc
  | event :: events' => sc' <- step sc event ;; run_events sc' events'
  end.

(** ** Session end (lines 185 to 189) *)

(** [max(iterable)] over a non-empty sequence of values. *)
Definition py_max_list (l : list json) : result json :=
  match l with
  | [] => Raise ValueError
  | x :: l' => fold_left (fun acc y => m <- acc ;; py_max m y) l' (Ok x)
  end.

Definition session_end (data : json) : result json :=
  d <- py_get data "data" JNull ;;
  max_ts_in_data <-
    (if truthy d then
       d <- getitem_str data "data" ;;
       events <- py_iter d ;;
       keys <- mapM event_key events ;;
       py_max_list keys
     else Ok (JInt 0)) ;;
  metadata <- py_get data "metadata" (JObj []) ;;
  declared <- py_get metadata "duration" (JInt 0) ;;
  py_max declared max_ts_in_data.

(** ** Finalisation (lines 191 to 214) *)

(** Extend the adjust series of a generator to the end of the session. *)
Definition extend_adjust (st : state) (k : gen_key) (total_duration_ms : json)
  : result state :=
  let times := time (adjust_plot_data (get_gen st k)) in
  match times with
  | [] => Ok st
  | _ :: _ =>
      t <- py_last times ;;
      c <- py_lt t total_duration_ms ;;
      if c
      then Ok (append_adjust st k total_duration_ms (adjust_value (get_gen st k)))
      else Ok st
  end.

(** [<] on the tuples built by [zip]: the first components decide
    unless they are equal, then the second ones do.  (CPython takes an
    object to be equal to itself without calling [==]; this only shows
    for a NaN, which is no timestamp of a well-formed document.) *)
Definition tuple_lt (a b : json * json) : result bool :=
  if py_eq (fst a) (fst b) then
    if py_eq (snd a) (snd b) then Ok false else py_lt (snd a) (snd b)
  else py_lt (fst a) (fst b).

(** [sorted(zip(time_data, value_data))], then unzipped into the two
    sequences ['time'] and ['value'] *)
Definition sort_plot (p : plot) : result plot :=
  sorted_pairs <- sorted tuple_lt (combine (time p) (value p)) ;;
  Ok (mkPlot (map fst sorted_pairs) (map snd sorted_pairs)).

Definition sort_generator (st : state) (k : gen_key) : result state :=
  let g := get_gen st k in
  p <- sort_plot (plot_data g) ;;
  a <- sort_plot (adjust_plot_data g) ;;
  Ok (set_gen st k (mkGenerator (base_intensity g) p (adjust_value g) a)).

Definition finalize (st : state) (total_duration_ms : json) : result state :=
  st <- extend_adjust st G1 total_duration_ms ;;
  st <- extend_adjust st G2 total_duration_ms ;;
  st <- sort_generator st G1 ;;
  sort_generator st G2.

(** ** [process_stimulation_data] *)

(** Lines 52 to 182: initialisation and the event loop. *)
Definition dispatch (data : json) : result (state * list json) :=
  st <- initial_state data ;;
  d <- py_get data "data" (JArr []) ;;
  events <- py_iter d ;;
  all_events <- sort_events events ;;
  current_boost_channels <- py_iter (channels (boost st)) ;;
  run_events (st, current_boost_channels) all_events.

Definition process_stimulation_data (data : json) : result state :=
  '(st, _) <- dispatch data ;;
  total_duration_ms <- session_end data ;;
  finalize st total_duration_ms.

(** ** The command line (lines 219 to 334)

    What [open] and [json.load] do with the input file is an input of
    the model; the drawing calls (lines 242 to 321) and [plt.savefig]
    are parameters that may raise. *)

Inductive load_result : Type :=
| FileNotFound                 (* [open] raises FileNotFoundError *)
| DecodeError (msg : string)   (* [json.load] raises JSONDecodeError, [str(e) = msg] *)
| LoadRaises (e : exn)         (* any other exception of [open] or [json.load] *)
| Loaded (data : json).

(** What a run of the program leaves behind: the lines written by
    [print], the image file written (if any), and the exit status of
    the interpreter. *)
Record outcome : Type := mkOutcome {
  stdout : list string;
  image : option string;
  exit_status : Z
}.

Section CommandLine.
Variable draw : json -> state -> result unit.
Variable savefig : string -> result unit.

(** The printed lines and the image written, together with the
    exception that ended the call, if any. *)
Definition plot_stimulation_data (file_path output_path : string)
  (file : load_result) : list string * option string * option exn :=
  match file with
  | FileNotFound =>
      (["Error: The file '" ++ file_path ++ "' was not found."], None, None)
  | DecodeError msg =>
      (["Error decoding JSON from the file: " ++ msg], None, None)
  | LoadRaises e => ([], None, Some e)
  | Loaded data =>
      match process_stimulation_data data with
      | Raise e => ([], None, Some e)
      | Ok st =>
          match draw data st with
          | Raise e => ([], None, Some e)
          | Ok _ =>
              let out := ["Saving plot to " ++ output_path ++ "..."] in
              match savefig output_path with
              | Raise e => (out, None, Some e)
              | Ok _ => ((out ++ ["Done."])%list, Some output_path, None)
              end
          end
      end
  end.

(** [python plot_hsr.py argv[1] argv[2]]: status 1 after [sys.exit(1)]
    or an uncaught exception, status 0 when the script runs to its
    end. *)
Definition main (argv : list string) (file : load_result) : outcome :=
  match argv with
  | _ :: json_file_path :: output_file_path :: _ =>
      match plot_stimulation_data json_file_path output_file_path file with
      | (out, img, None) => mkOutcome out img 0
      | (out, img, Some _) => mkOutcome out img 1
      end
  | _ =>
      mkOutcome
        ["Usage: python plot_hsr.py <path_to_json_file> <output_image_path.png>"]
        None 1
  end.
End CommandLine.

(** ** The input document

    The shape of the input that section 6 of the specification takes as
    the contract of the engine, as a decidable predicate.  Integers that
    may be added to a [float] have to be convertible. *)

Definition is_nan (f : spec_float) : bool :=
  match f with
  | S754_nan => true
  | _ => false
  end.

Definition fits_float (z : Z) : bool :=
  match PyNum.float_of_int z with
  | Ok _ => true
  | Raise _ => false
  end.

Definition is_int (j : json) : bool :=
  match j with
  | JInt z => fits_float z
  | _ => false
  end.

Definition is_number (j : json) : bool :=
  match j with
  | JInt z => fits_float z
  | JFloat f => negb (is_nan f)
  | _ => false
  end.

(** A channel mask: a list with an entry for each of the two channels. *)
Definition is_mask (j : json) : bool :=
  match j with
  | JArr (_ :: _ :: _) => true
  | _ => false
  end.

Definition opt_field (m : list (string * json)) (k : string) (p : json -> bool)
  : bool :=
  match lookup k m with
  | None => true
  | Some v => p v
  end.

Definition wf_boost_value (prop v : json) : bool :=
  if py_eq prop (JStr "channels") then is_mask v
  else if py_eq prop (JStr "duration") || py_eq prop (JStr "offset")
       then is_number v
       else true.

Definition wf_generator_value (prop v : json) : bool :=
  if py_eq prop (JStr "intensity") || py_eq prop (JStr "adjust")
  then is_number v
  else true.

Definition wf_path (path v : json) : bool :=
  match path with
  | JArr [] => true
  | JArr (p0 :: rest) =>
      if py_eq p0 (JStr "boost") then
        match rest with
        | JStr k :: _ => wf_boost_value (JStr k) v
        | _ => false
        end
      else if py_eq p0 (JStr "generator1") || py_eq p0 (JStr "generator2") then
        match rest with
        | prop :: _ => wf_generator_value prop v
        | [] => false
        end
      else true
  | _ => false
  end.

Definition wf_event (event : json) : bool :=
  match event with
  | JObj m =>
      match lookup "ts" m with
      | None => true
      | Some ts =>
          is_int ts &&
          wf_path (match lookup "path" m with Some p => p | None => JArr [] end)
                  (match lookup "value" m with Some v => v | None => JNull end)
      end
  | _ => false
  end.

Definition wf_generator (g : json) : bool :=
  match g with
  | JObj m => opt_field m "intensity" is_number && opt_field m "adjust" is_number
  | _ => false
  end.

Definition wf_boost (b : json) : bool :=
  match b with
  | JObj m =>
      opt_field m "channels" is_mask && opt_field m "duration" is_number &&
      opt_field m "offset" is_number
  | _ => false
  end.

Definition wf_context (c : json) : bool :=
  match c with
  | JObj m =>
      opt_field m "generator1" wf_generator &&
      opt_field m "generator2" wf_generator &&
      opt_field m "boost" wf_boost
  | _ => false
  end.

Definition wf_metadata (md : json) : bool :=
  match md with
  | JObj m => opt_field m "duration" is_number
  | _ => false
  end.

Definition wf_events (d : json) : bool :=
  match d with
  | JArr events => forallb wf_event events
  | _ => false
  end.

Definition wf_document (data : json) : bool :=
  match data with
  | JObj m =>
      opt_field m "initialContext" wf_context &&
      opt_field m "metadata" wf_metadata &&
      opt_field m "data" wf_events
  | _ => false
  end.

(** ** Notions used by the statements *)

(** A number that is not a NaN. *)
Definition is_real (j : json) : bool :=
  match as_num j with
  | Some n => match num_val n with Some _ => true | None => false end
  | None => false
  end.

Definition has_num (j : json) : bool :=
  match as_num j with
  | Some _ => true
  | None => false
  end.

(** [a <= b] as the program would test it: [b < a] is false. *)
Definition time_le (a b : json) : Prop := py_lt b a = Ok false.

Definition nondecreasing (times : list json) : Prop := StronglySorted time_le times.

(** The samples of a series, as [zip] pairs them. *)
Definition samples (p : plot) : list (json * json) := combine (time p) (value p).

(** The exact value of a Python number, when it is one and not a NaN. *)
Definition jval (j : json) : option PyNum.xval :=
  match as_num j with
  | Some n => num_val n
  | None => None
  end.

(** The first path segment that addresses a generator. *)
Definition gen_name (k : gen_key) : string :=
  match k with G1 => "generator1" | G2 => "generator2" end.

(** [session_end] on integers: the declared duration against the
    greatest timestamp, 0 standing for an empty event list. *)
Definition max_ts (tss : list Z) : Z :=
  match tss with
  | [] => 0
  | t :: tss' => fold_left Z.max tss' t
  end.

(** Two events carry the same timestamp. *)
Definition same_ts (a b : json) : bool :=
  match event_key a, event_key b with
  | Ok x, Ok y => py_eq x y
  | _, _ => false
  end.

Definition has_real_key (event : json) : bool :=
  match event_key event with
  | Ok k => is_real k
  | Raise _ => false
  end.

(** [l2] is a permutation of [l1] in which the events of equal
    timestamp keep their relative order. *)
Definition stable_perm (l1 l2 : list json) : Prop :=
  Permutation l1 l2 /\
  forall e, filter (same_ts e) l1 = filter (same_ts e) l2.

(** The input document with the event list [events]. *)
Definition with_events (rest : list (string * json)) (events : list json) : json :=
  JObj (("data", JArr events) :: rest).

(** The order that [<] puts on elements carrying a numeric weight, and
    the elements of equal weight. *)
Definition weight_lt {A : Type} (w : A -> PyNum.xval) (x y : A) : result bool :=
  Ok (PyNum.xltb (w x) (w y)).

Definition weight_le {A : Type} (w : A -> PyNum.xval) (x y : A) : Prop :=
  PyNum.xltb (w y) (w x) = false.

Definition same_weight {A : Type} (w : A -> PyNum.xval) (a x : A) : bool :=
  PyNum.xeqb (w a) (w x).

Definition jweight (j : json) : PyNum.xval :=
  match jval j with
  | Some x => x
  | None => PyNum.Fin 0
  end.

(** The in-place updates that the event loop performs on the state:
    appending to a list and assigning an entry of a dictionary. *)
Inductive update : state -> state -> Prop :=
| update_refl st : update st st
| update_plot st st' k t v :
    update st st' -> update st (append_plot st' k t v)
| update_adjust st st' k t v :
    update st st' -> update st (append_adjust st' k t v)
| update_base st st' k v :
    update st st' -> update st (set_base_intensity st' k v)
| update_adjust_value st st' k v :
    update st st' -> update st (set_adjust_value st' k v)
| update_mode st st' k t m :
    update st st' -> update st (append_mode st' k t m)
| update_fire st st' t c :
    update st st' -> update st (append_fire st' t c)
| update_boost st st' b :
    update st st' -> update st (set_boost st' b).

(** Every series of the state holds a sample. *)
Definition series_nonempty (st : state) : Prop :=
  forall k, value (plot_data (get_gen st k)) <> [].

(** The order that the specification asks of the finaliser, in its
    words: a stable sort by timestamp, ties keeping the order in which
    the samples were appended. *)
Definition stable_sort_by_time (l : list (json * json)) : result (list (json * json)) :=
  sorted key_lt l.

(** An event [{'ts': ts, 'path': [a, b], 'value': v, 'type': ty}]. *)
Definition mk_event (ts : json) (a b : string) (v : json) (ty : string) : json :=
  JObj [("ts", ts); ("path", JArr [JStr a; JStr b]); ("value", v); ("type", JStr ty)].

(** The sort key of an event that has one. *)
Definition key_of (event : json) : json :=
  match event_key event with
  | Ok k => k
  | Raise _ => JInt 0
  end.

(** The weight of an event paired with its sort key. *)
Definition keyed_weight (p : json * json) : PyNum.xval := jweight (fst p).

(** [max] over [x :: l] when the elements carry a numeric weight: the
    first element of greatest weight. *)
Definition first_max {A : Type} (w : A -> PyNum.xval) (x : A) (l : list A) : A :=
  fold_left (fun m y => if PyNum.xltb (w m) (w y) then y else m) l x.

(** A float that is neither an infinity nor a NaN. *)
Definition is_finite (f : spec_float) : bool :=
  match f with
  | S754_zero _ | S754_finite _ _ _ => true
  | _ => false
  end.

(** The typing that the event loop maintains on documents of the shape
    above: the times of the series are numbers and no NaN, their values
    are numbers, and the override state holds a mask and two numbers. *)
Definition plot_ok (p : plot) : Prop :=
  Forall (fun t => is_real t = true) (time p) /\
  Forall (fun v => has_num v = true) (value p) /\
  time p <> [] /\ value p <> [].

Definition gen_ok (g : generator) : Prop :=
  is_number (base_intensity g) = true /\ is_number (adjust_value g) = true /\
  plot_ok (plot_data g) /\ plot_ok (adjust_plot_data g).

Definition boost_ok (b : boost_state) : Prop :=
  is_mask (channels b) = true /\ is_number (duration b) = true /\
  is_number (offset b) = true.

Definition st_ok (st : state) : Prop :=
  (forall k, gen_ok (get_gen st k)) /\ boost_ok (boost st).

(** ** Notions used by the further properties *)

(** The two lists of a series have the same length, so that [zip] pairs
    every time with its value. *)
Definition aligned (p : plot) : Prop :=
  List.length (time p) = List.length (value p).

Definition st_aligned (st : state) : Prop :=
  forall k, aligned (plot_data (get_gen st k)) /\
            aligned (adjust_plot_data (get_gen st k)).

(** [state['modes'][gen_key]] *)
Definition modes_of (st : state) (k : gen_key) : list mode_entry :=
  match k with G1 => modes_g1 st | G2 => modes_g2 st end.

(** The events that line 114 drops: no timestamp, or no path. *)
Definition skipped (event : json) : bool :=
  match event with
  | JObj m =>
      is_none (match lookup "ts" m with Some ts => ts | None => JNull end) ||
      negb (truthy (match lookup "path" m with Some p => p | None => JArr [] end))
  | _ => false
  end.

(** ** Drawing (lines 24 to 39 and 240 to 304)

    What [plot_stimulation_data] computes for the calls of matplotlib:
    the titles of the modes, the axes of the markers, the colours and the
    bars of the mode timelines.  The calls of matplotlib themselves are
    taken to return. *)

Definition fsub (x y : spec_float) : spec_float := SFsub PyNum.prec PyNum.emax x y.
Definition fdiv (x y : spec_float) : spec_float := SFdiv PyNum.prec PyNum.emax x y.

(** The float [2.0]: [2**52 * 2**-51]. *)
Definition float_2 : spec_float := S754_finite false 4503599627370496 (-51).

Definition num_sub (a b : num) : result json :=
  match a, b with
  | NInt x, NInt y => Ok (JInt (x - y))
  | NInt x, NFloat g => f <- PyNum.float_of_int x ;; Ok (JFloat (fsub f g))
  | NFloat f, NInt y => g <- PyNum.float_of_int y ;; Ok (JFloat (fsub f g))
  | NFloat f, NFloat g => Ok (JFloat (fsub f g))
  end.

(** [a - b]: defined between numbers only. *)
Definition py_sub (a b : json) : result json :=
  match as_num a, as_num b with
  | Some x, Some y => num_sub x y
  | _, _ => Raise TypeError
  end.

(** [a <= z] for an integer literal [z]: false for a NaN, a TypeError
    for anything that is not a number. *)
Definition py_le_int (a : json) (z : Z) : result bool :=
  match as_num a with
  | Some x =>
      Ok (match num_val x with
          | Some v => negb (PyNum.xltb (PyNum.Fin (inject_Z z)) v)
          | None => false
          end)
  | None => Raise TypeError
  end.

(** [a / 2].  The quotient of an integer is rounded once, to the
    nearest binary64 value; it is an OverflowError ("integer division
    result too large for a float") when that value is not finite. *)
Definition py_half (a : json) : result json :=
  match as_num a with
  | Some (NInt z) =>
      match binary_normalize PyNum.prec PyNum.emax z (-1) false with
      | S754_infinity _ => Raise OverflowError
      | f => Ok (JFloat f)
      end
  | Some (NFloat f) => Ok (JFloat (fdiv f float_2))
  | None => Raise TypeError
  end.

(** Dictionaries keyed by values of the document.  A list or a
    dictionary is unhashable.  Two keys are the same when [==] holds; a
    NaN is the same key as a NaN, since [json.load] reads every NaN as
    one and the same object and a dictionary looks at identity first. *)
Definition hashable (j : json) : bool :=
  match j with
  | JArr _ | JObj _ => false
  | _ => true
  end.

Definition is_nan_value (j : json) : bool :=
  match j with
  | JFloat f => is_nan f
  | _ => false
  end.

Definition key_eq (a b : json) : bool :=
  py_eq a b || (is_nan_value a && is_nan_value b).

Fixpoint dict_find {V : Type} (d : list (json * V)) (k : json) : option V :=
  match d with
  | [] => None
  | (k', v) :: d' => if key_eq k' k then Some v else dict_find d' k
  end.

(** [d[k] = v] for a hashable [k]: the value of an existing key is
    replaced, a new key is added at the end. *)
Fixpoint dict_put {V : Type} (d : list (json * V)) (k : json) (v : V)
  : list (json * V) :=
  match d with
  | [] => [(k, v)]
  | (k', v') :: d' =>
      if key_eq k' k then (k', v) :: d' else (k', v') :: dict_put d' k v
  end.

Definition dict_set {V : Type} (d : list (json * V)) (k : json) (v : V)
  : result (list (json * V)) :=
  if hashable k then Ok (dict_put d k v) else Raise TypeError.

(** [d.get(k, default)] *)
Definition dict_get {V : Type} (d : list (json * V)) (k : json) (default : V)
  : result V :=
  if hashable k
  then Ok (match dict_find d k with Some v => v | None => default end)
  else Raise TypeError.

(** [k in d] *)
Definition dict_contains {V : Type} (d : list (json * V)) (k : json) : result bool :=
  if hashable k
  then Ok (match dict_find d k with Some _ => true | None => false end)
  else Raise TypeError.

(** [d[k]] *)
Definition dict_getitem {V : Type} (d : list (json * V)) (k : json) : result V :=
  if hashable k
  then match dict_find d k with Some v => Ok v | None => Raise KeyError end
  else Raise TypeError.

(** [{mode['id']: mode['title'] for mode in data.get('modes', [])}]
    (line 242) *)
Definition mode_map_of (data : json) : result (list (json * json)) :=
  modes <- py_get data "modes" (JArr []) ;;
  items <- py_iter modes ;;
  fold_left (fun acc mode_item =>
               d <- acc ;;
               id <- getitem_str mode_item "id" ;;
               title <- getitem_str mode_item "title" ;;
               dict_set d id title)
            items (Ok []).

(** The axes on which the marker of a fire event is drawn (lines 266 to
    272), in the order of the calls. *)
Definition marker_axes (fire : fire_event) : result (list gen_key) :=
  let channels_at_fire := fire_channels fire in
  c0 <- nth_index channels_at_fire 0 ;;
  let on1 := if truthy c0 then [G1] else [] in
  c1 <- nth_index channels_at_fire 1 ;;
  let on2 := if truthy c1 then [G2] else [] in
  Ok (on1 ++ on2)%list.

(** A bar of a mode timeline: the arguments of [ax.broken_barh] and of
    [ax.text] (lines 302 and 304). *)
Record bar : Type := mkBar {
  start_ts : json;
  duration_ts : json;
  bar_color : string;
  text_x : json;
  mode_title : json
}.

Section Colours.
(** The colour that lines 37 and 38 draw for a mode id: the random
    generator is seeded with [str(mode_id)], so the three random numbers
    and the colour are a function of the mode id. *)
Variable seeded_color : json -> string.

(** [get_mode_color(mode_id)] (lines 24 to 39).  [color_map] is the
    default argument: one dictionary, shared by all the calls. *)
Definition get_mode_color (mode_id : json) (color_map : list (json * string))
  : result (string * list (json * string)) :=
  present <- dict_contains color_map mode_id ;;
  let color_map :=
    if present then color_map
    else dict_put color_map mode_id (seeded_color mode_id) in
  c <- dict_getitem color_map mode_id ;;
  Ok (c, color_map).

(** [for j in range(len(state['modes'][gen_key]))] (lines 293 to 304):
    the entry [j] with the entries that follow it. *)
Fixpoint mode_bars (modes : list mode_entry) (total_duration_ms : json)
  (mode_map : list (json * json)) (color_map : list (json * string))
  : result (list bar * list (json * string)) :=
  match modes with
  | [] => Ok ([], color_map)
  | entry :: rest =>
      let start := mode_ts entry in
      let end_ts := match rest with
                    | next :: _ => mode_ts next
                    | [] => total_duration_ms
                    end in
      duration <- py_sub end_ts start ;;
      c <- py_le_int duration 0 ;;
      if c then mode_bars rest total_duration_ms mode_map color_map
      else
        let mode_id := mode entry in
        title <- dict_get mode_map mode_id (JStr "Unknown") ;;
        '(color, color_map) <- get_mode_color mode_id color_map ;;
        half <- py_half duration ;;
        x <- py_add start half ;;
        '(bars, color_map) <- mode_bars rest total_duration_ms mode_map color_map ;;
        Ok (mkBar start duration color x title :: bars, color_map)
  end.

(** The bars of the two axes (line 285), channel 1 first. *)
Definition timeline_bars (st : state) (total_duration_ms : json)
  (mode_map : list (json * json)) (color_map : list (json * string))
  : result (list bar * list bar * list (json * string)) :=
  '(bars1, color_map) <- mode_bars (modes_g1 st) total_duration_ms mode_map color_map ;;
  '(bars2, color_map) <- mode_bars (modes_g2 st) total_duration_ms mode_map color_map ;;
  Ok (bars1, bars2, color_map).
End Colours.

(** ** Notions used by the statements about drawing *)

(** The id and the title of an entry of the mode list. *)
Definition id_of (mode_item : json) : json :=
  match getitem_str mode_item "id" with
  | Ok v => v
  | Raise _ => JNull
  end.

Definition title_of (mode_item : json) : json :=
  match getitem_str mode_item "title" with
  | Ok v => v
  | Raise _ => JNull
  end.

(** The bars [(start, duration)] lie end to end from [from] to [to],
    each with a positive duration. *)
Fixpoint end_to_end (from : Z) (spans : list (Z * Z)) (to : Z) : Prop :=
  match spans with
  | [] => from = to
  | (s, d) :: spans' => s = from /\ 0 < d /\ end_to_end (s + d) spans' to
  end.

(** The span of a bar. *)
Definition span_of (sd : Z * Z) : json * json := (JInt (fst sd), JInt (snd sd)).

(** What a dictionary takes a hashable key for: [None], a string, the
    value of a number, or the NaN of the document. *)
Inductive key_class : Type :=
| KNone
| KText (s : string)
| KNumber (v : PyNum.xval)
| KNaN
| KOther.

Definition class_of (j : json) : key_class :=
  match j with
  | JNull => KNone
  | JStr s => KText s
  | JArr _ | JObj _ => KOther
  | _ => match jval j with
         | Some v => KNumber v
         | None => KNaN
         end
  end.

Definition same_class (a b : key_class) : bool :=
  match a, b with
  | KNone, KNone => true
  | KText s, KText t => String.eqb s t
  | KNumber u, KNumber v => PyNum.xeqb u v
  | KNaN, KNaN => true
  | _, _ => false
  end.

(** Every key of the dictionary is hashable. *)
Definition keys_hashable {V : Type} (d : list (json * V)) : Prop :=
  Forall (fun kv => hashable (fst kv) = true) d.

(** * Properties *)

(** ** The model on the scenarios of the specification *)

Example float_0_1_valid : valid_binary PyNum.prec PyNum.emax float_0_1 = true.
Proof. reflexivity. Qed.

(** The integers that [float()] accepts. *)
Example float_of_int_bounds :
  fits_float (2 ^ 1024 - 2 ^ 970 - 1) = true /\
  fits_float (2 ^ 1024 - 2 ^ 970) = false /\
  fits_float (- (2 ^ 1024 - 2 ^ 970)) = false.
Proof. repeat split; vm_compute; reflexivity. Qed.

(** Scenario A: no context, no event, a declared duration of 5000. *)
Example scenario_A :
  let data := JObj [("initialContext", JObj []); ("data", JArr []);
                    ("metadata", JObj [("duration", JInt 5000)])] in
  session_end data = Ok (JInt 5000) /\
  exists st, process_stimulation_data data = Ok st /\
    samples (plot_data (g1 st)) = [(JInt 0, JInt 0)] /\
    samples (plot_data (g2 st)) = [(JInt 0, JInt 0)] /\
    samples (adjust_plot_data (g1 st)) = [(JInt 0, JInt 50); (JInt 5000, JInt 50)] /\
    samples (adjust_plot_data (g2 st)) = [(JInt 0, JInt 50); (JInt 5000, JInt 50)].
Proof.
  split; [reflexivity|]. eexists. split; [vm_compute; reflexivity|].
  repeat split.
Qed.

(** Scenario B: an intensity update. *)
Example scenario_B :
  exists st,
    process_stimulation_data
      (JObj [("initialContext", JObj [("generator1", JObj [("intensity", JInt 40)])]);
             ("data", JArr [mk_event (JInt 1000) "generator1" "intensity" (JInt 60) "state"])])
    = Ok st /\
    samples (plot_data (g1 st)) = [(JInt 0, JInt 40); (JInt 1000, JInt 60)].
Proof. eexists. split; [vm_compute; reflexivity | reflexivity]. Qed.

(** Scenario C: a boost pulse of one millisecond. *)
Example scenario_C :
  exists st,
    process_stimulation_data
      (JObj [("initialContext",
              JObj [("generator1", JObj [("intensity", JInt 50)]);
                    ("boost", JObj [("channels", JArr [JBool true; JBool false]);
                                    ("offset", JInt 10)])]);
             ("data", JArr [mk_event (JInt 2000) "boost" "fire" JNull "action"])])
    = Ok st /\
    samples (plot_data (g1 st)) =
      [(JInt 0, JInt 50); (JInt 2000, JInt 60); (JInt 2001, JInt 50)] /\
    samples (plot_data (g2 st)) = [(JInt 0, JInt 0)] /\
    fire_events st = [mkFire (JInt 2000) [JBool true; JBool false]].
Proof. eexists. split; [vm_compute; reflexivity | repeat split]. Qed.

(** Scenario D: entering shock mode at 500 and leaving it at 1500. *)
Example scenario_D :
  exists st,
    process_stimulation_data
      (JObj [("initialContext",
              JObj [("generator1", JObj [("intensity", JInt 30)]);
                    ("generator2", JObj [("intensity", JInt 70)]);
                    ("boost", JObj [("channels", JArr [JBool true; JBool true])])]);
             ("data", JArr [mk_event (JInt 500) "boost" "shockMode" (JBool true) "state";
                            mk_event (JInt 1500) "boost" "shockMode" (JBool false) "state"])])
    = Ok st /\
    samples (plot_data (g1 st)) =
      [(JInt 0, JInt 30); (JInt 500, JInt 0); (JInt 1500, JInt 30)] /\
    samples (plot_data (g2 st)) =
      [(JInt 0, JInt 70); (JInt 500, JInt 0); (JInt 1500, JInt 70)].
Proof. eexists. split; [vm_compute; reflexivity | repeat split]. Qed.

(** Scenario E: a shock pulse of 0.2 s; its end is the [float] 3200.0. *)
Example scenario_E :
  exists st,
    process_stimulation_data
      (JObj [("initialContext",
              JObj [("generator1", JObj [("intensity", JInt 45)]);
                    ("boost", JObj [("shockMode", JBool true);
                                    ("channels", JArr [JBool true; JBool false]);
                                    ("duration",
                                     JFloat (S754_finite false 7205759403792794 (-55)))])]);
             ("data", JArr [mk_event (JInt 3000) "boost" "fire" JNull "action"])])
    = Ok st /\
    samples (plot_data (g1 st)) =
      [(JInt 0, JInt 45); (JInt 3000, JInt 45);
       (JFloat (S754_finite false 7036874417766400 (-41)), JInt 0)] /\
    py_eq (JFloat (S754_finite false 7036874417766400 (-41))) (JInt 3200) = true /\
    samples (plot_data (g2 st)) = [(JInt 0, JInt 0)].
Proof. eexists. split; [vm_compute; reflexivity | repeat split]. Qed.

(** A timestamp that [float()] rejects ends a shock pulse with an
    OverflowError on line 154. *)
Example huge_timestamp_overflows :
  process_stimulation_data
    (JObj [("initialContext",
            JObj [("boost", JObj [("shockMode", JBool true);
                                  ("channels", JArr [JBool true; JBool false])])]);
           ("data", JArr [mk_event (JInt (2 ^ 1024)) "boost" "fire" JNull "action"])])
  = Raise OverflowError.
Proof. vm_compute. reflexivity. Qed.

(** ** The order on numbers *)

Module XOrder.
Import PyNum.

Lemma xltb_irrefl a : xltb a a = false.
Proof.
  destruct a; cbn [xltb]; auto.
  destruct (Qcompare q q) eqn:E; auto.
  apply Qlt_alt in E. exfalso. revert E. apply Qlt_irrefl.
Qed.

Lemma xltb_trans a b c : xltb a b = true -> xltb b c = true -> xltb a c = true.
Proof.
  destruct a, b, c; cbn [xltb]; auto; try discriminate.
  destruct (Qcompare q q0) eqn:E1; try discriminate.
  destruct (Qcompare q0 q1) eqn:E2; try discriminate.
  intros _ _. apply Qlt_alt in E1. apply Qlt_alt in E2.
  assert (H : (q < q1)%Q) by (eapply Qlt_trans; eauto).
  rewrite (proj1 (Qlt_alt q q1) H). reflexivity.
Qed.

Lemma Qcompare_not_lt p q : Qcompare p q <> Lt <-> (q <= p)%Q.
Proof.
  split.
  - intros H. apply Qnot_lt_le. intros L. apply Qlt_alt in L. contradiction.
  - intros H L. apply Qlt_alt in L. revert L. now apply Qle_not_lt.
Qed.

Lemma xltb_false_Q p q : xltb (Fin p) (Fin q) = false <-> (q <= p)%Q.
Proof.
  cbn [xltb]. rewrite <- Qcompare_not_lt.
  destruct (Qcompare p q); split; intros; congruence.
Qed.

(** [a <= b <= c] gives [a <= c], with [x <= y] read as "not [y < x]". *)
Lemma xle_trans a b c : xltb b a = false -> xltb c b = false -> xltb c a = false.
Proof.
  destruct a, b, c; cbn [xltb]; auto; try discriminate.
  intros H1 H2.
  apply (xltb_false_Q q0 q) in H1. apply (xltb_false_Q q1 q0) in H2.
  apply (xltb_false_Q q1 q). eapply Qle_trans; eauto.
Qed.

Lemma xltb_asym a b : xltb a b = true -> xltb b a = false.
Proof.
  intros H. destruct (xltb b a) eqn:E; auto.
  pose proof (xltb_trans _ _ _ H E) as T. rewrite xltb_irrefl in T. discriminate.
Qed.

Lemma xeqb_spec a b : xeqb a b = negb (xltb a b) && negb (xltb b a).
Proof.
  destruct a, b; cbn [xltb xeqb negb andb]; auto.
  destruct (Qeq_bool q q0) eqn:E.
  - apply Qeq_bool_iff in E.
    rewrite (proj1 (Qeq_alt q q0) E).
    rewrite (proj1 (Qeq_alt q0 q) (Qeq_sym _ _ E)). reflexivity.
  - destruct (Qcompare q q0) eqn:A.
    + apply Qeq_alt in A. apply Qeq_bool_iff in A. congruence.
    + reflexivity.
    + cbn [negb andb]. apply Qgt_alt in A.
      rewrite (proj1 (Qlt_alt q0 q) A). reflexivity.
Qed.

Lemma xeqb_refl a : xeqb a a = true.
Proof. rewrite xeqb_spec, xltb_irrefl. reflexivity. Qed.

Lemma xeqb_sym a b : xeqb a b = xeqb b a.
Proof. rewrite !xeqb_spec. apply andb_comm. Qed.

Lemma xltb_false_or a b : xltb a b = false -> xltb b a = true \/ xeqb a b = true.
Proof.
  intros H. rewrite xeqb_spec, H. destruct (xltb b a); auto.
Qed.

Lemma xeqb_trans a b c : xeqb a b = true -> xeqb b c = true -> xeqb a c = true.
Proof.
  rewrite !xeqb_spec, !andb_true_iff, !negb_true_iff.
  intros [A B] [C D]. split.
  - apply (xle_trans c b a); assumption.
  - apply (xle_trans a b c); assumption.
Qed.

(** The order does not tell equal values apart. *)
Lemma xltb_eq_l a b c : xeqb a b = true -> xltb a c = xltb b c.
Proof.
  rewrite xeqb_spec, andb_true_iff, !negb_true_iff. intros [A B].
  destruct (xltb b c) eqn:E.
  - destruct (xltb a c) eqn:F; auto.
    pose proof (xle_trans _ _ _ F B) as T. congruence.
  - apply (xle_trans c b a); assumption.
Qed.

Lemma xltb_eq_r a b c : xeqb a b = true -> xltb c a = xltb c b.
Proof.
  rewrite xeqb_spec, andb_true_iff, !negb_true_iff. intros [A B].
  destruct (xltb c b) eqn:E.
  - destruct (xltb c a) eqn:F; auto.
    pose proof (xle_trans b a c A F) as T. congruence.
  - apply (xle_trans a b c); assumption.
Qed.

End XOrder.

Lemma is_real_jval j : is_real j = true <-> exists x, jval j = Some x.
Proof.
  unfold is_real, jval. destruct (as_num j) as [n|].
  - destruct (num_val n); split; intros; eauto; try discriminate.
    destruct H; discriminate.
  - split; [discriminate | intros [x H]; discriminate].
Qed.

Lemma py_lt_real a b x y :
  jval a = Some x -> jval b = Some y -> py_lt a b = Ok (PyNum.xltb x y).
Proof.
  unfold jval. intros A B.
  destruct a; try discriminate; destruct b; try discriminate;
    cbn [as_num] in A, B; cbn [py_lt as_num]; unfold num_lt;
    rewrite A, B; reflexivity.
Qed.

Lemma py_eq_real a b x y :
  jval a = Some x -> jval b = Some y -> py_eq a b = PyNum.xeqb x y.
Proof.
  unfold jval. intros A B.
  destruct a; try discriminate; destruct b; try discriminate;
    cbn [as_num] in A, B; cbn [py_eq as_num]; unfold num_eq;
    rewrite A, B; reflexivity.
Qed.

(** Two numbers can always be compared, NaN included. *)
Lemma py_lt_num a b :
  has_num a = true -> has_num b = true -> exists c, py_lt a b = Ok c.
Proof.
  unfold has_num. intros A B.
  destruct a; try discriminate; destruct b; try discriminate;
    simpl; eauto.
Qed.

(** ** The insertion sort *)

Section SortFacts.
Context {A : Type}.
Variable lt : A -> A -> result bool.

Lemma sorted_nil : sorted lt [] = Ok [].
Proof. reflexivity. Qed.

Lemma sorted_snoc l x :
  sorted lt (l ++ [x]) = (s <- sorted lt l ;; insert lt x s).
Proof. unfold sorted. rewrite fold_left_app. reflexivity. Qed.

Lemma insert_perm x l r : insert lt x l = Ok r -> Permutation (x :: l) r.
Proof.
  revert r. induction l as [|y l IH]; intros r H; simpl in H.
  - injection H as <-. apply Permutation_refl.
  - destruct (lt x y) as [[|]|]; simpl in H; try discriminate.
    + injection H as <-. apply Permutation_refl.
    + destruct (insert lt x l) as [r'|]; simpl in H; try discriminate.
      injection H as <-.
      eapply perm_trans; [apply perm_swap|]. apply perm_skip. now apply IH.
Qed.

Lemma sorted_perm l s : sorted lt l = Ok s -> Permutation l s.
Proof.
  revert s. induction l as [|x l IH] using rev_ind; intros s H.
  - injection H as <-. constructor.
  - rewrite sorted_snoc in H.
    destruct (sorted lt l) as [s'|]; simpl in H; try discriminate.
    apply insert_perm in H.
    eapply perm_trans; [apply Permutation_app_comm|]. simpl.
    eapply perm_trans; [|exact H]. apply perm_skip. now apply IH.
Qed.

(** The sort ends normally when all the comparisons do. *)
Lemma insert_ok x l :
  (forall y, In y l -> exists c, lt x y = Ok c) ->
  exists r, insert lt x l = Ok r.
Proof.
  induction l as [|y l IH]; intros H; simpl.
  - eauto.
  - destruct (H y) as [c Hc]; [now left|]. rewrite Hc. simpl.
    destruct c; [eexists; reflexivity|].
    destruct IH as [r Hr]; [intros; apply H; now right|].
    rewrite Hr. simpl. eauto.
Qed.

Lemma sorted_ok l :
  (forall x y, In x l -> In y l -> exists c, lt x y = Ok c) ->
  exists s, sorted lt l = Ok s.
Proof.
  induction l as [|x l IH] using rev_ind; intros H.
  - exists []. reflexivity.
  - rewrite sorted_snoc.
    destruct IH as [s Hs].
    { intros a b Ha Hb. apply H; apply in_or_app; now left. }
    rewrite Hs. simpl. apply insert_ok. intros y Hy.
    apply H; apply in_or_app.
    + right. now left.
    + left. eapply Permutation_in; [apply Permutation_sym, sorted_perm|]; eauto.
Qed.

(** The result is ordered by any relation [le] that the comparison
    respects on the elements that are sorted. *)
Variable le : A -> A -> Prop.
Variable dom : A -> Prop.
Hypothesis le_trans : forall x y z, dom x -> dom y -> dom z ->
  le x y -> le y z -> le x z.
Hypothesis lt_true : forall x y, dom x -> dom y -> lt x y = Ok true -> le x y.
Hypothesis lt_false : forall x y, dom x -> dom y -> lt x y = Ok false -> le y x.

Lemma insert_sorted x l r :
  dom x -> Forall dom l -> StronglySorted le l ->
  insert lt x l = Ok r -> StronglySorted le r.
Proof.
  intros Dx. revert r. induction l as [|y l IH]; intros r Dl Sl H; simpl in H.
  - injection H as <-. repeat constructor.
  - inversion Dl as [|? ? Dy Dl']; subst.
    inversion Sl as [|? ? Sl' Hy]; subst.
    destruct (lt x y) as [[|]|] eqn:E; simpl in H; try discriminate.
    + injection H as <-. constructor; [assumption|].
      constructor; [now apply lt_true|].
      rewrite Forall_forall in *. intros z Hz.
      apply (le_trans x y z); auto.
    + destruct (insert lt x l) as [r'|] eqn:E'; simpl in H; try discriminate.
      injection H as <-. constructor; [now apply IH|].
      rewrite Forall_forall in *. intros z Hz.
      apply insert_perm in E'.
      apply (Permutation_in _ (Permutation_sym E')) in Hz.
      destruct Hz as [<-|Hz]; auto.
Qed.

Lemma sorted_sorted l s :
  Forall dom l -> sorted lt l = Ok s -> StronglySorted le s.
Proof.
  revert s. induction l as [|x l IH] using rev_ind; intros s D H.
  - injection H as <-. constructor.
  - rewrite sorted_snoc in H.
    destruct (sorted lt l) as [s'|] eqn:E; simpl in H; try discriminate.
    apply Forall_app in D. destruct D as [Dl Dx].
    apply (insert_sorted x s'); auto.
    + now inversion Dx.
    + rewrite Forall_forall in *. intros z Hz. apply Dl.
      eapply Permutation_in; [apply Permutation_sym, sorted_perm|]; eauto.
Qed.
End SortFacts.

(** The sort only looks at the comparisons between the elements of the
    list. *)
Lemma insert_ext {A : Type} (lt lt' : A -> A -> result bool) x l :
  (forall y, In y l -> lt x y = lt' x y) -> insert lt x l = insert lt' x l.
Proof.
  induction l as [|y l IH]; intros H; simpl; auto.
  rewrite (H y) by now left. rewrite IH; auto. intros; apply H; now right.
Qed.

Lemma sorted_ext {A : Type} (lt lt' : A -> A -> result bool) l :
  (forall x y, In x l -> In y l -> lt x y = lt' x y) ->
  sorted lt l = sorted lt' l.
Proof.
  induction l as [|x l IH] using rev_ind; intros H; auto.
  rewrite !sorted_snoc. rewrite <- IH.
  - destruct (sorted lt l) as [s|] eqn:E; simpl; auto.
    apply insert_ext. intros y Hy. apply H; apply in_or_app.
    + right; now left.
    + left. eapply Permutation_in; [apply Permutation_sym; eapply sorted_perm; exact E|].
      assumption.
  - intros a b Ha Hb. apply H; apply in_or_app; now left.
Qed.

(** ** Stability: sorting by a numeric weight *)

Lemma filter_none {A : Type} (f : A -> bool) l :
  (forall z, In z l -> f z = false) -> filter f l = [].
Proof.
  induction l as [|y l IH]; intros H; auto.
  cbn [filter]. rewrite (H y) by now left. apply IH. intros; apply H; now right.
Qed.

Section StableSort.
Context {A : Type}.
Variable w : A -> PyNum.xval.

Lemma wle_trans x y z : (weight_le w) x y -> (weight_le w) y z -> (weight_le w) x z.
Proof. unfold weight_le. intros. eapply XOrder.xle_trans; eauto. Qed.

Lemma weight_sorted l s : sorted (weight_lt w) l = Ok s -> StronglySorted (weight_le w) s.
Proof.
  apply (sorted_sorted (weight_lt w) (weight_le w) (fun _ => True)).
  - intros x y z _ _ _. apply wle_trans.
  - intros x y _ _ H. injection H as H. now apply XOrder.xltb_asym.
  - intros x y _ _ H. injection H as H. exact H.
  - apply Forall_forall. auto.
Qed.

Lemma weight_sorted_ok l : exists s, sorted (weight_lt w) l = Ok s.
Proof. apply sorted_ok. intros. eexists. reflexivity. Qed.

Lemma cls_refl a : (same_weight w) a a = true.
Proof. apply XOrder.xeqb_refl. Qed.

Lemma cls_sym a b : (same_weight w) a b = (same_weight w) b a.
Proof. apply XOrder.xeqb_sym. Qed.

Lemma cls_ext a b x : (same_weight w) a b = true -> (same_weight w) a x = (same_weight w) b x.
Proof.
  unfold same_weight. intros H.
  rewrite !XOrder.xeqb_spec.
  rewrite (XOrder.xltb_eq_l _ _ _ H), (XOrder.xltb_eq_r _ _ _ H). reflexivity.
Qed.

Lemma cls_lt a x y :
  (same_weight w) a x = true -> PyNum.xltb (w x) (w y) = true -> (same_weight w) a y = false.
Proof.
  unfold same_weight. intros H L.
  rewrite XOrder.xeqb_spec, (XOrder.xltb_eq_l _ _ _ H), L. reflexivity.
Qed.

(** Inserting [x] puts it behind the elements of its weight. *)
Lemma insert_filter a x l r :
  StronglySorted (weight_le w) l -> insert (weight_lt w) x l = Ok r ->
  filter ((same_weight w) a) r = (filter ((same_weight w) a) l ++ (if (same_weight w) a x then [x] else []))%list.
Proof.
  revert r. induction l as [|y l IH]; intros r S H; simpl in H.
  - injection H as <-. reflexivity.
  - inversion S as [|? ? S' Hy]; subst.
    destruct (PyNum.xltb (w x) (w y)) eqn:E.
    + injection H as <-.
      destruct ((same_weight w) a x) eqn:C.
      * assert (N : filter ((same_weight w) a) (y :: l) = []).
        { apply filter_none. intros z Hz.
          apply (cls_lt a x z C).
          destruct Hz as [<-|Hz]; auto.
          rewrite Forall_forall in Hy. specialize (Hy z Hz).
          unfold weight_le in Hy.
          destruct (PyNum.xltb (w x) (w z)) eqn:F; auto.
          pose proof (XOrder.xle_trans _ _ _ Hy F). congruence. }
        cbn [filter]. rewrite C. cbn [filter] in N. rewrite N. reflexivity.
      * cbn [filter]. rewrite C. now rewrite app_nil_r.
    + destruct (insert (weight_lt w) x l) as [r'|] eqn:E'; simpl in H; try discriminate.
      injection H as <-. cbn [filter]. rewrite (IH r' S' eq_refl).
      destruct ((same_weight w) a y); reflexivity.
Qed.

Lemma sorted_filter a l s :
  sorted (weight_lt w) l = Ok s -> filter ((same_weight w) a) s = filter ((same_weight w) a) l.
Proof.
  revert s. induction l as [|x l IH] using rev_ind; intros s H.
  - injection H as <-. reflexivity.
  - rewrite sorted_snoc in H.
    destruct (sorted (weight_lt w) l) as [s'|] eqn:E; simpl in H; try discriminate.
    rewrite filter_app. cbn [filter].
    rewrite <- (IH s' eq_refl).
    apply insert_filter; auto. now apply (weight_sorted l).
Qed.

(** Two ordered lists with the same elements of each weight, in the
    same order, are equal. *)
Lemma sorted_unique l1 l2 :
  StronglySorted (weight_le w) l1 -> StronglySorted (weight_le w) l2 ->
  (forall a, filter ((same_weight w) a) l1 = filter ((same_weight w) a) l2) -> l1 = l2.
Proof.
  revert l2. induction l1 as [|x l1 IH]; intros l2 S1 S2 H.
  - destruct l2 as [|y l2]; auto.
    specialize (H y). cbn [filter] in H. rewrite cls_refl in H. discriminate.
  - destruct l2 as [|y l2].
    { specialize (H x). cbn [filter] in H. rewrite cls_refl in H. discriminate. }
    inversion S1 as [|? ? S1' H1]; subst. inversion S2 as [|? ? S2' H2]; subst.
    assert (C : (same_weight w) x y = true).
    { destruct ((same_weight w) x y) eqn:C; auto. exfalso.
      pose proof (H x) as Hx. cbn [filter] in Hx. rewrite cls_refl, C in Hx.
      assert (I1 : In x l2).
      { eapply (proj1 (filter_In ((same_weight w) x) x l2)). rewrite <- Hx. now left. }
      pose proof (H y) as Hyy. cbn [filter] in Hyy.
      rewrite cls_refl, (cls_sym y x), C in Hyy.
      assert (I2 : In y l1).
      { eapply (proj1 (filter_In ((same_weight w) y) y l1)). rewrite Hyy. now left. }
      rewrite Forall_forall in H1, H2.
      specialize (H1 y I2). specialize (H2 x I1).
      unfold weight_le in H1, H2. unfold same_weight in C.
      rewrite XOrder.xeqb_spec, H1, H2 in C. discriminate. }
    assert (x = y).
    { specialize (H x). cbn [filter] in H. rewrite cls_refl, C in H. congruence. }
    subst y. f_equal. apply IH; auto.
    intros a. specialize (H a). cbn [filter] in H.
    destruct ((same_weight w) a x); congruence.
Qed.

(** The result of the sort is fixed by the elements of each weight and
    their order. *)
Lemma sorted_stable_unique l1 l2 :
  (forall a, filter ((same_weight w) a) l1 = filter ((same_weight w) a) l2) ->
  sorted (weight_lt w) l1 = sorted (weight_lt w) l2.
Proof.
  intros H.
  destruct (weight_sorted_ok l1) as [s1 E1], (weight_sorted_ok l2) as [s2 E2].
  rewrite E1, E2. f_equal.
  apply sorted_unique; eauto using weight_sorted.
  intros a. rewrite (sorted_filter a l1 s1 E1), (sorted_filter a l2 s2 E2). auto.
Qed.
End StableSort.

(** ** What the handlers of the event loop do to the state *)

Lemma bind_ok {A B : Type} (c : result A) (k : A -> result B) b :
  bind c k = Ok b -> exists a, c = Ok a /\ k a = Ok b.
Proof. destruct c; simpl; intros H; [eauto | discriminate]. Qed.

Ltac bind_inv H :=
  let a := fresh "a" in
  let E := fresh "E" in
  apply bind_ok in H; destruct H as [a [E H]].

Lemma shock_channel_inv st k ts v st' :
  shock_channel st k ts v = Ok st' ->
  st' = st \/ exists x, st' = append_plot st k ts x.
Proof.
  unfold shock_channel. intros H. bind_inv H.
  destruct (truthy a); [destruct (truthy v)|]; injection H as <-; eauto.
Qed.

Lemma fire_channel_inv st k ts st' :
  fire_channel st k ts = Ok st' ->
  st' = st \/
  exists v1 t2 v2, st' = append_plot (append_plot st k ts v1) k t2 v2.
Proof.
  unfold fire_channel. intros H. bind_inv H.
  destruct (truthy a); [|injection H as <-; auto].
  destruct (truthy (shockMode (boost st))).
  - bind_inv H. bind_inv H. injection H as <-. eauto.
  - bind_inv H. bind_inv H. bind_inv H. bind_inv H. injection H as <-. eauto 6.
Qed.

Lemma generator_event_inv st k ts path v st' :
  generator_event st k ts path v = Ok st' ->
  st' = st \/ st' = set_base_intensity st k v \/
  st' = append_plot (set_base_intensity st k v) k ts v \/
  st' = append_mode st k ts v \/
  st' = append_adjust (set_adjust_value st k v) k ts v.
Proof.
  unfold generator_event. intros H. bind_inv H.
  destruct (py_eq a (JStr "intensity")).
  - bind_inv H. destruct (negb (truthy a0)); injection H as <-; auto.
  - destruct (py_eq a (JStr "mode")); [injection H as <-; auto|].
    destruct (py_eq a (JStr "adjust")); injection H as <-; auto 6.
Qed.

Lemma update_trans st1 st2 st3 : update st1 st2 -> update st2 st3 -> update st1 st3.
Proof.
  intros H1 H2. induction H2; auto; constructor; auto.
Qed.

Lemma shock_channel_update st k ts v st' :
  shock_channel st k ts v = Ok st' -> update st st'.
Proof.
  intros H. apply shock_channel_inv in H. destruct H as [-> | [x ->]];
    repeat constructor.
Qed.

Lemma fire_channel_update st k ts st' :
  fire_channel st k ts = Ok st' -> update st st'.
Proof.
  intros H. apply fire_channel_inv in H.
  destruct H as [-> | [v1 [t2 [v2 ->]]]]; repeat constructor.
Qed.

Lemma generator_event_update st k ts path v st' :
  generator_event st k ts path v = Ok st' -> update st st'.
Proof.
  intros H. apply generator_event_inv in H.
  destruct H as [-> | [-> | [-> | [-> | ->]]]]; repeat constructor.
Qed.

Lemma boost_event_update st cur ts path v ty st' cur' :
  boost_event st cur ts path v ty = Ok (st', cur') -> update st st'.
Proof.
  unfold boost_event. intros H. bind_inv H.
  destruct (py_eq a (JStr "channels")).
  { bind_inv H. injection H as <- <-. repeat constructor. }
  bind_inv H. destruct a0.
  - destruct (py_eq a (JStr "shockMode") && _).
    + bind_inv H. bind_inv H. injection H as <- <-.
      eapply update_trans; [|eapply shock_channel_update; eauto].
      eapply update_trans; [|eapply shock_channel_update; eauto].
      repeat constructor.
    + injection H as <- <-. repeat constructor.
  - destruct (py_eq a (JStr "fire") && _).
    + bind_inv H. bind_inv H. injection H as <- <-.
      eapply update_trans; [|eapply fire_channel_update; eauto].
      eapply update_trans; [|eapply fire_channel_update; eauto].
      repeat constructor.
    + injection H as <- <-. constructor.
Qed.

Lemma step_update st cur event st' cur' :
  step (st, cur) event = Ok (st', cur') -> update st st'.
Proof.
  unfold step. intros H. do 4 bind_inv H.
  destruct (is_none a || negb (truthy a0)); [injection H as <- <-; constructor|].
  bind_inv H.
  destruct (py_eq a3 (JStr "boost")); [eapply boost_event_update; eauto|].
  destruct (py_eq a3 (JStr "generator1") || py_eq a3 (JStr "generator2")).
  - bind_inv H. injection H as <- <-. eapply generator_event_update; eauto.
  - injection H as <- <-. constructor.
Qed.

Lemma run_events_update events : forall st cur st' cur',
  run_events (st, cur) events = Ok (st', cur') -> update st st'.
Proof.
  induction events as [|e events IH]; intros st cur st' cur' H; simpl in H.
  - injection H as <- <-. constructor.
  - bind_inv H. destruct a as [st1 cur1].
    eapply update_trans; [eapply step_update; eauto | eapply IH; eauto].
Qed.

(** An update only ever adds to the series, the timelines and the
    markers. *)
Lemma update_grows st st' :
  update st st' ->
  (forall k, exists l, value (plot_data (get_gen st' k)) =
                       (value (plot_data (get_gen st k)) ++ l)%list) /\
  (exists l, fire_events st' = (fire_events st ++ l)%list).
Proof.
  induction 1 as [st|st st' k t v _ [IH1 IH2]|st st' k t v _ [IH1 IH2]
                 |st st' k v _ [IH1 IH2]|st st' k v _ [IH1 IH2]
                 |st st' k t m _ [IH1 IH2]|st st' t c _ [IH1 IH2]
                 |st st' b _ [IH1 IH2]].
  - split; [intros k|]; exists []; now rewrite app_nil_r.
  - split; [|destruct k; exact IH2].
    intros k'. destruct (IH1 k') as [l Hl].
    destruct k, k'; simpl in *; rewrite Hl; rewrite <- ?app_assoc; eauto.
  - split; [|destruct k; exact IH2].
    intros k'. destruct (IH1 k') as [l Hl]. exists l.
    destruct k, k'; simpl in *; exact Hl.
  - split; [|destruct k; exact IH2].
    intros k'. destruct (IH1 k') as [l Hl]. exists l.
    destruct k, k'; simpl in *; exact Hl.
  - split; [|destruct k; exact IH2].
    intros k'. destruct (IH1 k') as [l Hl]. exists l.
    destruct k, k'; simpl in *; exact Hl.
  - split; [|destruct k; exact IH2].
    intros k'. destruct (IH1 k') as [l Hl]. exists l.
    destruct k, k'; simpl in *; exact Hl.
  - split.
    + intros k'. destruct (IH1 k') as [l Hl]. exists l.
      destruct k'; simpl in *; exact Hl.
    + destruct IH2 as [l Hl]. simpl. rewrite Hl, <- app_assoc. eauto.
  - split.
    + intros k'. destruct (IH1 k') as [l Hl]. exists l.
      destruct k'; simpl in *; exact Hl.
    + exact IH2.
Qed.

Lemma get_gen_append_plot st k k' t v :
  get_gen (append_plot st k t v) k' =
  if match k, k' with G1, G1 | G2, G2 => true | _, _ => false end
  then mkGenerator (base_intensity (get_gen st k))
         (append_sample (plot_data (get_gen st k)) t v)
         (adjust_value (get_gen st k)) (adjust_plot_data (get_gen st k))
  else get_gen st k'.
Proof. destruct k, k'; reflexivity. Qed.

Lemma boost_append_plot st k t v : boost (append_plot st k t v) = boost st.
Proof. destruct k; reflexivity. Qed.

Lemma fire_events_append_plot st k t v :
  fire_events (append_plot st k t v) = fire_events st.
Proof. destruct k; reflexivity. Qed.

Lemma shock_channel_boost st k ts v st' :
  shock_channel st k ts v = Ok st' ->
  boost st' = boost st /\ fire_events st' = fire_events st.
Proof.
  intros H. apply shock_channel_inv in H. destruct H as [-> | [x ->]]; auto.
  now rewrite boost_append_plot, fire_events_append_plot.
Qed.

Lemma fire_channel_boost st k ts st' :
  fire_channel st k ts = Ok st' ->
  boost st' = boost st /\ fire_events st' = fire_events st.
Proof.
  intros H. apply fire_channel_inv in H.
  destruct H as [-> | [v1 [t2 [v2 ->]]]]; auto.
  now rewrite !boost_append_plot, !fire_events_append_plot.
Qed.

Lemma generator_event_boost st k ts path v st' :
  generator_event st k ts path v = Ok st' ->
  boost st' = boost st /\ fire_events st' = fire_events st.
Proof.
  intros H. apply generator_event_inv in H.
  destruct H as [-> | [-> | [-> | [-> | ->]]]]; destruct k; auto.
Qed.

(** ** Shock suppression *)

(** C3: an intensity update that reaches a channel selected by the mask
    while shock mode is active appends no sample to the series of that
    channel, and still records the commanded value as its base
    intensity. *)
Theorem intensity_suppressed_in_shock :
  forall st cur m ts v k rest c,
    lookup "ts" m = Some ts -> is_none ts = false ->
    lookup "path" m = Some (JArr (JStr (gen_name k) :: JStr "intensity" :: rest)) ->
    lookup "value" m = Some v ->
    truthy (shockMode (boost st)) = true ->
    getitem_int (channels (boost st)) (gen_index k) = Ok c -> truthy c = true ->
    exists st',
      step (st, cur) (JObj m) = Ok (st', cur) /\
      plot_data (get_gen st' k) = plot_data (get_gen st k) /\
      base_intensity (get_gen st' k) = v.
Proof.
  intros st cur m ts v k rest c Hts Hn Hp Hv Hs Hc Ht.
  exists (set_base_intensity st k v).
  unfold step. cbn [py_get bind]. rewrite Hts, Hp, Hv, Hn.
  cbn [truthy negb orb getitem_int nth_index].
  assert (B : boost (set_base_intensity st k v) = boost st)
    by (destruct k; reflexivity).
  destruct k; cbn [gen_name py_eq String.eqb Ascii.eqb Bool.eqb orb bind];
    unfold generator_event; cbn [getitem_int nth_index Z.ltb Z.compare
      List.length Z.to_nat Pos.to_nat Pos.iter_op Nat.add nth_error bind
      py_eq String.eqb Ascii.eqb Bool.eqb];
    rewrite B, Hs, Hc; cbn [bind]; rewrite Ht; cbn [negb]; auto.
Qed.

Lemma intensity_suppressed_in_shock_witness :
  let st := mkState (mkGenerator (JInt 30) (mkPlot [JInt 0] [JInt 30]) (JInt 50)
                       (mkPlot [JInt 0] [JInt 50]))
              (mkGenerator (JInt 0) (mkPlot [JInt 0] [JInt 0]) (JInt 50)
                       (mkPlot [JInt 0] [JInt 50]))
              (mkBoost (JBool true) (JArr [JBool true; JBool false])
                 (JFloat float_0_1) (JInt 0))
              [] [] [] in
  exists st',
    step (st, [JBool true; JBool false])
      (mk_event (JInt 700) "generator1" "intensity" (JInt 80) "state")
    = Ok (st', [JBool true; JBool false]) /\
    plot_data (g1 st') = mkPlot [JInt 0] [JInt 30] /\
    base_intensity (g1 st') = JInt 80.
Proof.
  intros st.
  apply (intensity_suppressed_in_shock st [JBool true; JBool false]
           [("ts", JInt 700);
            ("path", JArr [JStr "generator1"; JStr "intensity"]);
            ("value", JInt 80); ("type", JStr "state")]
           (JInt 700) (JInt 80) G1 [] (JBool true));
    reflexivity.
Defined.

(** ** Markers *)

Lemma set_boost_field_channels b k v :
  String.eqb k "channels" = false ->
  channels (set_boost_field b k v) = channels b.
Proof.
  intros H. unfold set_boost_field. rewrite H.
  destruct (String.eqb k "shockMode"); auto.
  destruct (String.eqb k "duration"); auto.
  destruct (String.eqb k "offset"); auto.
Qed.

(** [current_boost_channels] is [list(state['boost']['channels'])] at
    the start of every iteration. *)
Lemma step_tracks_mask st cur event st' cur' :
  step (st, cur) event = Ok (st', cur') ->
  py_iter (channels (boost st)) = Ok cur ->
  py_iter (channels (boost st')) = Ok cur'.
Proof.
  unfold step. intros H I. do 4 bind_inv H.
  destruct (is_none a || negb (truthy a0)); [injection H as <- <-; auto|].
  bind_inv H.
  destruct (py_eq a3 (JStr "boost")).
  - unfold boost_event in H. bind_inv H.
    destruct (py_eq a4 (JStr "channels")) eqn:C.
    { bind_inv H. injection H as <- <-. exact E5. }
    bind_inv H. destruct a5.
    + destruct (py_eq a4 (JStr "shockMode") && _).
      * bind_inv H. bind_inv H. injection H as <- <-.
        apply shock_channel_boost in E6, E7.
        destruct E6 as [E6 _], E7 as [E7 _]. rewrite E7, E6. exact I.
      * injection H as <- <-. cbn [boost set_boost].
        rewrite set_boost_field_channels; auto.
        destruct a4; try discriminate. exact C.
    + destruct (py_eq a4 (JStr "fire") && _).
      * bind_inv H. bind_inv H. injection H as <- <-.
        apply fire_channel_boost in E6, E7.
        destruct E6 as [E6 _], E7 as [E7 _]. rewrite E7, E6. exact I.
      * injection H as <- <-. exact I.
  - destruct (py_eq a3 (JStr "generator1") || py_eq a3 (JStr "generator2")).
    + bind_inv H. injection H as <- <-.
      apply generator_event_boost in E4. destruct E4 as [E4 _]. now rewrite E4.
    + injection H as <- <-. exact I.
Qed.

Lemma run_events_tracks_mask events : forall st cur st' cur',
  run_events (st, cur) events = Ok (st', cur') ->
  py_iter (channels (boost st)) = Ok cur ->
  py_iter (channels (boost st')) = Ok cur'.
Proof.
  induction events as [|e events IH]; intros st cur st' cur' H I; simpl in H.
  - injection H as <- <-. exact I.
  - bind_inv H. destruct a as [st1 cur1].
    eapply IH; eauto. eapply step_tracks_mask; eauto.
Qed.

(** C4: the marker of a fire event at time [ts] is [(ts, m)] with [m] a
    copy of the channel mask as it stood before the event, and the
    events that follow leave the recorded marker as it is.  No statement
    of the source changes a mask list in place, so the copy is the list
    of the items of the mask. *)
Theorem marker_is_mask_snapshot :
  forall data st0 cur0 before m ts rest st1 cur1 st2 cur2 after st3 cur3,
    initial_state data = Ok st0 ->
    py_iter (channels (boost st0)) = Ok cur0 ->
    run_events (st0, cur0) before = Ok (st1, cur1) ->
    lookup "ts" m = Some ts -> is_none ts = false ->
    lookup "path" m = Some (JArr (JStr "boost" :: JStr "fire" :: rest)) ->
    lookup "type" m = Some (JStr "action") ->
    step (st1, cur1) (JObj m) = Ok (st2, cur2) ->
    run_events (st2, cur2) after = Ok (st3, cur3) ->
    py_iter (channels (boost st1)) = Ok cur1 /\
    fire_events st2 = (fire_events st1 ++ [mkFire ts cur1])%list /\
    exists later,
      fire_events st3 = (fire_events st1 ++ mkFire ts cur1 :: later)%list.
Proof.
  intros data st0 cur0 before m ts rest st1 cur1 st2 cur2 after st3 cur3
    _ I0 R1 Hts Hn Hp Hty S R2.
  assert (I1 := run_events_tracks_mask _ _ _ _ _ R1 I0).
  assert (F : fire_events st2 = (fire_events st1 ++ [mkFire ts cur1])%list).
  { assert (S' : step (st1, cur1) (JObj m) =
                  (st <- fire_channel (append_fire st1 ts cur1) G1 ts ;;
                   st <- fire_channel st G2 ts ;; Ok (st, cur1))).
    { unfold step. cbn [py_get bind]. rewrite Hts, Hp, Hty, Hn. reflexivity. }
    rewrite S' in S. bind_inv S. bind_inv S. injection S as <- <-.
    apply fire_channel_boost in E, E0.
    destruct E as [_ E], E0 as [_ E0]. rewrite E0, E. reflexivity. }
  split; [exact I1|]. split; [exact F|].
  apply run_events_update, update_grows in R2. destruct R2 as [_ [l Hl]].
  exists l. rewrite Hl, F, <- app_assoc. reflexivity.
Qed.

Lemma marker_is_mask_snapshot_witness :
  let data := JObj [("initialContext",
                     JObj [("boost", JObj [("channels", JArr [JBool true; JBool false])])])] in
  let fire := mk_event (JInt 20) "boost" "fire" JNull "action" in
  let before := [mk_event (JInt 10) "boost" "channels" (JArr [JBool false; JBool true]) "state"] in
  let after := [mk_event (JInt 30) "boost" "channels" (JArr [JBool true; JBool true]) "state"] in
  exists st0 st1 st2 st3 cur3,
    initial_state data = Ok st0 /\
    run_events (st0, [JBool true; JBool false]) before = Ok (st1, [JBool false; JBool true]) /\
    step (st1, [JBool false; JBool true]) fire = Ok (st2, [JBool false; JBool true]) /\
    run_events (st2, [JBool false; JBool true]) after = Ok (st3, cur3) /\
    fire_events st2 = [mkFire (JInt 20) [JBool false; JBool true]] /\
    exists later,
      fire_events st3 = mkFire (JInt 20) [JBool false; JBool true] :: later.
Proof.
  intros data fire before after.
  destruct (initial_state data) as [st0|] eqn:E0; [|discriminate E0].
  destruct (run_events (st0, [JBool true; JBool false]) before)
    as [[st1 cur1]|] eqn:E1;
    [|injection E0 as <-; discriminate E1].
  assert (C1 : cur1 = [JBool false; JBool true]).
  { injection E0 as <-. vm_compute in E1. now injection E1. }
  subst cur1.
  destruct (step (st1, [JBool false; JBool true]) fire) as [[st2 cur2]|] eqn:E2;
    [|injection E0 as <-; vm_compute in E1; injection E1 as <-; discriminate E2].
  assert (C2 : cur2 = [JBool false; JBool true]).
  { injection E0 as <-. vm_compute in E1. injection E1 as <-.
    vm_compute in E2. now injection E2. }
  subst cur2.
  destruct (run_events (st2, [JBool false; JBool true]) after)
    as [[st3 cur3]|] eqn:E3;
    [|injection E0 as <-; vm_compute in E1; injection E1 as <-;
      vm_compute in E2; injection E2 as <-; discriminate E3].
  assert (F1 : fire_events st1 = []).
  { injection E0 as <-. vm_compute in E1. now injection E1 as <-. }
  pose proof (marker_is_mask_snapshot data st0 [JBool true; JBool false] before
                [("ts", JInt 20); ("path", JArr [JStr "boost"; JStr "fire"]);
                 ("value", JNull); ("type", JStr "action")]
                (JInt 20) [] st1 _ st2 _ after st3 cur3 E0
                ltac:(injection E0 as <-; reflexivity)
                E1 eq_refl eq_refl eq_refl eq_refl E2 E3) as [_ [A [later B]]].
  rewrite F1 in A, B.
  exists st0, st1, st2, st3, cur3. repeat split; auto. exists later. exact B.
Defined.

(** ** The series are never empty *)

Lemma py_last_snoc (l : list json) x : py_last (l ++ [x]) = Ok x.
Proof.
  unfold py_last, nth_index. cbn [Z.ltb Z.compare].
  rewrite length_app. cbn [List.length].
  replace (-1 + Z.of_nat (List.length l + 1)) with (Z.of_nat (List.length l)) by lia.
  destruct (Z.of_nat (List.length l) <? 0) eqn:E; [apply Z.ltb_lt in E; lia|].
  rewrite Nat2Z.id, nth_error_app2, Nat.sub_diag by lia. reflexivity.
Qed.

Lemma py_last_nonempty (l : list json) : l <> [] -> exists v, py_last l = Ok v.
Proof.
  intros H. destruct (exists_last H) as [l' [x ->]].
  exists x. apply py_last_snoc.
Qed.

Lemma initial_state_nonempty data st :
  initial_state data = Ok st -> series_nonempty st.
Proof.
  unfold initial_state. intros H. do 7 bind_inv H. do 4 bind_inv H.
  injection H as <-. intros k.
  destruct (truthy a8), (truthy a9), k; discriminate.
Qed.

Lemma update_nonempty st st' :
  update st st' -> series_nonempty st -> series_nonempty st'.
Proof.
  intros U N k. destruct (update_grows _ _ U) as [G _].
  destruct (G k) as [l Hl]. rewrite Hl. intros F.
  apply app_eq_nil in F. destruct F as [F _]. exact (N k F).
Qed.

(** C10: from the seeding of the state onwards, and whatever the event
    loop has appended or assigned since, the series of each channel
    holds a sample, so that reading its last value (index [-1]) is in
    bounds.  [st'] ranges over the states between two events and over
    those inside a handler. *)
Theorem series_never_empty :
  forall data st0 cur0 events st cur st' k,
    initial_state data = Ok st0 ->
    run_events (st0, cur0) events = Ok (st, cur) ->
    update st st' ->
    value (plot_data (get_gen st' k)) <> [] /\
    exists v, py_last (value (plot_data (get_gen st' k))) = Ok v.
Proof.
  intros data st0 cur0 events st cur st' k I R U.
  assert (N : series_nonempty st').
  { eapply update_nonempty; [exact U|].
    eapply update_nonempty; [eapply run_events_update; exact R|].
    eapply initial_state_nonempty; exact I. }
  split; [apply N | apply py_last_nonempty, N].
Qed.

Lemma series_never_empty_witness :
  let data := JObj [("initialContext", JObj [("generator1", JObj [("intensity", JInt 40)])])] in
  let events := [mk_event (JInt 5) "generator1" "intensity" (JInt 60) "state"] in
  exists st0 st,
    initial_state data = Ok st0 /\
    run_events (st0, [JBool false; JBool false]) events = Ok (st, [JBool false; JBool false]) /\
    py_last (value (plot_data (g1 st))) = Ok (JInt 60).
Proof.
  intros data events.
  destruct (initial_state data) as [st0|] eqn:E0; [|discriminate E0].
  destruct (run_events (st0, [JBool false; JBool false]) events)
    as [[st cur]|] eqn:E1; [|injection E0 as <-; discriminate E1].
  destruct (series_never_empty data st0 _ events st cur st G1 E0 E1
              (update_refl st)) as [_ [v Hv]].
  exists st0, st. split; [reflexivity|].
  injection E0 as <-. vm_compute in E1. injection E1 as <- <-.
  split; reflexivity.
Defined.

(** ** The initial mode *)

(** C9, at an initial context whose [generator1.mode] is the mode id
    [0]: the field is present, and the timeline of the channel starts
    empty, because the test on line 96 is the truth value of the mode
    and not its presence.  A mode id [3] on the other channel gets its
    entry at time 0. *)
Theorem initial_mode_zero_has_no_entry :
  exists st,
    process_stimulation_data
      (JObj [("initialContext",
              JObj [("generator1", JObj [("mode", JInt 0)]);
                    ("generator2", JObj [("mode", JInt 3)])])]) = Ok st /\
    modes_g1 st = [] /\
    modes_g2 st = [mkMode (JInt 0) (JInt 3)].
Proof. eexists. split; [vm_compute; reflexivity|]. split; reflexivity. Qed.

(** The entry of the initial mode in general: present exactly when the
    value of the field is true in the sense of [bool()]. *)
Lemma initial_mode_entry ctx gen1 data st :
  py_get data "initialContext" (JObj []) = Ok ctx ->
  py_get ctx "generator1" (JObj []) = Ok gen1 ->
  initial_state data = Ok st ->
  exists md, py_get gen1 "mode" JNull = Ok md /\
    modes_g1 st = if truthy md then [mkMode (JInt 0) md] else [].
Proof.
  intros C G. unfold initial_state. rewrite C. cbn [bind]. rewrite G. cbn [bind].
  intros H. do 5 bind_inv H. do 4 bind_inv H. injection H as <-.
  exists a6. split; auto.
  destruct (truthy a6), (truthy a7); reflexivity.
Qed.

(** ** The end of the session *)

Lemma Qcompare_inject_Z a b : Qcompare (inject_Z a) (inject_Z b) = Z.compare a b.
Proof. unfold Qcompare. simpl. now rewrite !Z.mul_1_r. Qed.

Lemma py_max_int a b : py_max (JInt a) (JInt b) = Ok (JInt (Z.max a b)).
Proof.
  unfold py_max, py_gt. cbn [py_lt as_num]. unfold num_lt.
  cbn [num_val PyNum.xltb bind]. rewrite Qcompare_inject_Z.
  unfold Z.max. rewrite (Z.compare_antisym b a).
  destruct (b ?= a); reflexivity.
Qed.

Lemma py_max_list_int tss t :
  fold_left (fun acc y => m <- acc ;; py_max m y) (map JInt tss) (Ok (JInt t))
  = Ok (JInt (fold_left Z.max tss t)).
Proof.
  revert t. induction tss as [|u tss IH]; intros t; simpl; auto.
  rewrite py_max_int. apply IH.
Qed.

Lemma fold_max_ge tss : forall t, t <= fold_left Z.max tss t /\
  forall u, In u tss -> u <= fold_left Z.max tss t.
Proof.
  induction tss as [|v tss IH]; intros t; simpl.
  - split; [lia | tauto].
  - destruct (IH (Z.max t v)) as [A B]. split; [lia|].
    intros u [<-|H]; [lia | auto].
Qed.

(** C6 (counterexample): with a declared duration of [-5] and a single
    event at [-3] the session ends at [-3], which is not
    [max(-5, -3, 0)]. *)
Lemma session_end_negative :
  session_end (JObj [("metadata", JObj [("duration", JInt (-5))]);
                     ("data", JArr [JObj [("ts", JInt (-3))]])])
  = Ok (JInt (-3)) /\
  JInt (-3) <> JInt (Z.max (Z.max (-5) (-3)) 0).
Proof. split; [vm_compute; reflexivity | discriminate]. Qed.

(** C6 (amended): the session ends at the greater of the declared
    duration ([0] when the metadata has none) and the greatest event
    timestamp ([0] for an event without timestamp, and [0] when there is
    no event).  The result is negative only when a negative duration is
    declared and all the events, at least one, have negative
    timestamps. *)
Theorem session_end_is_max :
  forall m events tss d,
    (lookup "data" m = Some (JArr events) \/
     (lookup "data" m = None /\ events = [])) ->
    mapM event_key events = Ok (map JInt tss) ->
    py_get (match lookup "metadata" m with Some md => md | None => JObj [] end)
      "duration" (JInt 0) = Ok (JInt d) ->
    session_end (JObj m) = Ok (JInt (Z.max d (max_ts tss))) /\
    ((tss = [] \/ 0 <= d \/ exists t, In t tss /\ 0 <= t) ->
     0 <= Z.max d (max_ts tss)).
Proof.
  intros m events tss d Hd Hk Hm. split.
  - unfold session_end. cbn [py_get bind]. rewrite Hm. cbn [bind].
    destruct Hd as [Hd|[Hd ->]]; rewrite Hd.
    + destruct events as [|e events].
      * destruct tss; [|discriminate]. cbn [truthy bind]. apply py_max_int.
      * cbn [truthy bind getitem_str]. rewrite Hd. cbn [bind py_iter].
        rewrite Hk. cbn [bind].
        destruct tss as [|t tss]; [simpl in Hk; do 2 bind_inv Hk; discriminate|].
        cbn [map py_max_list]. rewrite py_max_list_int. cbn [bind max_ts].
        apply py_max_int.
    + destruct tss; [|discriminate]. cbn [truthy bind]. apply py_max_int.
  - intros [->|[H|[t [I H]]]]; cbn [max_ts]; try lia.
    destruct tss as [|u tss]; [destruct I|]. cbn [max_ts].
    destruct (fold_max_ge tss u) as [A B].
    destruct I as [<-|I]; [lia|]. specialize (B t I). lia.
Qed.

Lemma session_end_is_max_witness :
  session_end (JObj [("metadata", JObj [("duration", JInt 5000)]);
                     ("data", JArr [JObj [("ts", JInt 7000)]; JObj [("ts", JInt 10)]])])
  = Ok (JInt 7000).
Proof.
  apply (session_end_is_max
           [("metadata", JObj [("duration", JInt 5000)]);
            ("data", JArr [JObj [("ts", JInt 7000)]; JObj [("ts", JInt 10)]])]
           [JObj [("ts", JInt 7000)]; JObj [("ts", JInt 10)]] [7000; 10] 5000);
    [left; reflexivity | reflexivity | reflexivity].
Defined.

(** ** The command line *)

(** C8, on a missing input file and on malformed JSON: one line is
    printed and no image is written, but the call returns normally and
    the program exits with status 0; only the usage error on line 331
    exits with status 1. *)
Theorem input_error_exits_with_status_zero :
  forall draw savefig prog f out rest msg,
    main draw savefig (prog :: f :: out :: rest) FileNotFound =
      mkOutcome ["Error: The file '" ++ f ++ "' was not found."] None 0 /\
    main draw savefig (prog :: f :: out :: rest) (DecodeError msg) =
      mkOutcome ["Error decoding JSON from the file: " ++ msg] None 0 /\
    exit_status (main draw savefig [prog; f] FileNotFound) = 1.
Proof. intros. repeat split. Qed.

(** An exception raised by the engine is not caught: the run ends with
    a traceback and status 1, without output. *)
Lemma engine_error_is_fatal draw savefig prog f out data e :
  process_stimulation_data data = Raise e ->
  main draw savefig [prog; f; out] (Loaded data) = mkOutcome [] None 1.
Proof. intros H. unfold main, plot_stimulation_data. now rewrite H. Qed.

(** ** Equal timestamps in the finalised series *)

(** C1, at two intensity updates of one channel with the same
    timestamp, 60 then 40: dispatch appends [(1000, 60)] before
    [(1000, 40)], a stable sort by timestamp keeps them so, and
    finalisation returns [(1000, 40)] before [(1000, 60)], because line
    202 sorts the pairs and so orders equal timestamps by value. *)
Theorem finalize_orders_ties_by_value :
  let data :=
    JObj [("data",
           JArr [mk_event (JInt 1000) "generator1" "intensity" (JInt 60) "state";
                 mk_event (JInt 1000) "generator1" "intensity" (JInt 40) "state"])] in
  let appended := [(JInt 0, JInt 0); (JInt 1000, JInt 60); (JInt 1000, JInt 40)] in
  (exists st cur, dispatch data = Ok (st, cur) /\
                  samples (plot_data (g1 st)) = appended) /\
  stable_sort_by_time appended = Ok appended /\
  exists st, process_stimulation_data data = Ok st /\
    samples (plot_data (g1 st)) =
      [(JInt 0, JInt 0); (JInt 1000, JInt 40); (JInt 1000, JInt 60)].
Proof.
  intros data appended. split; [|split].
  - eexists; eexists. split; [vm_compute; reflexivity | reflexivity].
  - vm_compute. reflexivity.
  - eexists. split; [vm_compute; reflexivity | reflexivity].
Qed.

(** ** Determinism of the replay *)

Section FirstMax.
Context {A : Type}.
Variable w : A -> PyNum.xval.

Lemma first_max_snoc x l y :
  first_max w x (l ++ [y]) =
  if PyNum.xltb (w (first_max w x l)) (w y) then y else first_max w x l.
Proof. unfold first_max. rewrite fold_left_app. reflexivity. Qed.

(** [first_max] is in the list, no element outweighs it, and it is the
    first of its weight. *)
Lemma first_max_spec x l :
  let m := first_max w x l in
  In m (x :: l) /\
  (forall z, In z (x :: l) -> PyNum.xltb (w m) (w z) = false) /\
  exists r, filter (same_weight w m) (x :: l) = m :: r.
Proof.
  induction l as [|y l IH] using rev_ind.
  - cbn. split; [auto|]. split.
    + intros z [<-|[]]. apply XOrder.xltb_irrefl.
    + unfold same_weight. rewrite XOrder.xeqb_refl. eauto.
  - cbn zeta in *. rewrite first_max_snoc.
    destruct IH as [I [M [r F]]].
    set (m := first_max w x l) in *.
    destruct (PyNum.xltb (w m) (w y)) eqn:L.
    + split; [right; apply in_or_app; right; now left|]. split.
      * intros z Hz. change (x :: l ++ [y])%list with ((x :: l) ++ [y])%list in Hz.
        apply in_app_or in Hz. destruct Hz as [Hz|[<-|[]]].
        -- specialize (M z Hz).
           destruct (PyNum.xltb (w y) (w z)) eqn:G; auto.
           pose proof (XOrder.xltb_trans _ _ _ L G). congruence.
        -- apply XOrder.xltb_irrefl.
      * change (x :: l ++ [y])%list with ((x :: l) ++ [y])%list.
        rewrite filter_app.
        rewrite (filter_none _ (x :: l));
          [cbn [filter app]; rewrite cls_refl; exists []; reflexivity|].
        intros z Hz. unfold same_weight. rewrite XOrder.xeqb_spec.
        specialize (M z Hz).
        destruct (PyNum.xltb (w z) (w y)) eqn:G;
          [now rewrite andb_false_r|].
        pose proof (XOrder.xle_trans _ _ _ G M). congruence.
    + split; [change (x :: l ++ [y])%list with ((x :: l) ++ [y])%list;
              apply in_or_app; now left|]. split.
      * intros z Hz. change (x :: l ++ [y])%list with ((x :: l) ++ [y])%list in Hz.
        apply in_app_or in Hz. destruct Hz as [Hz|[<-|[]]]; auto.
      * change (x :: l ++ [y])%list with ((x :: l) ++ [y])%list.
        rewrite filter_app, F. eexists. reflexivity.
Qed.

Lemma first_max_stable x1 l1 x2 l2 :
  (forall a, filter (same_weight w a) (x1 :: l1) = filter (same_weight w a) (x2 :: l2)) ->
  first_max w x1 l1 = first_max w x2 l2.
Proof.
  intros H.
  destruct (first_max_spec x1 l1) as [I1 [M1 [r1 F1]]].
  destruct (first_max_spec x2 l2) as [I2 [M2 [r2 F2]]].
  set (m1 := first_max w x1 l1) in *. set (m2 := first_max w x2 l2) in *.
  assert (J1 : In m1 (x2 :: l2)).
  { apply (proj1 (filter_In (same_weight w m1) m1 (x2 :: l2))).
    rewrite <- H, F1. now left. }
  assert (J2 : In m2 (x1 :: l1)).
  { apply (proj1 (filter_In (same_weight w m2) m2 (x1 :: l1))).
    rewrite H, F2. now left. }
  assert (C : same_weight w m1 m2 = true).
  { unfold same_weight. rewrite XOrder.xeqb_spec, (M1 m2 J2), (M2 m1 J1).
    reflexivity. }
  assert (F : filter (same_weight w m1) (x2 :: l2) = filter (same_weight w m2) (x2 :: l2)).
  { apply filter_ext. intros z. now apply cls_ext. }
  rewrite <- H, F1, F2 in F. congruence.
Qed.
End FirstMax.

Lemma real_weight j : is_real j = true -> jval j = Some (jweight j).
Proof.
  intros H. apply is_real_jval in H. destruct H as [x H].
  unfold jweight. now rewrite H.
Qed.

Lemma py_lt_weight a b :
  is_real a = true -> is_real b = true ->
  py_lt a b = Ok (PyNum.xltb (jweight a) (jweight b)).
Proof. intros A B. apply py_lt_real; now apply real_weight. Qed.

Lemma py_eq_weight a b :
  is_real a = true -> is_real b = true ->
  py_eq a b = PyNum.xeqb (jweight a) (jweight b).
Proof. intros A B. apply py_eq_real; now apply real_weight. Qed.

Lemma filter_map_comm {A B : Type} (f : A -> B) (p : B -> bool) l :
  filter p (map f l) = map f (filter (fun x => p (f x)) l).
Proof.
  induction l as [|x l IH]; simpl; auto.
  destruct (p (f x)); simpl; now rewrite IH.
Qed.

Lemma has_real_key_of e :
  has_real_key e = true -> event_key e = Ok (key_of e) /\ is_real (key_of e) = true.
Proof.
  unfold has_real_key, key_of. destruct (event_key e); [auto | discriminate].
Qed.

Lemma mapM_keyed events :
  forallb has_real_key events = true ->
  mapM (fun x => k <- event_key x ;; Ok (k, x)) events
  = Ok (map (fun x => (key_of x, x)) events).
Proof.
  induction events as [|e events IH]; simpl; auto.
  intros H. apply andb_true_iff in H. destruct H as [H1 H2].
  destruct (has_real_key_of e H1) as [-> _]. simpl. now rewrite IH.
Qed.

Lemma mapM_keys events :
  forallb has_real_key events = true ->
  mapM event_key events = Ok (map key_of events).
Proof.
  induction events as [|e events IH]; simpl; auto.
  intros H. apply andb_true_iff in H. destruct H as [H1 H2].
  destruct (has_real_key_of e H1) as [-> _]. simpl. now rewrite IH.
Qed.

(** An event whose timestamp has a given weight. *)
Lemma same_ts_class (a : json) events :
  forallb has_real_key events = true ->
  exists e, forall x, In x events ->
    same_ts e x = PyNum.xeqb (jweight a) (jweight (key_of x)).
Proof.
  intros H. rewrite forallb_forall in H.
  destruct (is_real a) eqn:R.
  - exists (JObj [("ts", a)]). intros x Hx.
    destruct (has_real_key_of x (H x Hx)) as [K Rx].
    unfold same_ts. rewrite K. cbn [event_key py_get lookup String.eqb Ascii.eqb Bool.eqb].
    now apply py_eq_weight.
  - exists (JObj [("ts", JInt 0)]). intros x Hx.
    destruct (has_real_key_of x (H x Hx)) as [K Rx].
    unfold same_ts. rewrite K. cbn [event_key py_get lookup String.eqb Ascii.eqb Bool.eqb].
    rewrite py_eq_weight by auto.
    replace (jweight a) with (jweight (JInt 0)); auto.
    unfold jweight at 2.
    destruct (jval a) eqn:J; [|reflexivity].
    assert (is_real a = true) by (apply is_real_jval; eauto). congruence.
Qed.

Lemma stable_perm_real l1 l2 :
  stable_perm l1 l2 -> forallb has_real_key l1 = true ->
  forallb has_real_key l2 = true.
Proof.
  intros [P _] H. rewrite forallb_forall in *. intros x Hx.
  apply H. eapply Permutation_in; [apply Permutation_sym|]; eauto.
Qed.

Lemma stable_perm_classes {B : Type} (f : json -> B) (g : B -> json) l1 l2 :
  (forall x, g (f x) = key_of x) ->
  stable_perm l1 l2 -> forallb has_real_key l1 = true ->
  forall a, filter (same_weight (fun b => jweight (g b)) a) (map f l1)
          = filter (same_weight (fun b => jweight (g b)) a) (map f l2).
Proof.
  intros Hg S H1 a. pose proof (stable_perm_real _ _ S H1) as H2.
  destruct S as [P S]. rewrite !filter_map_comm. f_equal.
  assert (H12 : forallb has_real_key (l1 ++ l2) = true)
    by (rewrite forallb_app, H1, H2; reflexivity).
  destruct (same_ts_class (g a) (l1 ++ l2) H12) as [e He].
  transitivity (filter (same_ts e) l1).
  - apply filter_ext_in. intros x Hx. unfold same_weight. rewrite Hg.
    symmetry. apply He. apply in_or_app. now left.
  - rewrite S. apply filter_ext_in. intros x Hx. unfold same_weight. rewrite Hg.
    apply He. apply in_or_app. now right.
Qed.

(** The event sort gives the same list for both arrangements. *)
Lemma sort_events_stable l1 l2 :
  forallb has_real_key l1 = true -> stable_perm l1 l2 ->
  sort_events l1 = sort_events l2.
Proof.
  intros H1 S. pose proof (stable_perm_real _ _ S H1) as H2.
  unfold sort_events. rewrite !mapM_keyed by assumption. cbn [bind].
  assert (X : forall l, forallb has_real_key l = true ->
    sorted key_lt (map (fun x => (key_of x, x)) l)
    = sorted (weight_lt keyed_weight) (map (fun x => (key_of x, x)) l)).
  { intros l H. apply sorted_ext. intros x y Hx Hy.
    apply in_map_iff in Hx, Hy. destruct Hx as [x' [<- Hx]], Hy as [y' [<- Hy]].
    rewrite forallb_forall in H.
    unfold key_lt, weight_lt, keyed_weight. cbn [fst].
    apply py_lt_weight; apply has_real_key_of; auto. }
  rewrite !X by assumption.
  rewrite (sorted_stable_unique keyed_weight _ (map (fun x => (key_of x, x)) l2));
    auto.
  apply (stable_perm_classes (fun x => (key_of x, x)) fst); auto.
Qed.

Lemma py_max_list_real x l :
  Forall (fun j => is_real j = true) (x :: l) ->
  fold_left (fun acc y => m <- acc ;; py_max m y) l (Ok x)
  = Ok (first_max jweight x l).
Proof.
  revert x. induction l as [|y l IH]; intros x H; auto.
  inversion H as [|? ? Rx H']; subst. inversion H' as [|? ? Ry Rl]; subst.
  cbn [fold_left bind first_max]. unfold py_max at 2, py_gt.
  rewrite (py_lt_weight x y Rx Ry). cbn [bind].
  apply IH. constructor; auto. destruct (PyNum.xltb _ _); auto.
Qed.

Lemma max_keys_stable l1 l2 :
  forallb has_real_key l1 = true -> stable_perm l1 l2 ->
  py_max_list (map key_of l1) = py_max_list (map key_of l2).
Proof.
  intros H1 S. pose proof (stable_perm_real _ _ S H1) as H2.
  pose proof (stable_perm_classes key_of (fun j => j) l1 l2
                (fun x => eq_refl) S H1) as C.
  assert (R : forall l, forallb has_real_key l = true ->
            Forall (fun j => is_real j = true) (map key_of l)).
  { intros l H. rewrite forallb_forall in H. apply Forall_forall.
    intros j Hj. apply in_map_iff in Hj. destruct Hj as [x [<- Hx]].
    apply has_real_key_of; auto. }
  destruct S as [P _].
  destruct l1 as [|x1 l1], l2 as [|x2 l2]; auto.
  - apply Permutation_nil in P. discriminate.
  - apply Permutation_sym, Permutation_nil in P. discriminate.
  - cbn [map py_max_list].
    rewrite !py_max_list_real by (apply (R (_ :: _)); assumption).
    f_equal. apply first_max_stable. exact C.
Qed.

Lemma session_end_with_events rest events :
  session_end (with_events rest events) =
  (max_ts_in_data <-
     match events with
     | [] => Ok (JInt 0)
     | _ :: _ => keys <- mapM event_key events ;; py_max_list keys
     end ;;
   metadata <- py_get (JObj rest) "metadata" (JObj []) ;;
   declared <- py_get metadata "duration" (JInt 0) ;;
   py_max declared max_ts_in_data).
Proof. destruct events; reflexivity. Qed.

Lemma dispatch_with_events rest events :
  dispatch (with_events rest events) =
  (st <- initial_state (JObj rest) ;;
   all_events <- sort_events events ;;
   current_boost_channels <- py_iter (channels (boost st)) ;;
   run_events (st, current_boost_channels) all_events).
Proof. reflexivity. Qed.

(** C7: two event lists that are permutations of each other and keep
    the relative order of the events of equal timestamp give the same
    result: the same finalised series, adjust series, mode timelines
    and markers, or the same exception.  The timestamps are numbers. *)
Theorem replay_deterministic :
  forall rest events1 events2,
    forallb has_real_key events1 = true ->
    stable_perm events1 events2 ->
    process_stimulation_data (with_events rest events1)
    = process_stimulation_data (with_events rest events2).
Proof.
  intros rest l1 l2 H S.
  unfold process_stimulation_data.
  rewrite !dispatch_with_events, !session_end_with_events.
  rewrite (sort_events_stable l1 l2 H S).
  pose proof (stable_perm_real _ _ S H) as H2.
  pose proof (max_keys_stable l1 l2 H S) as M.
  rewrite !mapM_keys by assumption. cbn [bind]. rewrite M.
  assert (E : match l1 with [] => true | _ :: _ => false end
            = match l2 with [] => true | _ :: _ => false end).
  { destruct S as [P _]. destruct l1, l2; auto.
    - apply Permutation_nil in P. discriminate.
    - apply Permutation_sym, Permutation_nil in P. discriminate. }
  destruct l1, l2; try discriminate; reflexivity.
Qed.

Lemma py_eq_real_l k a : py_eq k a = true -> is_real a = true -> is_real k = true.
Proof.
  intros E R. apply is_real_jval in R. destruct R as [x R].
  unfold jval in R.
  destruct a; try discriminate; destruct k; try discriminate;
    cbn [py_eq as_num] in E; unfold num_eq in E;
    unfold is_real; cbn [as_num];
    match type of E with
    | match num_val ?n with _ => _ end = true =>
        destruct (num_val n); [reflexivity | discriminate]
    end.
Qed.

Lemma same_ts_exclusive e a b :
  has_real_key a = true -> has_real_key b = true ->
  same_ts a b = false -> same_ts e a = true -> same_ts e b = false.
Proof.
  intros Ra Rb N H.
  destruct (has_real_key_of a Ra) as [Ka Ra'], (has_real_key_of b Rb) as [Kb Rb'].
  unfold same_ts in *. rewrite Ka, Kb in *.
  destruct (event_key e) as [k|]; [|discriminate].
  destruct (py_eq k (key_of b)) eqn:F; auto.
  pose proof (py_eq_real_l _ _ H Ra') as Rk.
  rewrite py_eq_weight in H, F, N by assumption.
  rewrite XOrder.xeqb_sym in H.
  pose proof (XOrder.xeqb_trans _ _ _ H F). congruence.
Qed.

Lemma replay_deterministic_witness :
  let a := mk_event (JInt 5) "generator1" "intensity" (JInt 60) "state" in
  let b := mk_event (JInt 3) "generator2" "adjust" (JInt 20) "state" in
  process_stimulation_data (with_events [] [a; b])
  = process_stimulation_data (with_events [] [b; a]).
Proof.
  intros a b. apply replay_deterministic; [reflexivity|].
  split; [apply perm_swap|].
  intros e. cbn [filter].
  destruct (same_ts e a) eqn:A.
  - rewrite (same_ts_exclusive e a b eq_refl eq_refl eq_refl A). reflexivity.
  - destruct (same_ts e b); reflexivity.
Defined.

(** ** Floats: which results are a NaN *)

Module FloatFacts.
Import PyNum.

Lemma shr_1_nonneg mrs : 0 <= shr_m mrs -> 0 <= shr_m (shr_1 mrs).
Proof.
  destruct mrs as [m r s]. cbn [shr_m]. intros H.
  destruct m as [|p|p]; cbn; try lia; destruct p; cbn; lia.
Qed.

Lemma iter_pos_nonneg p : forall mrs,
  0 <= shr_m mrs -> 0 <= shr_m (iter_pos shr_1 p mrs).
Proof.
  induction p as [p IH|p IH|]; intros mrs H; cbn [iter_pos].
  - apply IH, IH, shr_1_nonneg, H.
  - apply IH, IH, H.
  - apply shr_1_nonneg, H.
Qed.

Lemma shr_fexp_nonneg m e l :
  0 <= m -> 0 <= shr_m (fst (shr_fexp prec emax m e l)).
Proof.
  intros H. unfold shr_fexp, shr.
  assert (I : 0 <= shr_m (shr_record_of_loc m l))
    by (destruct l as [|[| |]]; exact H).
  destruct (fexp prec emax (Zdigits2 m + e) - e); cbn [fst]; auto.
  apply iter_pos_nonneg, I.
Qed.

Lemma round_nearest_even_nonneg m l : 0 <= m -> 0 <= round_nearest_even m l.
Proof.
  intros H. unfold round_nearest_even.
  destruct l as [|[| |]]; try lia. destruct (Z.even m); lia.
Qed.

Lemma binary_round_aux_not_nan sx mx ex lx :
  0 <= mx -> is_nan (binary_round_aux prec emax sx mx ex lx) = false.
Proof.
  intros H. unfold binary_round_aux.
  pose proof (shr_fexp_nonneg mx ex lx H) as A.
  destruct (shr_fexp prec emax mx ex lx) as [mrs' e']. cbn [fst] in A.
  pose proof (shr_fexp_nonneg
                (round_nearest_even (shr_m mrs') (loc_of_shr_record mrs')) e'
                loc_Exact (round_nearest_even_nonneg _ _ A)) as B.
  destruct (shr_fexp prec emax _ e' loc_Exact) as [mrs'' e'']. cbn [fst] in B.
  destruct (shr_m mrs'') as [|p|p]; [reflexivity | | lia].
  destruct (e'' <=? emax - prec); reflexivity.
Qed.

Lemma binary_normalize_not_nan m e s :
  is_nan (binary_normalize prec emax m e s) = false.
Proof.
  unfold binary_normalize. destruct m as [|p|p]; [reflexivity | |];
    unfold binary_round;
    destruct (shl_align _ _ _) as [mz ez];
    apply binary_round_aux_not_nan; lia.
Qed.

Lemma float_of_int_finite z f : float_of_int z = Ok f -> is_finite f = true.
Proof.
  unfold float_of_int. pose proof (binary_normalize_not_nan z 0 false) as N.
  destruct (binary_normalize prec emax z 0 false); intros H;
    try discriminate; injection H as <-; reflexivity.
Qed.

Lemma fadd_not_nan x y :
  is_finite x = true -> is_nan y = false -> is_nan (fadd x y) = false.
Proof.
  unfold fadd. destruct x as [sx| | |sx mx ex]; try discriminate;
    destruct y as [sy|sy| |sy my ey]; try discriminate; intros _ _;
    cbn [SFadd]; try reflexivity.
  - destruct sx, sy; reflexivity.
  - apply binary_normalize_not_nan.
Qed.

Lemma fmul_not_nan x sy my ey :
  is_nan x = false -> is_nan (fmul x (S754_finite sy my ey)) = false.
Proof.
  unfold fmul. destruct x as [sx|sx| |sx mx ex]; try discriminate; intros _;
    cbn [SFmul]; try reflexivity.
  apply binary_round_aux_not_nan. lia.
Qed.

End FloatFacts.

(** ** The engine runs to completion on a well-formed document *)

Lemma is_number_real j : is_number j = true -> is_real j = true.
Proof.
  destruct j; try discriminate; cbn; auto.
  destruct f; try discriminate; reflexivity.
Qed.

Lemma is_number_has_num j : is_number j = true -> has_num j = true.
Proof. destruct j; try discriminate; reflexivity. Qed.

Lemma is_real_has_num j : is_real j = true -> has_num j = true.
Proof. unfold is_real, has_num. destruct (as_num j); auto. Qed.

Lemma is_int_number j : is_int j = true -> is_number j = true.
Proof. destruct j; try discriminate; auto. Qed.

Lemma fits_float_ok z : fits_float z = true -> exists f, PyNum.float_of_int z = Ok f.
Proof. unfold fits_float. destruct (PyNum.float_of_int z); [eauto | discriminate]. Qed.

Lemma float_real f : is_nan f = false -> is_real (JFloat f) = true.
Proof. destruct f; try discriminate; reflexivity. Qed.

Lemma add_numbers a b :
  is_number a = true -> is_number b = true ->
  exists c, py_add a b = Ok c /\ has_num c = true.
Proof.
  destruct a; try discriminate; destruct b; try discriminate;
    cbn [is_number py_add as_num num_add]; intros A B.
  - eauto.
  - destruct (fits_float_ok _ A) as [g ->]. cbn [bind]. eauto.
  - destruct (fits_float_ok _ B) as [g ->]. cbn [bind]. eauto.
  - eauto.
Qed.

(** The end of a shock pulse, [ts + duration * 1000], is a number and
    no NaN. *)
Lemma pulse_end ts dur :
  is_int ts = true -> is_number dur = true ->
  exists d t, py_mul dur (JInt 1000) = Ok d /\ py_add ts d = Ok t /\
              is_real t = true.
Proof.
  destruct ts as [| |z| | | |]; try discriminate.
  destruct dur as [| |y|f| | |]; try discriminate;
    cbn [is_int is_number]; intros A B.
  - exists (JInt (y * 1000)), (JInt (z + y * 1000)). repeat split.
  - destruct (fits_float_ok _ A) as [x X].
    pose proof (FloatFacts.float_of_int_finite _ _ X) as Fx.
    exists (JFloat (PyNum.fmul f (S754_finite false 8796093022208000 (-43)))).
    exists (JFloat (PyNum.fadd x
              (PyNum.fmul f (S754_finite false 8796093022208000 (-43))))).
    split; [reflexivity|]. split.
    + cbn [py_add as_num num_add]. rewrite X. reflexivity.
    + apply float_real, FloatFacts.fadd_not_nan; auto.
      apply FloatFacts.fmul_not_nan. now apply negb_true_iff.
Qed.

Lemma next_ms ts :
  is_int ts = true -> exists t, py_add ts (JInt 1) = Ok t /\ is_real t = true.
Proof.
  destruct ts as [| |z| | | |]; try discriminate. intros _.
  exists (JInt (z + 1)). split; reflexivity.
Qed.

Lemma min_number s :
  has_num s = true -> exists c, py_min (JInt 100) s = Ok c /\ has_num c = true.
Proof.
  intros H. unfold py_min.
  destruct (py_lt_num s (JInt 100) H eq_refl) as [c ->]. cbn [bind].
  destruct c; eauto.
Qed.

Lemma mask_item c k : is_mask c = true -> exists x, getitem_int c (gen_index k) = Ok x.
Proof.
  destruct c as [| | | | |l|]; try discriminate.
  destruct l as [|x [|y l]]; try discriminate. intros _.
  destruct k; [exists x | exists y]; reflexivity.
Qed.

Lemma mask_iter c : is_mask c = true -> exists l, py_iter c = Ok l.
Proof. destruct c; try discriminate. cbn. eauto. Qed.

Lemma last_number (l : list json) :
  Forall (fun v => has_num v = true) l -> l <> [] ->
  exists v, py_last l = Ok v /\ has_num v = true.
Proof.
  intros F N. destruct (exists_last N) as [l' [x ->]].
  exists x. split; [apply py_last_snoc|].
  apply Forall_app in F. destruct F as [_ F]. now inversion F.
Qed.

Lemma last_real (l : list json) :
  Forall (fun v => is_real v = true) l -> l <> [] ->
  exists v, py_last l = Ok v /\ is_real v = true.
Proof.
  intros F N. destruct (exists_last N) as [l' [x ->]].
  exists x. split; [apply py_last_snoc|].
  apply Forall_app in F. destruct F as [_ F]. now inversion F.
Qed.

Lemma append_sample_ok p t v :
  plot_ok p -> is_real t = true -> has_num v = true ->
  plot_ok (append_sample p t v).
Proof.
  intros [A [B [C D]]] T V. unfold plot_ok, append_sample. cbn [time value].
  repeat split.
  - apply Forall_app. split; auto.
  - apply Forall_app. split; auto.
  - intros E. apply app_eq_nil in E. destruct E; discriminate.
  - intros E. apply app_eq_nil in E. destruct E; discriminate.
Qed.

Lemma append_plot_ok st k t v :
  st_ok st -> is_real t = true -> has_num v = true ->
  st_ok (append_plot st k t v).
Proof.
  intros [G B] T V. split; [|now rewrite boost_append_plot].
  intros k'. rewrite get_gen_append_plot.
  destruct (match k, k' with G1, G1 | G2, G2 => true | _, _ => false end); auto.
  destruct (G k) as [A1 [A2 [A3 A4]]].
  exact (conj A1 (conj A2 (conj (append_sample_ok _ t v A3 T V) A4))).
Qed.

Lemma append_adjust_ok st k t v :
  st_ok st -> is_real t = true -> has_num v = true ->
  st_ok (append_adjust st k t v).
Proof.
  intros [G B] T V. split; [|destruct k; exact B].
  intros k'. pose proof (G k) as [A1 [A2 [A3 A4]]].
  pose proof (append_sample_ok _ t v A4 T V) as S.
  destruct k, k';
    first [exact (conj A1 (conj A2 (conj A3 S))) | exact (G G1) | exact (G G2)].
Qed.

Lemma set_base_intensity_ok st k v :
  st_ok st -> is_number v = true -> st_ok (set_base_intensity st k v).
Proof.
  intros [G B] V. split; [|destruct k; exact B].
  intros k'. pose proof (G k) as [A1 [A2 [A3 A4]]].
  destruct k, k';
    first [exact (conj V (conj A2 (conj A3 A4))) | exact (G G1) | exact (G G2)].
Qed.

Lemma set_adjust_value_ok st k v :
  st_ok st -> is_number v = true -> st_ok (set_adjust_value st k v).
Proof.
  intros [G B] V. split; [|destruct k; exact B].
  intros k'. pose proof (G k) as [A1 [A2 [A3 A4]]].
  destruct k, k';
    first [exact (conj A1 (conj V (conj A3 A4))) | exact (G G1) | exact (G G2)].
Qed.

Lemma append_mode_ok st k t m : st_ok st -> st_ok (append_mode st k t m).
Proof.
  intros [G B]. split; [|destruct k; exact B].
  intros k'. destruct k, k'; first [exact (G G1) | exact (G G2)].
Qed.

Lemma append_fire_ok st t c : st_ok st -> st_ok (append_fire st t c).
Proof.
  intros [G B]. split; [|exact B].
  intros k'. destruct k'; first [exact (G G1) | exact (G G2)].
Qed.

Lemma set_boost_ok st b : st_ok st -> boost_ok b -> st_ok (set_boost st b).
Proof.
  intros [G B] H. split; [|exact H].
  intros k'. destruct k'; first [exact (G G1) | exact (G G2)].
Qed.

Lemma is_int_real ts : is_int ts = true -> is_real ts = true.
Proof. intros H. apply is_number_real, is_int_number, H. Qed.

Lemma shock_channel_ok st k ts v :
  st_ok st -> is_int ts = true ->
  exists st', shock_channel st k ts v = Ok st' /\ st_ok st'.
Proof.
  intros S T. unfold shock_channel.
  destruct (mask_item (channels (boost st)) k (proj1 (proj2 S))) as [x ->].
  cbn [bind]. destruct (truthy x); [|eauto].
  destruct (truthy v); eexists; (split; [reflexivity|]);
    apply append_plot_ok; auto using is_int_real.
  apply is_number_has_num, (proj1 S k).
Qed.

Lemma fire_channel_ok st k ts :
  st_ok st -> is_int ts = true ->
  exists st', fire_channel st k ts = Ok st' /\ st_ok st'.
Proof.
  intros S T. unfold fire_channel.
  destruct (mask_item (channels (boost st)) k (proj1 (proj2 S))) as [x ->].
  cbn [bind]. destruct (truthy x); [|eauto].
  destruct S as [G [Bm [Bd Bo]]].
  destruct (G k) as [A1 [A2 [[P1 [P2 [P3 P4]]] A4]]].
  destruct (truthy (shockMode (boost st))).
  - destruct (pulse_end ts _ T Bd) as [d [t [Hd [Ht R]]]].
    rewrite Hd. cbn [bind]. rewrite Ht. cbn [bind].
    eexists. split; [reflexivity|].
    apply append_plot_ok; auto.
    apply append_plot_ok; auto using is_int_real, is_number_has_num.
    split; auto. repeat split; auto.
  - destruct (add_numbers _ _ A1 Bo) as [s [-> Hs]]. cbn [bind].
    destruct (min_number s Hs) as [b [-> Hb]]. cbn [bind].
    destruct (last_number _ P2 P4) as [c [-> Hc]]. cbn [bind].
    destruct (next_ms ts T) as [t [-> R]]. cbn [bind].
    eexists. split; [reflexivity|].
    apply append_plot_ok; auto.
    apply append_plot_ok; auto using is_int_real.
    split; auto. repeat split; auto.
Qed.

Lemma generator_event_ok st k ts path v prop :
  st_ok st -> is_int ts = true ->
  getitem_int path 1 = Ok prop -> wf_generator_value prop v = true ->
  exists st', generator_event st k ts path v = Ok st' /\ st_ok st'.
Proof.
  intros S T P W. unfold generator_event. rewrite P. cbn [bind].
  unfold wf_generator_value in W.
  destruct (py_eq prop (JStr "intensity")) eqn:I.
  - cbn [orb] in W.
    pose proof (set_base_intensity_ok st k v S W) as S'.
    assert (B : boost (set_base_intensity st k v) = boost st)
      by (destruct k; reflexivity).
    rewrite B.
    destruct (truthy (shockMode (boost st))) eqn:M.
    + destruct (mask_item (channels (boost st)) k (proj1 (proj2 S))) as [x ->].
      cbn [bind]. destruct (negb (truthy x)); eexists; (split; [reflexivity|]); auto.
      apply append_plot_ok; auto using is_int_real, is_number_has_num.
    + cbn [bind]. rewrite M. cbn [negb]. eexists. split; [reflexivity|].
      apply append_plot_ok; auto using is_int_real, is_number_has_num.
  - destruct (py_eq prop (JStr "mode")).
    { eexists. split; [reflexivity|]. now apply append_mode_ok. }
    destruct (py_eq prop (JStr "adjust")); [|eauto].
    cbn [orb] in W. eexists. split; [reflexivity|].
    apply append_adjust_ok; auto using is_int_real, is_number_has_num.
    now apply set_adjust_value_ok.
Qed.

Lemma set_boost_field_ok b k v :
  boost_ok b -> wf_boost_value (JStr k) v = true ->
  boost_ok (set_boost_field b k v).
Proof.
  intros [Bm [Bd Bo]]. unfold wf_boost_value, set_boost_field. cbn [py_eq].
  destruct (String.eqb k "shockMode") eqn:E1.
  { intros _. repeat split; auto. }
  destruct (String.eqb k "channels") eqn:E2.
  { intros W. repeat split; auto. }
  destruct (String.eqb k "duration") eqn:E3.
  { cbn [orb]. intros W. repeat split; auto. }
  destruct (String.eqb k "offset") eqn:E4.
  { cbn [orb]. intros W. repeat split; auto. }
  intros _. repeat split; auto.
Qed.

Lemma boost_event_ok st cur ts path v ty k :
  st_ok st -> is_int ts = true ->
  getitem_int path 1 = Ok (JStr k) -> wf_boost_value (JStr k) v = true ->
  exists sc, boost_event st cur ts path v ty = Ok sc /\ st_ok (fst sc).
Proof.
  intros S T P W. unfold boost_event. rewrite P. cbn [bind].
  pose proof (set_boost_field_ok (boost st) k v (proj2 S) W) as Bk.
  destruct (py_eq (JStr k) (JStr "channels")) eqn:C.
  - cbn [py_eq] in C. apply String.eqb_eq in C. subst k.
    unfold wf_boost_value in W. cbn in W.
    destruct (mask_iter v W) as [l ->]. cbn [bind].
    eexists. split; [reflexivity|]. cbn [fst]. now apply set_boost_ok.
  - cbn [in_boost bind prop_key].
    destruct (existsb (String.eqb k) boost_keys).
    + destruct (py_eq (JStr k) (JStr "shockMode") && _) eqn:Sh.
      * apply andb_true_iff in Sh. destruct Sh as [Sh _].
        cbn [py_eq] in Sh. apply String.eqb_eq in Sh. subst k.
        pose proof (set_boost_ok st _ S Bk) as S1.
        destruct (shock_channel_ok _ G1 ts v S1 T) as [st2 [-> S2]]. cbn [bind].
        destruct (shock_channel_ok _ G2 ts v S2 T) as [st3 [-> S3]]. cbn [bind].
        eauto.
      * eexists. split; [reflexivity|]. cbn [fst]. now apply set_boost_ok.
    + destruct (py_eq (JStr k) (JStr "fire") && _); [|eauto].
      pose proof (append_fire_ok st ts cur S) as S1.
      destruct (fire_channel_ok _ G1 ts S1 T) as [st2 [-> S2]]. cbn [bind].
      destruct (fire_channel_ok _ G2 ts S2 T) as [st3 [-> S3]]. cbn [bind].
      eauto.
Qed.

Lemma step_ok st cur event :
  st_ok st -> wf_event event = true ->
  exists sc, step (st, cur) event = Ok sc /\ st_ok (fst sc).
Proof.
  intros S W. destruct event as [| | | | | |m]; try discriminate.
  unfold step. cbn [py_get bind]. cbn [wf_event] in W.
  destruct (lookup "ts" m) as [ts|]; [|cbn [is_none orb]; eauto].
  apply andb_true_iff in W. destruct W as [T W].
  assert (N : is_none ts = false) by (destruct ts; try discriminate; reflexivity).
  rewrite N. cbn [orb].
  set (path := match lookup "path" m with Some p => p | None => JArr [] end) in *.
  set (v := match lookup "value" m with Some v => v | None => JNull end) in *.
  destruct path as [| | | | |l|]; try discriminate.
  destruct l as [|p0 rest]; [cbn [truthy negb]; eauto|].
  cbn [truthy negb]. cbn [wf_path] in W.
  change (getitem_int (JArr (p0 :: rest)) 0) with (Ok (A:=json) p0). cbn [bind].
  destruct (py_eq p0 (JStr "boost")).
  - destruct rest as [|p1 rest]; try discriminate.
    destruct p1 as [| | | |k| |]; try discriminate.
    apply (boost_event_ok st cur ts (JArr (p0 :: JStr k :: rest)) v _ k S T
             eq_refl W).
  - destruct (py_eq p0 (JStr "generator1") || py_eq p0 (JStr "generator2")); [|eauto].
    destruct rest as [|p1 rest]; try discriminate.
    destruct (generator_event_ok st
                (if py_eq p0 (JStr "generator1") then G1 else G2)
                ts (JArr (p0 :: p1 :: rest)) v p1 S T eq_refl W) as [st' [-> S']].
    cbn [bind]. eauto.
Qed.

Lemma run_events_ok events : forall st cur,
  st_ok st -> Forall (fun e => wf_event e = true) events ->
  exists sc, run_events (st, cur) events = Ok sc /\ st_ok (fst sc).
Proof.
  induction events as [|e events IH]; intros st cur S W; cbn [run_events].
  - eauto.
  - inversion W as [|? ? We W']; subst.
    destruct (step_ok st cur e S We) as [[st1 cur1] [-> S1]]. cbn [bind].
    apply IH; auto.
Qed.

Lemma opt_field_get m k (p : json -> bool) d :
  opt_field m k p = true -> p d = true ->
  p (match lookup k m with Some v => v | None => d end) = true.
Proof. unfold opt_field. destruct (lookup k m); auto. Qed.

Lemma load_boost_ok bm keys : forall b,
  boost_ok b ->
  (forall key v, In key keys -> lookup key bm = Some v ->
                 wf_boost_value (JStr key) v = true) ->
  exists b', load_boost keys (JObj bm) b = Ok b' /\ boost_ok b'.
Proof.
  induction keys as [|key keys IH]; intros b B W; cbn [load_boost].
  - eauto.
  - cbn [py_contains bind getitem_str].
    destruct (lookup key bm) as [v|] eqn:L; cbn [bind].
    + apply IH.
      * apply set_boost_field_ok; auto. apply W; auto. now left.
      * intros key' v' I. apply W. now right.
    + apply IH; auto. intros key' v' I. apply W. now right.
Qed.

Lemma wf_boost_fields bm :
  wf_boost (JObj bm) = true ->
  forall key v, In key boost_keys -> lookup key bm = Some v ->
                wf_boost_value (JStr key) v = true.
Proof.
  cbn [wf_boost]. rewrite !andb_true_iff. unfold opt_field.
  intros [[C D] O] key v I L.
  destruct I as [<-|[<-|[<-|[<-|[]]]]]; try rewrite L in *;
    first [exact C | exact D | exact O | reflexivity].
Qed.

Lemma seed_ok i a :
  is_number i = true -> is_number a = true ->
  gen_ok (mkGenerator i (append_sample empty_plot (JInt 0) i) a
            (append_sample empty_plot (JInt 0) a)).
Proof.
  intros I A. repeat split; auto; cbn;
    try (repeat constructor; auto using is_number_has_num); discriminate.
Qed.

Lemma initial_state_ok data :
  wf_document data = true -> exists st, initial_state data = Ok st /\ st_ok st.
Proof.
  destruct data as [| | | | | |m]; try discriminate.
  cbn [wf_document]. rewrite !andb_true_iff. intros [[C _] _].
  unfold initial_state. cbn [py_get bind].
  pose proof (opt_field_get m "initialContext" wf_context (JObj []) C eq_refl) as Wc.
  destruct (match lookup "initialContext" m with Some v => v | None => JObj [] end)
    as [| | | | | |cm]; try discriminate.
  cbn [wf_context] in Wc. rewrite !andb_true_iff in Wc. destruct Wc as [[W1 W2] Wb].
  cbn [py_get bind].
  pose proof (opt_field_get cm "generator1" wf_generator (JObj []) W1 eq_refl) as Wg1.
  pose proof (opt_field_get cm "generator2" wf_generator (JObj []) W2 eq_refl) as Wg2.
  pose proof (opt_field_get cm "boost" wf_boost (JObj []) Wb eq_refl) as Wbo.
  destruct (match lookup "generator1" cm with Some v => v | None => JObj [] end)
    as [| | | | | |gm1]; try discriminate.
  destruct (match lookup "generator2" cm with Some v => v | None => JObj [] end)
    as [| | | | | |gm2]; try discriminate.
  destruct (match lookup "boost" cm with Some v => v | None => JObj [] end)
    as [| | | | | |bm]; try discriminate.
  cbn [wf_generator] in Wg1, Wg2. rewrite !andb_true_iff in Wg1, Wg2.
  destruct Wg1 as [I1 A1], Wg2 as [I2 A2].
  cbn [py_get bind].
  pose proof (opt_field_get gm1 "intensity" is_number (JInt 0) I1 eq_refl) as Hi1.
  pose proof (opt_field_get gm2 "intensity" is_number (JInt 0) I2 eq_refl) as Hi2.
  pose proof (opt_field_get gm1 "adjust" is_number (JInt 50) A1 eq_refl) as Ha1.
  pose proof (opt_field_get gm2 "adjust" is_number (JInt 50) A2 eq_refl) as Ha2.
  set (i1 := match lookup "intensity" gm1 with Some v => v | None => JInt 0 end) in *.
  set (i2 := match lookup "intensity" gm2 with Some v => v | None => JInt 0 end) in *.
  set (a1 := match lookup "adjust" gm1 with Some v => v | None => JInt 50 end) in *.
  set (a2 := match lookup "adjust" gm2 with Some v => v | None => JInt 50 end) in *.
  assert (B0 : boost_ok (boost state0)) by (repeat split).
  destruct (load_boost_ok bm boost_keys (boost state0) B0 (wf_boost_fields bm Wbo))
    as [b [Hb Bb]].
  cbn [append_plot append_adjust get_gen set_gen g1 g2 boost base_intensity
       adjust_value plot_data adjust_plot_data modes_g1 modes_g2 fire_events].
  rewrite Hb. cbn [bind].
  eexists. split; [reflexivity|].
  assert (S : st_ok (set_boost
            (mkState (mkGenerator i1 (append_sample empty_plot (JInt 0) i1) a1
                        (append_sample empty_plot (JInt 0) a1))
               (mkGenerator i2 (append_sample empty_plot (JInt 0) i2) a2
                        (append_sample empty_plot (JInt 0) a2))
               (boost state0) [] [] []) b)).
  { apply set_boost_ok; auto. split; [|exact B0].
    intros k; destruct k; cbn [get_gen g1 g2]; now apply seed_ok. }
  destruct (truthy _); destruct (truthy _);
    repeat apply append_mode_ok; exact S.
Qed.

Lemma wf_event_real_key e : wf_event e = true -> has_real_key e = true.
Proof.
  destruct e as [| | | | | |m]; try discriminate.
  cbn [wf_event]. unfold has_real_key. cbn [event_key py_get].
  destruct (lookup "ts" m) as [ts|]; [|reflexivity].
  rewrite andb_true_iff. intros [T _]. now apply is_int_real.
Qed.

Lemma wf_events_real_keys events :
  forallb wf_event events = true -> forallb has_real_key events = true.
Proof.
  rewrite !forallb_forall. intros H x Hx. apply wf_event_real_key; auto.
Qed.

Lemma keyed_sort_weight l :
  forallb has_real_key l = true ->
  sorted key_lt (map (fun x => (key_of x, x)) l)
  = sorted (weight_lt keyed_weight) (map (fun x => (key_of x, x)) l).
Proof.
  intros H. apply sorted_ext. intros x y Hx Hy.
  apply in_map_iff in Hx, Hy. destruct Hx as [x' [<- Hx]], Hy as [y' [<- Hy]].
  rewrite forallb_forall in H.
  unfold key_lt, weight_lt, keyed_weight. cbn [fst].
  apply py_lt_weight; apply has_real_key_of; auto.
Qed.

Lemma sort_events_ok events :
  forallb wf_event events = true ->
  exists s, sort_events events = Ok s /\ Permutation events s.
Proof.
  intros W. pose proof (wf_events_real_keys _ W) as R.
  unfold sort_events. rewrite mapM_keyed by assumption. cbn [bind].
  rewrite keyed_sort_weight by assumption.
  destruct (weight_sorted_ok keyed_weight (map (fun x => (key_of x, x)) events))
    as [s Hs].
  rewrite Hs. cbn [bind]. eexists. split; [reflexivity|].
  apply sorted_perm in Hs. apply (Permutation_map snd) in Hs.
  rewrite map_map in Hs. cbn [snd] in Hs. now rewrite map_id in Hs.
Qed.

Lemma py_max_real a b :
  is_real a = true -> is_real b = true ->
  exists c, py_max a b = Ok c /\ is_real c = true.
Proof.
  intros A B. unfold py_max, py_gt. rewrite (py_lt_weight a b A B). cbn [bind].
  destruct (PyNum.xltb _ _); eauto.
Qed.

Lemma session_end_ok data :
  wf_document data = true ->
  exists t, session_end data = Ok t /\ is_real t = true.
Proof.
  destruct data as [| | | | | |m]; try discriminate.
  cbn [wf_document]. rewrite !andb_true_iff. intros [[_ M] D].
  unfold session_end. cbn [py_get bind getitem_str].
  pose proof (opt_field_get m "metadata" wf_metadata (JObj []) M eq_refl) as Wm.
  destruct (match lookup "metadata" m with Some v => v | None => JObj [] end)
    as [| | | | | |mm]; try discriminate.
  cbn [wf_metadata] in Wm.
  pose proof (opt_field_get mm "duration" is_number (JInt 0) Wm eq_refl) as Wd.
  apply is_number_real in Wd.
  assert (X : exists mx,
    (if truthy (match lookup "data" m with Some v => v | None => JNull end)
     then d <- match lookup "data" m with
               | Some v => Ok v
               | None => Raise KeyError
               end ;;
          events <- py_iter d ;; keys <- mapM event_key events ;; py_max_list keys
     else Ok (JInt 0)) = Ok mx /\ is_real mx = true).
  { unfold opt_field in D. destruct (lookup "data" m) as [d|]; [|cbn; eauto].
    destruct d as [| | | | |events|]; try discriminate. cbn [wf_events] in D.
    destruct events as [|e events]; [cbn; eauto|].
    cbn [truthy bind py_iter].
    pose proof (wf_events_real_keys _ D) as R.
    rewrite mapM_keys by assumption.
    change (map key_of (e :: events)) with (key_of e :: map key_of events).
    cbn [bind py_max_list].
    assert (F : Forall (fun j => is_real j = true) (key_of e :: map key_of events)).
    { change (key_of e :: map key_of events) with (map key_of (e :: events)).
      rewrite forallb_forall in R. apply Forall_forall.
      intros j Hj. apply in_map_iff in Hj. destruct Hj as [x [<- Hx]].
      apply has_real_key_of; auto. }
    rewrite (py_max_list_real _ _ F). eexists. split; [reflexivity|].
    rewrite Forall_forall in F. apply F.
    apply (first_max_spec jweight (key_of e) (map key_of events)). }
  destruct X as [mx [-> Rm]]. cbn [bind py_get].
  now apply py_max_real.
Qed.

(** The comparison of two samples: the times order them, whatever the
    values say on a tie. *)
Lemma tuple_lt_ok (a b : json * json) :
  is_real (fst a) = true -> is_real (fst b) = true ->
  has_num (snd a) = true -> has_num (snd b) = true ->
  exists c, tuple_lt a b = Ok c.
Proof.
  intros Ta Tb Va Vb. unfold tuple_lt.
  destruct (py_eq (fst a) (fst b)).
  - destruct (py_eq (snd a) (snd b)); [eauto|]. now apply py_lt_num.
  - rewrite (py_lt_weight _ _ Ta Tb). eauto.
Qed.

Lemma tuple_lt_true (a b : json * json) :
  is_real (fst a) = true -> is_real (fst b) = true ->
  tuple_lt a b = Ok true -> time_le (fst a) (fst b).
Proof.
  intros Ta Tb. unfold tuple_lt, time_le.
  rewrite (py_eq_weight _ _ Ta Tb), (py_lt_weight _ _ Ta Tb), (py_lt_weight _ _ Tb Ta).
  rewrite XOrder.xeqb_spec.
  destruct (PyNum.xltb (jweight (fst a)) (jweight (fst b))) eqn:L; cbn [negb andb].
  - intros _. f_equal. now apply XOrder.xltb_asym.
  - destruct (PyNum.xltb (jweight (fst b)) (jweight (fst a))); cbn [negb];
      intros H; [discriminate | reflexivity].
Qed.

Lemma tuple_lt_false (a b : json * json) :
  is_real (fst a) = true -> is_real (fst b) = true ->
  tuple_lt a b = Ok false -> time_le (fst b) (fst a).
Proof.
  intros Ta Tb. unfold tuple_lt, time_le.
  rewrite (py_eq_weight _ _ Ta Tb), (py_lt_weight _ _ Ta Tb).
  rewrite XOrder.xeqb_spec.
  destruct (PyNum.xltb (jweight (fst a)) (jweight (fst b))) eqn:L; cbn [negb andb].
  - intros H. discriminate.
  - reflexivity.
Qed.

Lemma time_le_trans a b c :
  is_real a = true -> is_real b = true -> is_real c = true ->
  time_le a b -> time_le b c -> time_le a c.
Proof.
  intros A B C. unfold time_le.
  rewrite (py_lt_weight _ _ B A), (py_lt_weight _ _ C B), (py_lt_weight _ _ C A).
  intros H1 H2. injection H1 as H1. injection H2 as H2. f_equal.
  eapply XOrder.xle_trans; eauto.
Qed.

Lemma sorted_map_fst (s : list (json * json)) :
  StronglySorted (fun a b => time_le (fst a) (fst b)) s ->
  nondecreasing (map fst s).
Proof.
  unfold nondecreasing. induction 1 as [|a s S IH F]; cbn [map]; constructor; auto.
  rewrite Forall_forall in *. intros t Ht.
  apply in_map_iff in Ht. destruct Ht as [b [<- Hb]]. auto.
Qed.

Lemma sort_plot_ok p :
  plot_ok p -> exists p', sort_plot p = Ok p' /\ nondecreasing (time p').
Proof.
  intros [T [V _]]. unfold sort_plot.
  assert (D : Forall (fun a : json * json =>
                        is_real (fst a) = true /\ has_num (snd a) = true)
                (combine (time p) (value p))).
  { apply Forall_forall. intros [t v] H. rewrite Forall_forall in T, V.
    split; [apply T; eapply in_combine_l | apply V; eapply in_combine_r]; eauto. }
  rewrite Forall_forall in D.
  destruct (sorted_ok tuple_lt (combine (time p) (value p))) as [s Hs].
  { intros x y Hx Hy. apply tuple_lt_ok; now apply D. }
  rewrite Hs. cbn [bind]. eexists. split; [reflexivity|]. cbn [time].
  apply sorted_map_fst.
  apply (sorted_sorted tuple_lt (fun a b => time_le (fst a) (fst b))
           (fun a => is_real (fst a) = true)) with (l := combine (time p) (value p));
    auto.
  - intros x y z. apply time_le_trans.
  - intros x y. apply tuple_lt_true.
  - intros x y. apply tuple_lt_false.
  - apply Forall_forall. intros x Hx. now apply D.
Qed.

Lemma extend_adjust_ok st k total :
  st_ok st -> is_real total = true ->
  exists st', extend_adjust st k total = Ok st' /\ st_ok st'.
Proof.
  intros S R. unfold extend_adjust.
  destruct (proj1 S k) as [_ [A [_ [T [V [N1 N2]]]]]].
  destruct (time (adjust_plot_data (get_gen st k))) as [|t0 ts] eqn:E; [eauto|].
  destruct (last_real (t0 :: ts) T N1) as [t [-> Rt]]. cbn [bind].
  rewrite (py_lt_weight _ _ Rt R). cbn [bind].
  destruct (PyNum.xltb _ _); [|eauto].
  eexists. split; [reflexivity|].
  apply append_adjust_ok; auto using is_number_has_num.
Qed.

Lemma sort_generator_ok st k :
  gen_ok (get_gen st k) ->
  exists st', sort_generator st k = Ok st' /\
    nondecreasing (time (plot_data (get_gen st' k))) /\
    nondecreasing (time (adjust_plot_data (get_gen st' k))) /\
    forall k', k' <> k -> get_gen st' k' = get_gen st k'.
Proof.
  intros [_ [_ [P A]]]. unfold sort_generator.
  destruct (sort_plot_ok _ P) as [p [-> Hp]]. cbn [bind].
  destruct (sort_plot_ok _ A) as [a [-> Ha]]. cbn [bind].
  eexists. split; [reflexivity|].
  destruct k; cbn [get_gen set_gen g1 g2 plot_data adjust_plot_data];
    repeat split; auto; intros k' N; destruct k';
    first [reflexivity | congruence].
Qed.

Lemma finalize_ok st total :
  st_ok st -> is_real total = true ->
  exists st', finalize st total = Ok st' /\
    forall k, nondecreasing (time (plot_data (get_gen st' k))) /\
              nondecreasing (time (adjust_plot_data (get_gen st' k))).
Proof.
  intros S R. unfold finalize.
  destruct (extend_adjust_ok st G1 total S R) as [st1 [-> S1]]. cbn [bind].
  destruct (extend_adjust_ok st1 G2 total S1 R) as [st2 [-> S2]]. cbn [bind].
  destruct (sort_generator_ok st2 G1 (proj1 S2 G1)) as [st3 [E3 [P1 [A1 O1]]]].
  rewrite E3. cbn [bind].
  assert (G : gen_ok (get_gen st3 G2)).
  { rewrite (O1 G2) by discriminate. exact (proj1 S2 G2). }
  destruct (sort_generator_ok st3 G2 G) as [st4 [E4 [P2 [A2 O2]]]].
  rewrite E4. eexists. split; [reflexivity|].
  intros k. destruct k; [|auto].
  rewrite (O2 G1) by discriminate. auto.
Qed.

Lemma dispatch_ok data :
  wf_document data = true ->
  exists st cur, dispatch data = Ok (st, cur) /\ st_ok st.
Proof.
  intros W. unfold dispatch.
  destruct (initial_state_ok data W) as [st0 [-> S0]]. cbn [bind].
  destruct data as [| | | | | |m]; try discriminate.
  cbn [wf_document] in W. rewrite !andb_true_iff in W. destruct W as [_ D].
  cbn [py_get bind].
  pose proof (opt_field_get m "data" wf_events (JArr []) D eq_refl) as We.
  destruct (match lookup "data" m with Some v => v | None => JArr [] end)
    as [| | | | |events|]; try discriminate.
  cbn [wf_events] in We. cbn [py_iter bind].
  destruct (sort_events_ok events We) as [s [-> P]]. cbn [bind].
  destruct (mask_iter _ (proj1 (proj2 S0))) as [cur ->]. cbn [bind].
  destruct (run_events_ok s st0 cur S0) as [[st cur'] [R S]].
  { rewrite forallb_forall in We. apply Forall_forall. intros e He.
    apply We. eapply Permutation_in; [apply Permutation_sym|]; eauto. }
  eauto.
Qed.

Lemma process_ok data :
  wf_document data = true ->
  exists st, process_stimulation_data data = Ok st /\
    forall k, nondecreasing (time (plot_data (get_gen st k))) /\
              nondecreasing (time (adjust_plot_data (get_gen st k))).
Proof.
  intros W. unfold process_stimulation_data.
  destruct (dispatch_ok data W) as [st [cur [-> S]]]. cbn [bind].
  destruct (session_end_ok data W) as [t [-> R]]. cbn [bind].
  now apply finalize_ok.
Qed.

(** ** Sortedness *)

(** C5: for every input document of the shape of section 6, the engine
    returns, and the finalised series and adjust series of each channel
    are non-decreasing in time. *)
Theorem finalized_series_sorted :
  forall data,
    wf_document data = true ->
    exists st,
      process_stimulation_data data = Ok st /\
      forall k, nondecreasing (time (plot_data (get_gen st k))) /\
                nondecreasing (time (adjust_plot_data (get_gen st k))).
Proof. exact process_ok. Qed.

Lemma finalized_series_sorted_witness :
  let data :=
    JObj [("metadata", JObj [("duration", JInt 5000)]);
          ("initialContext",
           JObj [("generator1", JObj [("intensity", JInt 30)]);
                 ("boost", JObj [("channels", JArr [JBool true; JBool true])])]);
          ("data",
           JArr [mk_event (JInt 1500) "boost" "shockMode" (JBool false) "state";
                 mk_event (JInt 1000) "boost" "fire" JNull "action";
                 mk_event (JInt 1050) "generator1" "intensity" (JInt 70) "state";
                 mk_event (JInt 500) "boost" "shockMode" (JBool true) "state"])] in
  exists st,
    process_stimulation_data data = Ok st /\
    nondecreasing (time (plot_data (g1 st))).
Proof.
  intros data.
  destruct (finalized_series_sorted data eq_refl) as [st [E H]].
  exists st. split; [exact E | exact (proj1 (H G1))].
Defined.

(** ** Events that are ignored *)

(** C2 (counterexample): an event whose path is the single segment
    ['boost'] ends the run with an IndexError on line 119, and a mask
    update whose value is [null] ends it with a TypeError on line 121. *)
Lemma dispatch_aborts_on_event :
  process_stimulation_data
    (JObj [("data", JArr [JObj [("ts", JInt 1); ("path", JArr [JStr "boost"])]])])
  = Raise IndexError /\
  process_stimulation_data
    (JObj [("data", JArr [mk_event (JInt 1) "boost" "channels" JNull "state"])])
  = Raise TypeError.
Proof. split; vm_compute; reflexivity. Qed.

(** C2 (amended): on every input document of the shape of section 6 the
    engine runs to completion.  On any state, an event whose first path
    segment is neither the override namespace nor a channel is ignored
    without error, whatever follows that segment; so is an event of the
    override namespace whose second segment names no override field and
    is not a ['fire'] action, and an event of a channel whose second
    segment is none of ['intensity'], ['mode'], ['adjust']. *)
Theorem engine_total_on_wellformed_documents :
  forall data,
    wf_document data = true ->
    (exists st, process_stimulation_data data = Ok st) /\
    (forall sc m ts p0 rest,
        lookup "ts" m = Some ts -> is_none ts = false ->
        lookup "path" m = Some (JArr (p0 :: rest)) ->
        py_eq p0 (JStr "boost") = false ->
        py_eq p0 (JStr "generator1") = false ->
        py_eq p0 (JStr "generator2") = false ->
        step sc (JObj m) = Ok sc) /\
    (forall sc m ts prop rest,
        lookup "ts" m = Some ts -> is_none ts = false ->
        lookup "path" m = Some (JArr (JStr "boost" :: prop :: rest)) ->
        py_eq prop (JStr "channels") = false ->
        in_boost prop = Ok false ->
        py_eq prop (JStr "fire") &&
        py_eq (match lookup "type" m with Some t => t | None => JNull end)
          (JStr "action") = false ->
        step sc (JObj m) = Ok sc) /\
    (forall sc m ts k field rest,
        lookup "ts" m = Some ts -> is_none ts = false ->
        lookup "path" m = Some (JArr (JStr (gen_name k) :: field :: rest)) ->
        py_eq field (JStr "intensity") = false ->
        py_eq field (JStr "mode") = false ->
        py_eq field (JStr "adjust") = false ->
        step sc (JObj m) = Ok sc).
Proof.
  intros data W. split; [|split; [|split]].
  - destruct (process_ok data W) as [st [E _]]. eauto.
  - intros [st cur] m ts p0 rest Hts Hn Hp B G1' G2'.
    unfold step. cbn [py_get bind]. rewrite Hts, Hp, Hn.
    cbn [truthy negb orb].
    change (getitem_int (JArr (p0 :: rest)) 0) with (Ok (A:=json) p0).
    cbn [bind]. rewrite B, G1', G2'. reflexivity.
  - intros [st cur] m ts prop rest Hts Hn Hp C K F.
    unfold step. cbn [py_get bind]. rewrite Hts, Hp, Hn.
    cbn [truthy negb orb].
    change (getitem_int (JArr (JStr "boost" :: prop :: rest)) 0)
      with (Ok (A:=json) (JStr "boost")).
    cbn [bind]. change (py_eq (JStr "boost") (JStr "boost")) with true.
    cbn iota. unfold boost_event.
    change (getitem_int (JArr (JStr "boost" :: prop :: rest)) 1)
      with (Ok (A:=json) prop).
    cbn [bind]. rewrite C, K. cbn [bind]. rewrite F. reflexivity.
  - intros [st cur] m ts k field rest Hts Hn Hp I M A.
    unfold step. cbn [py_get bind]. rewrite Hts, Hp, Hn.
    cbn [truthy negb orb].
    change (getitem_int (JArr (JStr (gen_name k) :: field :: rest)) 0)
      with (Ok (A:=json) (JStr (gen_name k))).
    cbn [bind].
    assert (E : generator_event st (if py_eq (JStr (gen_name k)) (JStr "generator1")
                                    then G1 else G2)
                  ts (JArr (JStr (gen_name k) :: field :: rest))
                  match lookup "value" m with Some v => v | None => JNull end
                = Ok st).
    { unfold generator_event.
      change (getitem_int (JArr (JStr (gen_name k) :: field :: rest)) 1)
        with (Ok (A:=json) field).
      cbn [bind]. rewrite I, M, A. reflexivity. }
    destruct k; cbn [gen_name] in *;
      change (py_eq (JStr "generator1") (JStr "boost")) with false;
      change (py_eq (JStr "generator2") (JStr "boost")) with false;
      change (py_eq (JStr "generator1") (JStr "generator1")) with true in *;
      change (py_eq (JStr "generator2") (JStr "generator1")) with false in *;
      change (py_eq (JStr "generator2") (JStr "generator2")) with true;
      cbn [orb]; cbn iota; rewrite E; reflexivity.
Qed.

Lemma engine_total_on_wellformed_documents_witness :
  let data :=
    JObj [("data",
           JArr [mk_event (JInt 10) "telemetry" "battery" (JInt 3) "state";
                 JObj [("ts", JInt 20); ("path", JArr [JStr "heartbeat"])];
                 mk_event (JInt 30) "boost" "colour" (JStr "red") "state";
                 mk_event (JInt 40) "generator1" "frequency" (JInt 7) "state";
                 mk_event (JInt 50) "generator2" "intensity" (JInt 25) "state"])] in
  exists st, process_stimulation_data data = Ok st.
Proof.
  intros data.
  exact (proj1 (engine_total_on_wellformed_documents data eq_refl)).
Defined.

(** * Further properties of the engine *)

(** ** The series keep their two lists in step *)

Lemma combine_snoc {A B : Type} (a : list A) (b : list B) x y :
  List.length a = List.length b ->
  combine (a ++ [x]) (b ++ [y]) = (combine a b ++ [(x, y)])%list.
Proof.
  revert b. induction a as [|u a IH]; intros [|v b] H; simpl in *;
    try discriminate; auto.
  f_equal. apply IH. now injection H.
Qed.

Lemma combine_map_fst_snd {A B : Type} (l : list (A * B)) :
  combine (map fst l) (map snd l) = l.
Proof. induction l as [|[a b] l IH]; simpl; congruence. Qed.

Lemma append_sample_aligned p t v : aligned p -> aligned (append_sample p t v).
Proof.
  unfold aligned, append_sample. cbn [time value]. intros H.
  rewrite !length_app. cbn [List.length]. lia.
Qed.

Lemma append_sample_samples p t v :
  aligned p -> samples (append_sample p t v) = (samples p ++ [(t, v)])%list.
Proof. intros H. unfold samples, append_sample. cbn [time value]. now apply combine_snoc. Qed.

(** What an update does to the samples of the two series of a channel:
    it appends. *)
Lemma update_samples st st' :
  update st st' -> st_aligned st ->
  st_aligned st' /\
  forall k,
    (exists l, samples (plot_data (get_gen st' k)) =
               (samples (plot_data (get_gen st k)) ++ l)%list) /\
    (exists l, samples (adjust_plot_data (get_gen st' k)) =
               (samples (adjust_plot_data (get_gen st k)) ++ l)%list).
Proof.
  intros U A.
  induction U as [st|st st' k t v _ IH|st st' k t v _ IH
                 |st st' k v _ IH|st st' k v _ IH
                 |st st' k t m _ IH|st st' t c _ IH
                 |st st' b _ IH].
  - split; auto. intros k; split; exists []; now rewrite app_nil_r.
  - destruct (IH A) as [A' G]. split.
    + intros k'. destruct (A' k') as [P Q], (A' k) as [Pk Qk].
      destruct k, k'; cbn; split; auto; now apply append_sample_aligned.
    + intros k'. destruct (G k') as [[l Hl] [l' Hl']], (A' k) as [Pk Qk].
      destruct k, k'; cbn [append_plot get_gen set_gen g1 g2 plot_data adjust_plot_data];
        split; eauto;
        rewrite append_sample_samples by assumption;
        cbn [get_gen] in Hl; rewrite Hl, <- app_assoc; eauto.
  - destruct (IH A) as [A' G]. split.
    + intros k'. destruct (A' k') as [P Q], (A' k) as [Pk Qk].
      destruct k, k'; cbn; split; auto; now apply append_sample_aligned.
    + intros k'. destruct (G k') as [[l Hl] [l' Hl']], (A' k) as [Pk Qk].
      destruct k, k'; cbn [append_adjust get_gen set_gen g1 g2 plot_data adjust_plot_data];
        split; eauto;
        rewrite append_sample_samples by assumption;
        cbn [get_gen] in Hl'; rewrite Hl', <- app_assoc; eauto.
  - destruct (IH A) as [A' G]. split.
    + intros k'. destruct (A' k'). destruct k, k'; cbn; auto.
    + intros k'. destruct (G k'). destruct k, k'; cbn; auto.
  - destruct (IH A) as [A' G]. split.
    + intros k'. destruct (A' k'). destruct k, k'; cbn; auto.
    + intros k'. destruct (G k'). destruct k, k'; cbn; auto.
  - destruct (IH A) as [A' G]. split.
    + intros k'. destruct (A' k'). destruct k, k'; cbn; auto.
    + intros k'. destruct (G k'). destruct k, k'; cbn; auto.
  - destruct (IH A) as [A' G]. split.
    + intros k'. destruct (A' k'). destruct k'; cbn; auto.
    + intros k'. destruct (G k'). destruct k'; cbn; auto.
  - destruct (IH A) as [A' G]. split.
    + intros k'. destruct (A' k'). destruct k'; cbn; auto.
    + intros k'. destruct (G k'). destruct k'; cbn; auto.
Qed.

Lemma initial_state_shape data st :
  initial_state data = Ok st ->
  st_aligned st /\ fire_events st = [] /\
  forall k,
    samples (plot_data (get_gen st k)) = [(JInt 0, base_intensity (get_gen st k))] /\
    samples (adjust_plot_data (get_gen st k)) = [(JInt 0, adjust_value (get_gen st k))].
Proof.
  unfold initial_state. intros H. do 7 bind_inv H. do 4 bind_inv H.
  injection H as <-.
  destruct (truthy a8), (truthy a9); (split; [|split]);
    try reflexivity; intros k; destruct k; split; reflexivity.
Qed.

Lemma dispatch_inv data st cur :
  dispatch data = Ok (st, cur) ->
  exists st0, initial_state data = Ok st0 /\ update st0 st.
Proof.
  unfold dispatch. intros H. do 5 bind_inv H.
  exists a. split; auto. eapply run_events_update; eauto.
Qed.

(** ** Finalisation only reorders *)

Lemma sort_plot_perm p p' :
  sort_plot p = Ok p' ->
  Permutation (samples p) (samples p') /\
  List.length (time p') = List.length (samples p) /\
  aligned p'.
Proof.
  unfold sort_plot. intros H. bind_inv H. injection H as <-.
  apply sorted_perm in E. unfold samples, aligned. cbn [time value].
  rewrite combine_map_fst_snd, !length_map. repeat split; auto.
  symmetry. now apply Permutation_length.
Qed.

Lemma extend_adjust_inv st k total st' :
  extend_adjust st k total = Ok st' ->
  st' = st \/ st' = append_adjust st k total (adjust_value (get_gen st k)).
Proof.
  unfold extend_adjust. intros H.
  destruct (time (adjust_plot_data (get_gen st k))); [injection H as <-; auto|].
  do 2 bind_inv H. destruct a0; injection H as <-; auto.
Qed.

Lemma sort_generator_inv st k st' :
  sort_generator st k = Ok st' ->
  exists p a,
    sort_plot (plot_data (get_gen st k)) = Ok p /\
    sort_plot (adjust_plot_data (get_gen st k)) = Ok a /\
    st' = set_gen st k (mkGenerator (base_intensity (get_gen st k)) p
                          (adjust_value (get_gen st k)) a).
Proof.
  unfold sort_generator. intros H. do 2 bind_inv H. injection H as <-. eauto.
Qed.

(** What finalisation does to one channel. *)
Lemma finalize_channel st total st' k :
  finalize st total = Ok st' -> st_aligned st ->
  exists p a adj,
    get_gen st' k = mkGenerator (base_intensity (get_gen st k)) p
                      (adjust_value (get_gen st k)) a /\
    sort_plot (plot_data (get_gen st k)) = Ok p /\
    sort_plot adj = Ok a /\
    (adj = adjust_plot_data (get_gen st k) \/
     adj = append_sample (adjust_plot_data (get_gen st k)) total
             (adjust_value (get_gen st k))) /\
    boost st' = boost st /\ modes_g1 st' = modes_g1 st /\
    modes_g2 st' = modes_g2 st /\ fire_events st' = fire_events st.
Proof.
  unfold finalize. intros H A. do 3 bind_inv H.
  apply extend_adjust_inv in E, E0.
  apply sort_generator_inv in E1, H.
  destruct E1 as [p1 [a1' [P1 [A1 ->]]]], H as [p2 [a2' [P2 [A2 ->]]]].
  destruct E as [-> | ->], E0 as [-> | ->], k;
    cbn [get_gen set_gen g1 g2 boost modes_g1 modes_g2 fire_events append_adjust
         base_intensity plot_data adjust_value adjust_plot_data] in *;
    do 3 eexists; (split; [reflexivity|]); (split; [eassumption|]);
    (split; [eassumption|]); (split; [|repeat split]); auto.
Qed.

(** The finaliser neither drops nor invents a sample: the finalised
    series of a channel is a permutation of the samples that dispatch
    appended, the adjust series a permutation of the appended samples and,
    when the series stopped before the end of the session, of one more
    sample at the session end that repeats the adjust value.  Nothing
    else of the state changes. *)
Theorem finalize_only_reorders :
  forall data st',
    process_stimulation_data data = Ok st' ->
    exists st cur total,
      dispatch data = Ok (st, cur) /\ session_end data = Ok total /\
      boost st' = boost st /\ fire_events st' = fire_events st /\
      forall k,
        modes_of st' k = modes_of st k /\
        base_intensity (get_gen st' k) = base_intensity (get_gen st k) /\
        adjust_value (get_gen st' k) = adjust_value (get_gen st k) /\
        Permutation (samples (plot_data (get_gen st k)))
                    (samples (plot_data (get_gen st' k))) /\
        List.length (time (plot_data (get_gen st' k))) =
          List.length (time (plot_data (get_gen st k))) /\
        List.length (value (plot_data (get_gen st' k))) =
          List.length (value (plot_data (get_gen st k))) /\
        (Permutation (samples (adjust_plot_data (get_gen st k)))
                     (samples (adjust_plot_data (get_gen st' k))) \/
         Permutation ((samples (adjust_plot_data (get_gen st k)) ++
                       [(total, adjust_value (get_gen st k))])%list)
                     (samples (adjust_plot_data (get_gen st' k)))).
Proof.
  intros data st' H. unfold process_stimulation_data in H.
  bind_inv H. destruct a as [st cur]. bind_inv H.
  exists st, cur, a. split; [exact E|]. split; [exact E0|].
  destruct (dispatch_inv _ _ _ E) as [st0 [I U]].
  destruct (initial_state_shape _ _ I) as [A0 _].
  destruct (update_samples _ _ U A0) as [A _].
  destruct (finalize_channel _ _ _ G1 H A) as [_ [_ [_ [_ [_ [_ [_ [B [M1 [M2 F]]]]]]]]]].
  split; [exact B|]. split; [exact F|].
  intros k.
  destruct (finalize_channel _ _ _ k H A) as [p [a' [adj [G [P [Q [C _]]]]]]].
  rewrite G. cbn [base_intensity adjust_value plot_data adjust_plot_data].
  destruct (sort_plot_perm _ _ P) as [Pp [Lp Ap]].
  destruct (sort_plot_perm _ _ Q) as [Pa [La Aa]].
  destruct (A k) as [Ak Bk].
  split; [destruct k; assumption|]. split; [reflexivity|]. split; [reflexivity|].
  split; [exact Pp|].
  assert (L : List.length (samples (plot_data (get_gen st k))) =
              List.length (time (plot_data (get_gen st k)))).
  { unfold samples. rewrite length_combine. unfold aligned in Ak. lia. }
  split; [lia|]. split; [unfold aligned in Ap, Ak; lia|].
  destruct C as [-> | ->]; [left; exact Pa|right].
  rewrite append_sample_samples in Pa by assumption. exact Pa.
Qed.

Lemma finalize_only_reorders_witness :
  let data :=
    JObj [("metadata", JObj [("duration", JInt 3000)]);
          ("data", JArr [mk_event (JInt 2000) "generator1" "intensity" (JInt 10) "state";
                         mk_event (JInt 1000) "generator1" "intensity" (JInt 90) "state"])] in
  exists st st',
    process_stimulation_data data = Ok st' /\
    Permutation (samples (plot_data (g1 st))) (samples (plot_data (g1 st'))) /\
    List.length (time (plot_data (g1 st'))) = 3%nat.
Proof.
  intros data.
  destruct (process_stimulation_data data) as [st'|] eqn:E; [|discriminate E].
  destruct (finalize_only_reorders data st' E)
    as [st [cur [total [D [_ [_ [_ H]]]]]]].
  destruct (H G1) as [_ [_ [_ [P [L _]]]]].
  exists st, st'. split; [reflexivity|]. split; [exact P|].
  cbn [get_gen] in L. rewrite L.
  vm_compute in D. injection D as <- _. reflexivity.
Defined.

(** ** The seed samples *)

(** Whatever the events, the finalised series of each channel still
    holds the sample seeded at time 0 with the initial base intensity,
    and its adjust series the sample seeded with the initial adjust
    value. *)
Theorem seed_samples_kept :
  forall data st',
    process_stimulation_data data = Ok st' ->
    exists st0,
      initial_state data = Ok st0 /\
      forall k,
        samples (plot_data (get_gen st0 k)) =
          [(JInt 0, base_intensity (get_gen st0 k))] /\
        samples (adjust_plot_data (get_gen st0 k)) =
          [(JInt 0, adjust_value (get_gen st0 k))] /\
        In (JInt 0, base_intensity (get_gen st0 k))
           (samples (plot_data (get_gen st' k))) /\
        In (JInt 0, adjust_value (get_gen st0 k))
           (samples (adjust_plot_data (get_gen st' k))).
Proof.
  intros data st' H. unfold process_stimulation_data in H.
  bind_inv H. destruct a as [st cur]. bind_inv H.
  destruct (dispatch_inv _ _ _ E) as [st0 [I U]].
  destruct (initial_state_shape _ _ I) as [A0 [_ S0]].
  destruct (update_samples _ _ U A0) as [A G].
  exists st0. split; [exact I|]. intros k.
  destruct (S0 k) as [Sp Sa]. destruct (G k) as [[l Hl] [l' Hl']].
  destruct (finalize_channel _ _ _ k H A) as [p [a' [adj [Gk [P [Q [C _]]]]]]].
  destruct (sort_plot_perm _ _ P) as [Pp _].
  destruct (sort_plot_perm _ _ Q) as [Pa _].
  rewrite Gk. cbn [plot_data adjust_plot_data].
  split; [exact Sp|]. split; [exact Sa|]. split.
  - eapply Permutation_in; [exact Pp|]. rewrite Hl, Sp. now left.
  - eapply Permutation_in; [exact Pa|].
    destruct C as [-> | ->].
    + rewrite Hl', Sa. now left.
    + rewrite append_sample_samples by apply A.
      apply in_or_app. left. rewrite Hl', Sa. now left.
Qed.

Lemma seed_samples_kept_witness :
  let data :=
    JObj [("initialContext",
           JObj [("generator1", JObj [("intensity", JInt 40); ("adjust", JInt 65)])]);
          ("data", JArr [mk_event (JInt (-20)) "generator1" "intensity" (JInt 60) "state";
                         mk_event (JInt (-10)) "generator1" "adjust" (JInt 5) "state"])] in
  exists st',
    process_stimulation_data data = Ok st' /\
    In (JInt 0, JInt 40) (samples (plot_data (g1 st'))) /\
    In (JInt 0, JInt 65) (samples (adjust_plot_data (g1 st'))).
Proof.
  intros data.
  destruct (process_stimulation_data data) as [st'|] eqn:E; [|discriminate E].
  destruct (seed_samples_kept data st' E) as [st0 [I H]].
  destruct (H G1) as [_ [_ [P A]]].
  vm_compute in I. injection I as <-.
  exists st'. split; [reflexivity|]. split; [exact P | exact A].
Defined.

(** ** The initial override state *)

(** The override state after initialisation from an object: every key
    that the object holds replaces the default, every other default is
    kept, and keys that the state does not know are not looked at. *)
Theorem load_boost_fields :
  forall bm b,
    load_boost boost_keys (JObj bm) b =
    Ok (mkBoost
          (match lookup "shockMode" bm with Some v => v | None => shockMode b end)
          (match lookup "channels" bm with Some v => v | None => channels b end)
          (match lookup "duration" bm with Some v => v | None => duration b end)
          (match lookup "offset" bm with Some v => v | None => offset b end)).
Proof.
  intros bm [s c d o]. unfold boost_keys.
  cbn [load_boost py_contains getitem_str bind].
  destruct (lookup "shockMode" bm), (lookup "channels" bm),
    (lookup "duration" bm), (lookup "offset" bm); reflexivity.
Qed.

(** A document without initial context starts from the defaults: base
    intensity 0 and adjust value 50, each seeded at time 0, shock mode
    off, no channel selected, a pulse of 0.1 s, no offset, no mode and no
    marker. *)
Theorem initial_state_defaults :
  forall m,
    lookup "initialContext" m = None ->
    initial_state (JObj m) =
    Ok (mkState
          (mkGenerator (JInt 0) (mkPlot [JInt 0] [JInt 0]) (JInt 50)
             (mkPlot [JInt 0] [JInt 50]))
          (mkGenerator (JInt 0) (mkPlot [JInt 0] [JInt 0]) (JInt 50)
             (mkPlot [JInt 0] [JInt 50]))
          (mkBoost (JBool false) (JArr [JBool false; JBool false])
             (JFloat float_0_1) (JInt 0))
          [] [] []).
Proof.
  intros m H. unfold initial_state. cbn [py_get bind]. rewrite H. reflexivity.
Qed.

Lemma initial_state_defaults_witness :
  exists st,
    initial_state (JObj [("data", JArr []); ("metadata", JObj [])]) = Ok st /\
    adjust_value (g2 st) = JInt 50.
Proof.
  eexists. split.
  - apply (initial_state_defaults [("data", JArr []); ("metadata", JObj [])]).
    reflexivity.
  - reflexivity.
Defined.

(** ** Fire pulses *)









(** ** Shock mode *)

Lemma step_shock_event st cur ts v ty :
  is_none ts = false ->
  step (st, cur) (mk_event ts "boost" "shockMode" v ty) =
  if negb (py_eq (shockMode (boost st)) v) then
    st1 <- shock_channel (set_boost st (set_boost_field (boost st) "shockMode" v))
             G1 ts v ;;
    st2 <- shock_channel st1 G2 ts v ;;
    Ok (st2, cur)
  else Ok (set_boost st (set_boost_field (boost st) "shockMode" v), cur).
Proof.
  intros H. unfold step, mk_event.
  cbn [py_get bind lookup String.eqb Ascii.eqb Bool.eqb]. rewrite H.
  reflexivity.
Qed.

Lemma step_generator_event st cur ts k field v ty :
  is_none ts = false ->
  step (st, cur) (mk_event ts (gen_name k) field v ty) =
  (st' <- generator_event st k ts (JArr [JStr (gen_name k); JStr field]) v ;;
   Ok (st', cur)).
Proof.
  intros H. unfold step, mk_event.
  cbn [py_get bind lookup String.eqb Ascii.eqb Bool.eqb]. rewrite H.
  destruct k; reflexivity.
Qed.

Lemma shock_channel_selected st k ts v c :
  getitem_int (channels (boost st)) (gen_index k) = Ok c ->
  shock_channel st k ts v =
  Ok (if truthy c
      then append_plot st k ts
             (if truthy v then JInt 0 else base_intensity (get_gen st k))
      else st).
Proof.
  intros H. unfold shock_channel. rewrite H. cbn [bind].
  destruct (truthy c), (truthy v); reflexivity.
Qed.

(** An intensity commanded while a channel is in shock surfaces when
    shock mode is left: entering shock mode at [t1], commanding [v] at
    [t2] and leaving shock mode at [t3] appends to the series of a
    selected channel the samples [(t1, 0)] and [(t3, v)], and nothing at
    [t2]. *)
Theorem shock_round_trip :
  forall st cur k t1 t2 t3 v ty c,
    is_mask (channels (boost st)) = true ->
    getitem_int (channels (boost st)) (gen_index k) = Ok c -> truthy c = true ->
    shockMode (boost st) = JBool false ->
    is_none t1 = false -> is_none t2 = false -> is_none t3 = false ->
    exists st',
      run_events (st, cur)
        [mk_event t1 "boost" "shockMode" (JBool true) ty;
         mk_event t2 (gen_name k) "intensity" v ty;
         mk_event t3 "boost" "shockMode" (JBool false) ty]
      = Ok (st', cur) /\
      plot_data (get_gen st' k) =
        append_sample (append_sample (plot_data (get_gen st k)) t1 (JInt 0)) t3 v /\
      base_intensity (get_gen st' k) = v /\
      shockMode (boost st') = JBool false /\
      channels (boost st') = channels (boost st).
Proof.
  intros st cur k t1 t2 t3 v ty c M C Tc Sh N1 N2 N3.
  destruct st as [ga gb [sm ch du off] m1 m2 fe]. cbn [boost shockMode channels] in *.
  subst sm.
  destruct ch as [| | | | |l|]; try discriminate.
  destruct l as [|x [|y l]]; try discriminate.
  cbn [run_events]. rewrite step_shock_event by assumption.
  change (py_eq (shockMode (boost
            (mkState ga gb (mkBoost (JBool false) (JArr (x :: y :: l)) du off)
               m1 m2 fe))) (JBool true)) with false.
  cbn [negb].
  rewrite (shock_channel_selected _ G1 t1 (JBool true) x) by reflexivity.
  cbn [bind].
  rewrite (shock_channel_selected _ G2 t1 (JBool true) y)
    by (destruct (truthy x); reflexivity).
  cbn [bind]. rewrite step_generator_event by assumption.
  assert (Tx : k = G1 -> truthy x = true)
    by (intros ->; cbn in C; injection C as <-; exact Tc).
  assert (Ty : k = G2 -> truthy y = true)
    by (intros ->; cbn in C; injection C as <-; exact Tc).
  clear C Tc M.
  destruct (truthy x) eqn:Ex, (truthy y) eqn:Ey, k;
    try (specialize (Tx eq_refl); discriminate);
    try (specialize (Ty eq_refl); discriminate).
  all: cbn -[truthy is_none step mk_event getitem_int]; rewrite ?Ex, ?Ey.
  all: unfold generator_event.
  all: change (getitem_int (JArr [JStr "generator1"; JStr "intensity"]) 1)
         with (Ok (A:=json) (JStr "intensity"));
       change (getitem_int (JArr [JStr "generator2"; JStr "intensity"]) 1)
         with (Ok (A:=json) (JStr "intensity")).
  all: cbn -[truthy is_none step mk_event getitem_int].
  all: change (truthy (JBool true)) with true;
       change (getitem_int (JArr (x :: y :: l)) 0) with (Ok (A:=json) x);
       change (getitem_int (JArr (x :: y :: l)) 1) with (Ok (A:=json) y).
  all: cbn -[truthy is_none step mk_event getitem_int]; rewrite ?Ex, ?Ey.
  all: cbn -[truthy is_none step mk_event getitem_int].
  all: rewrite step_shock_event by assumption.
  all: unfold shock_channel; cbn -[truthy is_none step mk_event getitem_int].
  all: change (getitem_int (JArr (x :: y :: l)) 0) with (Ok (A:=json) x);
       change (getitem_int (JArr (x :: y :: l)) 1) with (Ok (A:=json) y).
  all: cbn -[truthy is_none step mk_event getitem_int]; rewrite ?Ex, ?Ey.
  all: change (truthy (JBool false)) with false.
  all: cbn -[truthy is_none step mk_event getitem_int].
  all: change (getitem_int (JArr (x :: y :: l)) 1) with (Ok (A:=json) y).
  all: cbn -[truthy is_none step mk_event getitem_int]; rewrite ?Ex, ?Ey.
  all: cbn -[truthy is_none step mk_event getitem_int].
  all: eexists; split; [reflexivity|]; repeat split.
Qed.

Lemma shock_round_trip_witness :
  let st := mkState (mkGenerator (JInt 30) (mkPlot [JInt 0] [JInt 30]) (JInt 50)
                       (mkPlot [JInt 0] [JInt 50]))
              (mkGenerator (JInt 70) (mkPlot [JInt 0] [JInt 70]) (JInt 50)
                       (mkPlot [JInt 0] [JInt 50]))
              (mkBoost (JBool false) (JArr [JBool true; JBool false])
                 (JFloat float_0_1) (JInt 0))
              [] [] [] in
  exists st',
    run_events (st, [JBool true; JBool false])
      [mk_event (JInt 500) "boost" "shockMode" (JBool true) "state";
       mk_event (JInt 900) "generator1" "intensity" (JInt 55) "state";
       mk_event (JInt 1500) "boost" "shockMode" (JBool false) "state"]
    = Ok (st', [JBool true; JBool false]) /\
    plot_data (g1 st') = mkPlot [JInt 0; JInt 500; JInt 1500] [JInt 30; JInt 0; JInt 55].
Proof.
  intros st.
  destruct (shock_round_trip st [JBool true; JBool false] G1 (JInt 500) (JInt 900)
              (JInt 1500) (JInt 55) "state" (JBool true)
              eq_refl eq_refl eq_refl eq_refl eq_refl eq_refl eq_refl)
    as [st' [R [P _]]].
  exists st'. split; [exact R | exact P].
Defined.

(** ** What an event leaves alone *)

Lemma fire_channel_unselected st k ts c :
  getitem_int (channels (boost st)) (gen_index k) = Ok c -> truthy c = false ->
  fire_channel st k ts = Ok st.
Proof. intros H T. unfold fire_channel. rewrite H. cbn [bind]. now rewrite T. Qed.

Lemma shock_channel_gen st k ts v st' k' c :
  shock_channel st k ts v = Ok st' ->
  getitem_int (channels (boost st)) (gen_index k') = Ok c -> truthy c = false ->
  get_gen st' k' = get_gen st k'.
Proof.
  intros H C T.
  destruct k, k';
    try (rewrite (shock_channel_selected _ _ ts v c C), T in H;
         injection H as <-; reflexivity);
    apply shock_channel_inv in H; destruct H as [-> | [x ->]]; reflexivity.
Qed.

Lemma fire_channel_gen st k ts st' k' c :
  fire_channel st k ts = Ok st' ->
  getitem_int (channels (boost st)) (gen_index k') = Ok c -> truthy c = false ->
  get_gen st' k' = get_gen st k'.
Proof.
  intros H C T.
  destruct k, k';
    try (rewrite (fire_channel_unselected _ _ ts c C T) in H;
         injection H as <-; reflexivity);
    apply fire_channel_inv in H; destruct H as [-> | [v1 [t2 [v2 ->]]]]; reflexivity.
Qed.

(** An event of the override namespace never touches a channel that the
    mask does not select: its base intensity, adjust value and both
    series come out as they were. *)
Theorem override_spares_unselected :
  forall st cur m ts rest st' cur' k c,
    lookup "ts" m = Some ts -> is_none ts = false ->
    lookup "path" m = Some (JArr (JStr "boost" :: rest)) ->
    step (st, cur) (JObj m) = Ok (st', cur') ->
    getitem_int (channels (boost st)) (gen_index k) = Ok c -> truthy c = false ->
    get_gen st' k = get_gen st k.
Proof.
  intros st cur m ts rest st' cur' k c Hts Hn Hp S C T.
  unfold step in S. cbn [py_get bind] in S. rewrite Hts, Hp, Hn in S.
  cbn [truthy negb orb] in S.
  change (getitem_int (JArr (JStr "boost" :: rest)) 0)
    with (Ok (A:=json) (JStr "boost")) in S.
  cbn [bind] in S. change (py_eq (JStr "boost") (JStr "boost")) with true in S.
  cbn iota in S. unfold boost_event in S. bind_inv S.
  destruct (py_eq a (JStr "channels")).
  { bind_inv S. injection S as <- <-. destruct k; reflexivity. }
  bind_inv S. destruct a0.
  - destruct (py_eq a (JStr "shockMode") && _).
    + bind_inv S. bind_inv S. injection S as <- <-.
      pose proof (shock_channel_boost _ _ _ _ _ E1) as [B1 _].
      rewrite (shock_channel_gen _ _ _ _ _ k c E2) by (rewrite ?B1; assumption).
      rewrite (shock_channel_gen _ _ _ _ _ k c E1) by assumption.
      destruct k; reflexivity.
    + injection S as <- <-. destruct k; reflexivity.
  - destruct (py_eq a (JStr "fire") && _).
    + bind_inv S. bind_inv S. injection S as <- <-.
      pose proof (fire_channel_boost _ _ _ _ E1) as [B1 _].
      rewrite (fire_channel_gen _ _ _ _ k c E2) by (rewrite ?B1; assumption).
      rewrite (fire_channel_gen _ _ _ _ k c E1) by assumption.
      destruct k; reflexivity.
    + injection S as <- <-. reflexivity.
Qed.

Lemma override_spares_unselected_witness :
  let st := mkState (mkGenerator (JInt 30) (mkPlot [JInt 0] [JInt 30]) (JInt 50)
                       (mkPlot [JInt 0] [JInt 50]))
              (mkGenerator (JInt 70) (mkPlot [JInt 0] [JInt 70]) (JInt 50)
                       (mkPlot [JInt 0] [JInt 50]))
              (mkBoost (JBool false) (JArr [JBool true; JBool false])
                 (JFloat float_0_1) (JInt 5))
              [] [] [] in
  exists st',
    step (st, [JBool true; JBool false])
      (mk_event (JInt 2000) "boost" "fire" JNull "action")
    = Ok (st', [JBool true; JBool false]) /\
    g2 st' = g2 st.
Proof.
  intros st.
  destruct (step (st, [JBool true; JBool false])
              (mk_event (JInt 2000) "boost" "fire" JNull "action"))
    as [[st' cur']|] eqn:E; [|discriminate E].
  pose proof (override_spares_unselected st _
                [("ts", JInt 2000); ("path", JArr [JStr "boost"; JStr "fire"]);
                 ("value", JNull); ("type", JStr "action")]
                (JInt 2000) [JStr "fire"] st' cur' G2 (JBool false)
                eq_refl eq_refl eq_refl E eq_refl eq_refl) as H.
  exists st'. split; [|exact H].
  vm_compute in E. injection E as <- <-. reflexivity.
Defined.

(** An event of a channel changes that channel only: the other channel,
    the override state, the channel mask kept for the markers and the
    markers stay as they are, and so does the mode timeline of the other
    channel. *)
Theorem generator_event_is_local :
  forall st cur m ts k rest st' cur',
    lookup "ts" m = Some ts -> is_none ts = false ->
    lookup "path" m = Some (JArr (JStr (gen_name k) :: rest)) ->
    step (st, cur) (JObj m) = Ok (st', cur') ->
    cur' = cur /\ boost st' = boost st /\ fire_events st' = fire_events st /\
    forall k', k' <> k ->
      get_gen st' k' = get_gen st k' /\ modes_of st' k' = modes_of st k'.
Proof.
  intros st cur m ts k rest st' cur' Hts Hn Hp S.
  unfold step in S. cbn [py_get bind] in S. rewrite Hts, Hp, Hn in S.
  cbn [truthy negb orb] in S.
  change (getitem_int (JArr (JStr (gen_name k) :: rest)) 0)
    with (Ok (A:=json) (JStr (gen_name k))) in S.
  cbn [bind] in S.
  assert (S' : exists v,
             generator_event st k ts (JArr (JStr (gen_name k) :: rest)) v = Ok st' /\
             cur' = cur).
  { destruct k; cbn [gen_name] in S;
      change (py_eq (JStr "generator1") (JStr "boost")) with false in S;
      change (py_eq (JStr "generator2") (JStr "boost")) with false in S;
      change (py_eq (JStr "generator1") (JStr "generator1")) with true in S;
      change (py_eq (JStr "generator2") (JStr "generator1")) with false in S;
      change (py_eq (JStr "generator2") (JStr "generator2")) with true in S;
      cbn [orb] in S; cbn iota in S; bind_inv S; injection S as <- <-; eauto. }
  destruct S' as [v [G ->]].
  split; [reflexivity|].
  pose proof (generator_event_boost _ _ _ _ _ _ G) as [B F].
  split; [exact B|]. split; [exact F|].
  intros k' N. apply generator_event_inv in G.
  destruct G as [-> | [-> | [-> | [-> | ->]]]];
    destruct k, k'; try congruence; split; reflexivity.
Qed.

Lemma generator_event_is_local_witness :
  let st := mkState (mkGenerator (JInt 30) (mkPlot [JInt 0] [JInt 30]) (JInt 50)
                       (mkPlot [JInt 0] [JInt 50]))
              (mkGenerator (JInt 70) (mkPlot [JInt 0] [JInt 70]) (JInt 50)
                       (mkPlot [JInt 0] [JInt 50]))
              (mkBoost (JBool false) (JArr [JBool true; JBool false])
                 (JFloat float_0_1) (JInt 5))
              [] [] [] in
  exists st',
    step (st, []) (mk_event (JInt 10) "generator1" "adjust" (JInt 80) "state")
    = Ok (st', []) /\
    g2 st' = g2 st /\ boost st' = boost st.
Proof.
  intros st.
  destruct (step (st, []) (mk_event (JInt 10) "generator1" "adjust" (JInt 80) "state"))
    as [[st' cur']|] eqn:E; [|discriminate E].
  pose proof (generator_event_is_local st []
                [("ts", JInt 10); ("path", JArr [JStr "generator1"; JStr "adjust"]);
                 ("value", JInt 80); ("type", JStr "state")]
                (JInt 10) G1 [JStr "adjust"] st' cur'
                eq_refl eq_refl eq_refl E) as [-> [B [_ H]]].
  destruct (H G2 ltac:(discriminate)) as [G _].
  exists st'. split; [reflexivity|]. split; [exact G | exact B].
Defined.

(** ** Events that the loop drops *)

Lemma step_skipped sc e : skipped e = true -> step sc e = Ok sc.
Proof.
  destruct sc as [st cur]. destruct e as [| | | | | |m]; try discriminate.
  cbn [skipped]. intros H. unfold step. cbn [py_get bind]. now rewrite H.
Qed.

Lemma run_events_skipped events : forall sc,
  run_events sc (filter (fun e => negb (skipped e)) events) = run_events sc events.
Proof.
  induction events as [|e events IH]; intros sc; cbn [filter run_events]; auto.
  destruct (skipped e) eqn:S; cbn [negb run_events].
  - rewrite (step_skipped sc e S). cbn [bind]. apply IH.
  - destruct (step sc e); cbn [bind]; auto.
Qed.

Lemma filter_filter_comm {A : Type} (f g : A -> bool) l :
  filter f (filter g l) = filter g (filter f l).
Proof.
  induction l as [|x l IH]; auto. cbn [filter].
  destruct (f x) eqn:F, (g x) eqn:G; cbn [filter]; rewrite ?F, ?G, IH; reflexivity.
Qed.

Lemma StronglySorted_filter {A : Type} (R : A -> A -> Prop) (f : A -> bool) l :
  StronglySorted R l -> StronglySorted R (filter f l).
Proof.
  induction 1 as [|x l S IH F]; cbn [filter]; [constructor|].
  destruct (f x); auto. constructor; auto.
  rewrite Forall_forall in *. intros y Hy. apply filter_In in Hy. now apply F.
Qed.

(** Sorting by weight what a filter keeps gives what the filter keeps
    of the sorted list. *)
Lemma sorted_filter_keep {A : Type} (w : A -> PyNum.xval) (f : A -> bool) l s :
  sorted (weight_lt w) l = Ok s ->
  sorted (weight_lt w) (filter f l) = Ok (filter f s).
Proof.
  intros H. destruct (weight_sorted_ok w (filter f l)) as [s' E]. rewrite E. f_equal.
  apply (sorted_unique w).
  - now apply (weight_sorted w (filter f l)).
  - apply StronglySorted_filter. now apply (weight_sorted w l).
  - intros a. rewrite (sorted_filter w a _ _ E).
    rewrite (filter_filter_comm (same_weight w a) f s).
    rewrite (sorted_filter w a _ _ H). apply filter_filter_comm.
Qed.

Lemma sort_events_filter (f : json -> bool) events s :
  forallb has_real_key events = true ->
  sort_events events = Ok s ->
  sort_events (filter f events) = Ok (filter f s).
Proof.
  intros R H.
  assert (R' : forallb has_real_key (filter f events) = true).
  { rewrite forallb_forall in *. intros x Hx. apply filter_In in Hx. now apply R. }
  unfold sort_events in *. rewrite mapM_keyed in * by assumption. cbn [bind] in *.
  rewrite keyed_sort_weight in * by assumption.
  bind_inv H. injection H as <-.
  assert (M : map (fun x => (key_of x, x)) (filter f events)
            = filter (fun p => f (snd p)) (map (fun x => (key_of x, x)) events)).
  { now rewrite filter_map_comm. }
  rewrite M, (sorted_filter_keep keyed_weight (fun p => f (snd p)) _ _ E).
  cbn [bind]. now rewrite filter_map_comm.
Qed.

(** An event without a timestamp or without a path leaves no trace in
    the state that dispatch builds: the document without these events
    gives the same state and the same mask copy, or the same exception.
    The timestamps that are present are numbers. *)
Theorem skipped_events_leave_no_trace :
  forall rest events,
    forallb has_real_key events = true ->
    dispatch (with_events rest (filter (fun e => negb (skipped e)) events))
    = dispatch (with_events rest events).
Proof.
  intros rest events R. rewrite !dispatch_with_events.
  destruct (initial_state (JObj rest)) as [st0|]; cbn [bind]; auto.
  destruct (sort_events events) as [s|] eqn:E.
  - rewrite (sort_events_filter _ events s R E). cbn [bind].
    destruct (py_iter (channels (boost st0))); cbn [bind]; auto.
    apply run_events_skipped.
  - exfalso. unfold sort_events in E. rewrite mapM_keyed in E by assumption.
    cbn [bind] in E. rewrite keyed_sort_weight in E by assumption.
    destruct (weight_sorted_ok keyed_weight (map (fun x => (key_of x, x)) events))
      as [s Hs].
    rewrite Hs in E. discriminate E.
Qed.

Lemma skipped_events_leave_no_trace_witness :
  let a := mk_event (JInt 5) "generator1" "intensity" (JInt 60) "state" in
  let b := JObj [("path", JArr [JStr "generator1"; JStr "intensity"]); ("value", JInt 9)] in
  let c := JObj [("ts", JInt 7); ("path", JArr []); ("value", JInt 9)] in
  dispatch (with_events [] [a]) = dispatch (with_events [] [b; a; c]).
Proof.
  intros a b c.
  exact (skipped_events_leave_no_trace [] [b; a; c] eq_refl).
Defined.

(** ** Markers and mode changes come in the order of time *)

Lemma modes_of_append_plot st k k' t v : modes_of (append_plot st k t v) k' = modes_of st k'.
Proof. destruct k, k'; reflexivity. Qed.

Lemma shock_channel_modes st k ts v st' k' :
  shock_channel st k ts v = Ok st' -> modes_of st' k' = modes_of st k'.
Proof.
  intros H. apply shock_channel_inv in H. destruct H as [-> | [x ->]]; auto.
  apply modes_of_append_plot.
Qed.

Lemma fire_channel_modes st k ts st' k' :
  fire_channel st k ts = Ok st' -> modes_of st' k' = modes_of st k'.
Proof.
  intros H. apply fire_channel_inv in H.
  destruct H as [-> | [v1 [t2 [v2 ->]]]]; auto.
  now rewrite !modes_of_append_plot.
Qed.

(** An event that is dispatched carries its sort key as timestamp. *)
Lemma step_dispatched st cur e st' cur' :
  step (st, cur) e = Ok (st', cur') ->
  (st' = st /\ cur' = cur) \/
  exists m path v ty p0,
    e = JObj m /\ lookup "ts" m = Some (key_of e) /\ is_none (key_of e) = false /\
    getitem_int path 0 = Ok p0 /\
    (if py_eq p0 (JStr "boost") then
       boost_event st cur (key_of e) path v ty
     else if py_eq p0 (JStr "generator1") || py_eq p0 (JStr "generator2") then
       st <- generator_event st (if py_eq p0 (JStr "generator1") then G1 else G2)
               (key_of e) path v ;;
       Ok (st, cur)
     else Ok (st, cur)) = Ok (st', cur').
Proof.
  intros H. destruct e as [| | | | | |m]; try discriminate H.
  unfold step in H. cbn [py_get bind] in H.
  destruct (lookup "ts" m) as [ts|] eqn:T;
    [|cbn [is_none orb] in H; injection H as <- <-; auto].
  destruct (is_none ts) eqn:N; [injection H as <- <-; auto|].
  destruct (negb (truthy _)); cbn [orb] in H; [injection H as <- <-; auto|].
  bind_inv H. right.
  assert (K : key_of (JObj m) = ts).
  { unfold key_of. cbn [event_key py_get]. now rewrite T. }
  rewrite K. do 5 eexists. repeat split; eauto.
Qed.

Lemma step_markers st cur e st' cur' :
  step (st, cur) e = Ok (st', cur') ->
  exists l, fire_events st' = (fire_events st ++ l)%list /\
            Forall (fun f => fire_ts f = key_of e) l.
Proof.
  intros H. apply step_dispatched in H.
  destruct H as [[-> ->] | [m [path [v [ty [p0 [-> [T [N [P H]]]]]]]]]].
  { exists []. rewrite app_nil_r. auto. }
  destruct (py_eq p0 (JStr "boost")).
  - unfold boost_event in H. bind_inv H.
    destruct (py_eq a (JStr "channels")).
    { bind_inv H. injection H as <- <-. exists []. rewrite app_nil_r. auto. }
    bind_inv H. destruct a0.
    + destruct (py_eq a (JStr "shockMode") && _).
      * bind_inv H. bind_inv H. injection H as <- <-.
        apply shock_channel_boost in E1, E2.
        destruct E1 as [_ E1], E2 as [_ E2]. rewrite E2, E1.
        exists []. rewrite app_nil_r. auto.
      * injection H as <- <-. exists []. rewrite app_nil_r. auto.
    + destruct (py_eq a (JStr "fire") && _).
      * bind_inv H. bind_inv H. injection H as <- <-.
        apply fire_channel_boost in E1, E2.
        destruct E1 as [_ E1], E2 as [_ E2]. rewrite E2, E1.
        eexists. split; [reflexivity|]. repeat constructor.
      * injection H as <- <-. exists []. rewrite app_nil_r. auto.
  - destruct (_ || _).
    + bind_inv H. injection H as <- <-.
      apply generator_event_boost in E. destruct E as [_ E]. rewrite E.
      exists []. rewrite app_nil_r. auto.
    + injection H as <- <-. exists []. rewrite app_nil_r. auto.
Qed.

Lemma step_modes st cur e st' cur' k :
  step (st, cur) e = Ok (st', cur') ->
  exists l, modes_of st' k = (modes_of st k ++ l)%list /\
            Forall (fun x => mode_ts x = key_of e) l.
Proof.
  intros H. apply step_dispatched in H.
  destruct H as [[-> ->] | [m [path [v [ty [p0 [-> [T [N [P H]]]]]]]]]].
  { exists []. rewrite app_nil_r. auto. }
  destruct (py_eq p0 (JStr "boost")).
  - unfold boost_event in H. bind_inv H.
    destruct (py_eq a (JStr "channels")).
    { bind_inv H. injection H as <- <-. exists []. rewrite app_nil_r.
      destruct k; auto. }
    bind_inv H. destruct a0.
    + destruct (py_eq a (JStr "shockMode") && _).
      * bind_inv H. bind_inv H. injection H as <- <-.
        rewrite (shock_channel_modes _ _ _ _ _ k E2), (shock_channel_modes _ _ _ _ _ k E1).
        exists []. rewrite app_nil_r. destruct k; auto.
      * injection H as <- <-. exists []. rewrite app_nil_r. destruct k; auto.
    + destruct (py_eq a (JStr "fire") && _).
      * bind_inv H. bind_inv H. injection H as <- <-.
        rewrite (fire_channel_modes _ _ _ _ k E2), (fire_channel_modes _ _ _ _ k E1).
        exists []. rewrite app_nil_r. destruct k; auto.
      * injection H as <- <-. exists []. rewrite app_nil_r. auto.
  - destruct (_ || _).
    + bind_inv H. injection H as <- <-.
      apply generator_event_inv in E.
      destruct E as [-> | [-> | [-> | [-> | ->]]]];
        try (exists []; rewrite app_nil_r; split; [|constructor];
             destruct (py_eq p0 (JStr "generator1")), k; reflexivity).
      destruct (py_eq p0 (JStr "generator1")), k; cbn [modes_of append_mode modes_g1 modes_g2];
        first [ eexists; split; [reflexivity|]; repeat constructor
              | exists []; rewrite app_nil_r; split; [reflexivity | constructor] ].
    + injection H as <- <-. exists []. rewrite app_nil_r. auto.
Qed.

Lemma StronglySorted_app {A : Type} (R : A -> A -> Prop) l1 l2 :
  StronglySorted R l1 -> StronglySorted R l2 ->
  (forall x y, In x l1 -> In y l2 -> R x y) ->
  StronglySorted R (l1 ++ l2).
Proof.
  induction 1 as [|x l1 S IH F]; intros S2 H; cbn [app]; auto.
  constructor.
  - apply IH; auto. intros a b Ha Hb. apply H; auto. now right.
  - apply Forall_app. split; auto.
    apply Forall_forall. intros y Hy. apply H; auto. now left.
Qed.

Lemma StronglySorted_const {A : Type} (R : A -> A -> Prop) c l :
  R c c -> Forall (fun x => x = c) l -> StronglySorted R l.
Proof.
  intros Rc. induction 1 as [|x l -> F IH]; constructor; auto.
  rewrite Forall_forall in *. intros y Hy. now rewrite (F y Hy).
Qed.

(** A log of the state to which an event only appends entries stamped
    with its own timestamp is in the order of time after a run over
    events that are. *)
Section Logs.
Context {T : Type}.
Variable log : state -> list T.
Variable stamp : T -> json.
Hypothesis step_log : forall st cur e st' cur',
  step (st, cur) e = Ok (st', cur') ->
  exists l, log st' = (log st ++ l)%list /\ Forall (fun x => stamp x = key_of e) l.

Lemma run_events_log events : forall st cur st' cur',
  Forall (fun e => is_real (key_of e) = true) events ->
  nondecreasing (map key_of events) ->
  run_events (st, cur) events = Ok (st', cur') ->
  exists l, log st' = (log st ++ l)%list /\
            nondecreasing (map stamp l) /\
            Forall (fun x => In (stamp x) (map key_of events)) l.
Proof.
  induction events as [|e events IH]; intros st cur st' cur' R S H; cbn [run_events] in H.
  - injection H as <- <-. exists []. rewrite app_nil_r. repeat split; constructor.
  - bind_inv H. destruct a as [st1 cur1].
    inversion R as [|? ? Re R']; subst.
    cbn [map] in S. inversion S as [|? ? S' Hd]; subst.
    destruct (step_log _ _ _ _ _ E) as [l1 [L1 F1]].
    destruct (IH _ _ _ _ R' S' H) as [l2 [L2 [S2 F2]]].
    exists (l1 ++ l2)%list. rewrite L2, L1, <- app_assoc.
    split; [reflexivity|]. split.
    + rewrite map_app. apply StronglySorted_app; auto.
      * apply (StronglySorted_const _ (key_of e)).
        -- unfold time_le. rewrite (py_lt_weight _ _ Re Re).
           now rewrite XOrder.xltb_irrefl.
        -- apply Forall_forall. intros t Ht. apply in_map_iff in Ht.
           destruct Ht as [x [<- Hx]]. rewrite Forall_forall in F1. auto.
      * intros a b Ha Hb. apply in_map_iff in Ha, Hb.
        destruct Ha as [x [<- Hx]], Hb as [y [<- Hy]].
        rewrite Forall_forall in F1, F2, Hd.
        rewrite (F1 x Hx). apply Hd. now apply F2.
    + apply Forall_app. split.
      * apply Forall_forall. intros x Hx. rewrite Forall_forall in F1.
        left. symmetry. auto.
      * apply Forall_forall. intros x Hx. rewrite Forall_forall in F2.
        right. auto.
Qed.
End Logs.

(** The list that the event sort returns is in the order of time. *)
Lemma sort_events_sorted events s :
  forallb has_real_key events = true ->
  sort_events events = Ok s ->
  Permutation events s /\ nondecreasing (map key_of s).
Proof.
  intros R H. unfold sort_events in H. rewrite mapM_keyed in H by assumption.
  cbn [bind] in H. rewrite keyed_sort_weight in H by assumption.
  bind_inv H. injection H as <-.
  pose proof (sorted_perm _ _ _ E) as P.
  pose proof (weight_sorted keyed_weight _ _ E) as S.
  assert (F : Forall (fun p : json * json => fst p = key_of (snd p) /\
                                             has_real_key (snd p) = true) a).
  { apply Forall_forall. intros p Hp.
    apply (Permutation_in _ (Permutation_sym P)) in Hp.
    apply in_map_iff in Hp. destruct Hp as [x [<- Hx]]. cbn [fst snd].
    rewrite forallb_forall in R. auto. }
  split.
  - apply (Permutation_map snd) in P. rewrite map_map in P. cbn [snd] in P.
    now rewrite map_id in P.
  - clear E P. unfold nondecreasing.
    induction S as [|p a S IH Hd]; cbn [map]; constructor.
    + apply IH. now inversion F.
    + inversion F as [|? ? [Kp Rp] F']; subst.
      rewrite Forall_forall in *. intros t Ht.
      apply in_map_iff in Ht. destruct Ht as [e [<- He]].
      apply in_map_iff in He. destruct He as [q [<- Hq]].
      destruct (F' q Hq) as [Kq Rq]. specialize (Hd q Hq).
      unfold weight_le, keyed_weight in Hd. rewrite Kp, Kq in Hd.
      unfold time_le.
      rewrite py_lt_weight by (apply has_real_key_of; assumption).
      now rewrite Hd.
Qed.

Lemma dispatch_logs {T : Type} (log : state -> list T) (stamp : T -> json)
  rest events st cur :
  (forall st cur e st' cur',
      step (st, cur) e = Ok (st', cur') ->
      exists l, log st' = (log st ++ l)%list /\ Forall (fun x => stamp x = key_of e) l) ->
  forallb has_real_key events = true ->
  dispatch (with_events rest events) = Ok (st, cur) ->
  exists st0 l,
    initial_state (JObj rest) = Ok st0 /\
    log st = (log st0 ++ l)%list /\
    nondecreasing (map stamp l) /\
    Forall (fun x => exists e, In e events /\ stamp x = key_of e) l.
Proof.
  intros SL R H. rewrite dispatch_with_events in H. do 3 bind_inv H.
  destruct (sort_events_sorted _ _ R E0) as [P S].
  assert (R' : Forall (fun e => is_real (key_of e) = true) a0).
  { apply Forall_forall. intros e He.
    apply (Permutation_in _ (Permutation_sym P)) in He.
    rewrite forallb_forall in R. apply has_real_key_of; auto. }
  destruct (run_events_log log stamp SL a0 _ _ _ _ R' S H) as [l [L [S' F]]].
  exists a, l. repeat split; auto.
  apply Forall_forall. intros x Hx. rewrite Forall_forall in F.
  specialize (F x Hx). apply in_map_iff in F. destruct F as [e [K He]].
  exists e. split; auto.
  eapply Permutation_in; [apply Permutation_sym|]; eauto.
Qed.

(** The markers are recorded in the order of time: the timestamps of
    [fire_events] are non-decreasing, and each one is the timestamp of
    an event of the document.  The timestamps of the document are
    numbers. *)
Theorem markers_in_time_order :
  forall rest events st cur,
    forallb has_real_key events = true ->
    dispatch (with_events rest events) = Ok (st, cur) ->
    nondecreasing (map fire_ts (fire_events st)) /\
    Forall (fun f => exists e, In e events /\ fire_ts f = key_of e) (fire_events st).
Proof.
  intros rest events st cur R H.
  destruct (dispatch_logs fire_events fire_ts rest events st cur step_markers R H)
    as [st0 [l [I [L [S F]]]]].
  apply initial_state_shape in I. destruct I as [_ [I _]].
  rewrite I in L. cbn [app] in L. rewrite L. auto.
Qed.

Lemma markers_in_time_order_witness :
  let data := with_events
                [("initialContext",
                  JObj [("boost", JObj [("channels", JArr [JBool true; JBool false])])])]
                [mk_event (JInt 900) "boost" "fire" JNull "action";
                 mk_event (JInt 200) "boost" "fire" JNull "action"] in
  exists st cur,
    dispatch data = Ok (st, cur) /\
    map fire_ts (fire_events st) = [JInt 200; JInt 900] /\
    nondecreasing (map fire_ts (fire_events st)).
Proof.
  intros data.
  destruct (dispatch data) as [[st cur]|] eqn:E; [|discriminate E].
  pose proof (markers_in_time_order
                [("initialContext",
                  JObj [("boost", JObj [("channels", JArr [JBool true; JBool false])])])]
                [mk_event (JInt 900) "boost" "fire" JNull "action";
                 mk_event (JInt 200) "boost" "fire" JNull "action"]
                st cur eq_refl E) as [S _].
  exists st, cur. split; [reflexivity|]. split; [|exact S].
  vm_compute in E. injection E as <- _. reflexivity.
Defined.

(** The mode timeline of a channel is the entry of the initial mode, if
    there is one, followed by the mode changes in the order of time.
    When no event lies before time 0 the whole timeline is in the order
    of time. *)
Theorem mode_timeline_in_time_order :
  forall rest events st cur k,
    forallb has_real_key events = true ->
    dispatch (with_events rest events) = Ok (st, cur) ->
    exists st0 l,
      initial_state (JObj rest) = Ok st0 /\
      modes_of st k = (modes_of st0 k ++ l)%list /\
      nondecreasing (map mode_ts l) /\
      Forall (fun x => exists e, In e events /\ mode_ts x = key_of e) l /\
      Forall (fun x => mode_ts x = JInt 0) (modes_of st0 k) /\
      (List.length (modes_of st0 k) <= 1)%nat /\
      ((forall e, In e events -> time_le (JInt 0) (key_of e)) ->
       nondecreasing (map mode_ts (modes_of st k))).
Proof.
  intros rest events st cur k R H.
  destruct (dispatch_logs (fun st => modes_of st k) mode_ts rest events st cur
              (fun st cur e st' cur' S => step_modes st cur e st' cur' k S) R H)
    as [st0 [l [I [L [S F]]]]].
  exists st0, l. split; [exact I|]. split; [exact L|]. split; [exact S|].
  split; [exact F|].
  assert (M : modes_of st0 k = [] \/ exists md, modes_of st0 k = [mkMode (JInt 0) md]).
  { unfold initial_state in I. do 7 bind_inv I. do 4 bind_inv I. injection I as <-.
    destruct (truthy a8), (truthy a9), k; cbn; eauto. }
  split; [|split].
  - destruct M as [-> | [md ->]]; repeat constructor.
  - destruct M as [-> | [md ->]]; cbn; lia.
  - intros P. rewrite L.
    destruct M as [-> | [md ->]]; [exact S|].
    cbn [app map mode_ts]. constructor; [exact S|].
    apply Forall_forall. intros t Ht. apply in_map_iff in Ht.
    destruct Ht as [x [<- Hx]]. rewrite Forall_forall in F.
    destruct (F x Hx) as [e [He ->]]. now apply P.
Qed.

Lemma mode_timeline_in_time_order_witness :
  let data := with_events
                [("initialContext", JObj [("generator1", JObj [("mode", JInt 4)])])]
                [mk_event (JInt 900) "generator1" "mode" (JInt 2) "state";
                 mk_event (JInt 200) "generator1" "mode" (JInt 7) "state"] in
  exists st cur,
    dispatch data = Ok (st, cur) /\
    modes_g1 st = [mkMode (JInt 0) (JInt 4); mkMode (JInt 200) (JInt 7);
                   mkMode (JInt 900) (JInt 2)] /\
    nondecreasing (map mode_ts (modes_g1 st)).
Proof.
  intros data.
  destruct (dispatch data) as [[st cur]|] eqn:E; [|discriminate E].
  destruct (mode_timeline_in_time_order
              [("initialContext", JObj [("generator1", JObj [("mode", JInt 4)])])]
              [mk_event (JInt 900) "generator1" "mode" (JInt 2) "state";
               mk_event (JInt 200) "generator1" "mode" (JInt 7) "state"]
              st cur G1 eq_refl E)
    as [st0 [l [_ [_ [_ [_ [_ [_ S]]]]]]]].
  exists st, cur. split; [reflexivity|]. split.
  - vm_compute in E. injection E as <- _. reflexivity.
  - apply S. intros e [<- | [<- | []]]; reflexivity.
Defined.

(** ** The adjust series reaches the end of the session *)

Lemma py_last_in (l : list json) t : py_last l = Ok t -> In t l.
Proof.
  destruct l as [|x l]; [discriminate|].
  destruct (@exists_last _ (x :: l)) as [l' [u E]]; [discriminate|].
  rewrite E, py_last_snoc. intros H. injection H as <-.
  apply in_or_app. right. now left.
Qed.

Lemma time_le_refl t : is_real t = true -> time_le t t.
Proof.
  intros R. unfold time_le. rewrite (py_lt_weight _ _ R R).
  now rewrite XOrder.xltb_irrefl.
Qed.

Lemma map_fst_samples {A B : Type} (a : list A) (b : list B) :
  List.length a = List.length b -> map fst (combine a b) = a.
Proof.
  revert b. induction a as [|x a IH]; intros [|y b] H; simpl in *;
    try discriminate; auto.
  f_equal. apply IH. now injection H.
Qed.

Lemma StronglySorted_snoc_inv {A : Type} (R : A -> A -> Prop) l u :
  StronglySorted R (l ++ [u]) -> Forall (fun x => R x u) l.
Proof.
  induction l as [|x l IH]; cbn [app]; intros H; constructor;
    inversion H as [|? ? S F]; subst.
  - rewrite Forall_forall in F. apply F. apply in_or_app. right. now left.
  - now apply IH.
Qed.

Lemma sorted_last (l : list json) t :
  nondecreasing l -> Forall (fun x => is_real x = true) l -> In t l ->
  exists u, py_last l = Ok u /\ time_le t u /\ is_real u = true.
Proof.
  intros S R I. destruct l as [|x l]; [destruct I|].
  destruct (@exists_last _ (x :: l)) as [l' [u E]]; [discriminate|].
  rewrite E in *. exists u. split; [apply py_last_snoc|].
  apply Forall_app in R. destruct R as [_ R]. inversion R as [|? ? Ru _]; subst.
  split; [|exact Ru].
  apply in_app_or in I. destruct I as [I | [<- | []]].
  - apply StronglySorted_snoc_inv in S. rewrite Forall_forall in S. now apply S.
  - now apply time_le_refl.
Qed.

Lemma extend_adjust_reach st k total st' :
  extend_adjust st k total = Ok st' ->
  plot_ok (adjust_plot_data (get_gen st k)) -> is_real total = true ->
  update st st' /\
  (forall k', k' <> k -> get_gen st' k' = get_gen st k') /\
  exists t, In t (time (adjust_plot_data (get_gen st' k))) /\ time_le total t.
Proof.
  unfold extend_adjust. intros H [_ [_ [N _]]] R.
  destruct (time (adjust_plot_data (get_gen st k))) as [|t0 ts] eqn:T; [congruence|].
  do 2 bind_inv H. destruct a0; injection H as <-.
  - split; [repeat constructor|]. split.
    + intros k' D. destruct k, k'; congruence || reflexivity.
    + exists total. split; [|now apply time_le_refl].
      destruct k; cbn [append_adjust get_gen set_gen g1 g2 adjust_plot_data
                       append_sample time];
        apply in_or_app; right; now left.
  - split; [constructor|]. split; [auto|].
    exists a. split; [|exact E0]. rewrite T. now apply py_last_in.
Qed.

Lemma sort_plot_last p p' total t :
  sort_plot p = Ok p' -> plot_ok p -> aligned p ->
  In t (time p) -> time_le total t -> is_real total = true ->
  exists u, py_last (time p') = Ok u /\ time_le total u.
Proof.
  intros H P A I L R.
  destruct (sort_plot_ok p P) as [p'' [H' S]].
  rewrite H in H'. injection H' as <-.
  destruct (sort_plot_perm _ _ H) as [Pm [_ A']].
  apply (Permutation_map fst) in Pm. unfold samples in Pm.
  rewrite !map_fst_samples in Pm by assumption.
  destruct P as [T _].
  assert (T' : Forall (fun x => is_real x = true) (time p')).
  { rewrite Forall_forall in *. intros x Hx. apply T.
    eapply Permutation_in; [apply Permutation_sym|]; eauto. }
  destruct (sorted_last (time p') t S T') as [u [U [Lu Ru]]].
  { eapply Permutation_in; eauto. }
  exists u. split; [exact U|].
  rewrite Forall_forall in T.
  apply (time_le_trans total t u); auto.
Qed.

Lemma finalize_reach st total st' k :
  finalize st total = Ok st' -> st_ok st -> st_aligned st -> is_real total = true ->
  exists u, py_last (time (adjust_plot_data (get_gen st' k))) = Ok u /\ time_le total u.
Proof.
  unfold finalize. intros H S A R. do 3 bind_inv H.
  destruct (extend_adjust_ok st G1 total S R) as [x [X S1]].
  rewrite E in X. injection X as <-.
  destruct (extend_adjust_ok a G2 total S1 R) as [x [X S2]].
  rewrite E0 in X. injection X as <-.
  destruct (extend_adjust_reach _ _ _ _ E (proj2 (proj2 (proj2 (proj1 S G1)))) R)
    as [U1 [O1 [t1 [I1 L1]]]].
  destruct (extend_adjust_reach _ _ _ _ E0 (proj2 (proj2 (proj2 (proj1 S1 G2)))) R)
    as [U2 [O2 [t2 [I2 L2]]]].
  pose proof (proj1 (update_samples _ _ U1 A)) as A1.
  pose proof (proj1 (update_samples _ _ U2 A1)) as A2.
  apply sort_generator_inv in E1, H.
  destruct E1 as [p1 [a1' [P1 [Q1 ->]]]], H as [p2 [a2' [P2 [Q2 ->]]]].
  cbn [get_gen set_gen g1 g2] in Q2.
  destruct k; cbn [get_gen set_gen g1 g2 adjust_plot_data].
  - apply (sort_plot_last (adjust_plot_data (get_gen a0 G1)) a1' total t1); auto.
    + exact (proj2 (proj2 (proj2 (proj1 S2 G1)))).
    + exact (proj2 (A2 G1)).
    + rewrite (O2 G1) by discriminate. exact I1.
  - apply (sort_plot_last (adjust_plot_data (get_gen a0 G2)) a2' total t2); auto.
    + exact (proj2 (proj2 (proj2 (proj1 S2 G2)))).
    + exact (proj2 (A2 G2)).
Qed.

(** For a document of the shape of section 6 the adjust series of each
    channel reaches the end of the session: its last sample lies at the
    session end or after it. *)
Theorem adjust_series_reaches_session_end :
  forall data,
    wf_document data = true ->
    exists st total,
      process_stimulation_data data = Ok st /\
      session_end data = Ok total /\
      forall k, exists u,
        py_last (time (adjust_plot_data (get_gen st k))) = Ok u /\
        time_le total u.
Proof.
  intros data W.
  destruct (dispatch_ok data W) as [st1 [cur [D S]]].
  destruct (session_end_ok data W) as [total [T R]].
  destruct (dispatch_inv _ _ _ D) as [st0 [I U]].
  pose proof (proj1 (initial_state_shape _ _ I)) as A0.
  pose proof (proj1 (update_samples _ _ U A0)) as A1.
  destruct (finalize_ok st1 total S R) as [st [F _]].
  exists st, total. split; [|split; [exact T|]].
  - unfold process_stimulation_data. rewrite D. cbn [bind]. rewrite T. cbn [bind]. exact F.
  - intros k. now apply (finalize_reach st1 total st k).
Qed.

Lemma adjust_series_reaches_session_end_witness :
  let data := JObj [("metadata", JObj [("duration", JInt 5000)]);
                    ("data", JArr [mk_event (JInt 100) "generator1" "adjust" (JInt 70)
                                     "state"])] in
  exists st,
    process_stimulation_data data = Ok st /\
    time (adjust_plot_data (g1 st)) = [JInt 0; JInt 100; JInt 5000] /\
    exists u, py_last (time (adjust_plot_data (g1 st))) = Ok u /\ time_le (JInt 5000) u.
Proof.
  intros data.
  destruct (adjust_series_reaches_session_end data eq_refl) as [st [total [P [T H]]]].
  exists st. split; [exact P|].
  assert (E : total = JInt 5000) by (vm_compute in T; now injection T).
  subst total. split.
  - vm_compute in P. injection P as <-. reflexivity.
  - exact (H G1).
Defined.

(** * Properties of the drawing *)

(** ** The bars of a mode timeline *)

Example float_2_valid : valid_binary PyNum.prec PyNum.emax float_2 = true.
Proof. reflexivity. Qed.

Lemma py_sub_int a b : py_sub (JInt a) (JInt b) = Ok (JInt (a - b)).
Proof. reflexivity. Qed.

Lemma py_le_int_int d z : py_le_int (JInt d) z = Ok (d <=? z).
Proof.
  unfold py_le_int. cbn [as_num num_val PyNum.xltb]. rewrite Qcompare_inject_Z.
  f_equal. rewrite (Z.compare_antisym d z). unfold Z.leb.
  destruct (d ?= z); reflexivity.
Qed.

Lemma hd_in_snoc (l : list Z) T : In (hd T l) (l ++ [T]).
Proof. destruct l; cbn; auto. Qed.

(** On a timeline of integer timestamps in the order of time that ends
    no later than the session, the bars that are drawn lie end to end
    from the first entry to the end of the session: each has a positive
    duration and starts where the bar before it ends.  An entry that is
    replaced at its own timestamp gets no bar. *)
Theorem mode_bars_end_to_end :
  forall seeded_color (entries : list (Z * json)) T mode_map color_map bars color_map',
    StronglySorted Z.le (map fst entries ++ [T]) ->
    mode_bars seeded_color (map (fun e => mkMode (JInt (fst e)) (snd e)) entries)
      (JInt T) mode_map color_map = Ok (bars, color_map') ->
    exists spans,
      map (fun b => (start_ts b, duration_ts b)) bars = map span_of spans /\
      end_to_end (hd T (map fst entries)) spans T.
Proof.
  intros seeded entries T mm.
  induction entries as [|[t m] entries IH]; intros cm bars cm' S H.
  - injection H as <- <-. exists []. split; reflexivity.
  - cbn [map fst snd app] in S. inversion S as [|? ? S' F]; subst.
    cbn [map mode_bars fst snd mode_ts mode hd] in H |- *.
    assert (E : match map (fun e => mkMode (JInt (fst e)) (snd e)) entries with
                | [] => JInt T
                | next :: _ => mode_ts next
                end = JInt (hd T (map fst entries))).
    { destruct entries as [|[t' m'] entries]; reflexivity. }
    rewrite E in H. rewrite py_sub_int in H. cbn [bind] in H.
    rewrite py_le_int_int in H. cbn [bind] in H.
    assert (L : t <= hd T (map fst entries)).
    { rewrite Forall_forall in F. apply F. apply hd_in_snoc. }
    destruct (hd T (map fst entries) - t <=? 0) eqn:C.
    + apply Z.leb_le in C.
      destruct (IH _ _ _ S' H) as [spans [M P]].
      exists spans. split; [exact M|].
      replace t with (hd T (map fst entries)) by lia. exact P.
    + apply Z.leb_gt in C.
      bind_inv H. bind_inv H. destruct a0 as [color cm1].
      bind_inv H. bind_inv H. bind_inv H. destruct a2 as [bars' cm2].
      injection H as <- <-.
      destruct (IH _ _ _ S' E4) as [spans [M P]].
      exists ((t, hd T (map fst entries) - t) :: spans).
      cbn [map start_ts duration_ts span_of fst snd end_to_end].
      rewrite M. split; [reflexivity|].
      split; [reflexivity|]. split; [lia|].
      replace (t + (hd T (map fst entries) - t)) with (hd T (map fst entries)) by lia.
      exact P.
Qed.

Lemma mode_bars_end_to_end_witness :
  let modes := [mkMode (JInt 0) (JInt 4); mkMode (JInt 200) (JInt 7);
                mkMode (JInt 200) (JInt 8); mkMode (JInt 900) (JInt 2)] in
  exists bars color_map spans,
    mode_bars (fun _ => "#808080") modes (JInt 1000) [(JInt 4, JStr "Wave")] []
    = Ok (bars, color_map) /\
    List.length bars = 3%nat /\
    map (fun b => (start_ts b, duration_ts b)) bars = map span_of spans /\
    end_to_end 0 spans 1000.
Proof.
  intros modes.
  destruct (mode_bars (fun _ => "#808080") modes (JInt 1000) [(JInt 4, JStr "Wave")] [])
    as [[bars cm]|] eqn:E; [|discriminate E].
  assert (S : StronglySorted Z.le
                (map fst [(0, JInt 4); (200, JInt 7); (200, JInt 8); (900, JInt 2)]
                 ++ [1000])).
  { cbn [map fst app].
    repeat first [ apply SSorted_nil | apply SSorted_cons
                 | apply Forall_nil | apply Forall_cons; [lia|] ]. }
  destruct (mode_bars_end_to_end (fun _ => "#808080")
              [(0, JInt 4); (200, JInt 7); (200, JInt 8); (900, JInt 2)]
              1000 [(JInt 4, JStr "Wave")] [] bars cm S E) as [spans [M P]].
  exists bars, cm, spans. split; [reflexivity|].
  split; [|split; [exact M | exact P]].
  vm_compute in E. injection E as <- _. reflexivity.
Defined.

(** ** Markers are drawn where the pulses are *)

Lemma fire_channel_cases st k ts st' c :
  fire_channel st k ts = Ok st' ->
  getitem_int (channels (boost st)) (gen_index k) = Ok c ->
  (truthy c = true /\
   exists v1 t2 v2, st' = append_plot (append_plot st k ts v1) k t2 v2) \/
  (truthy c = false /\ st' = st).
Proof.
  unfold fire_channel. intros H C. rewrite C in H. cbn [bind] in H.
  destruct (truthy c); [left | right; injection H as <-; auto].
  split; [reflexivity|].
  destruct (truthy (shockMode (boost st))).
  - bind_inv H. bind_inv H. injection H as <-. eauto.
  - bind_inv H. bind_inv H. bind_inv H. bind_inv H. injection H as <-. eauto.
Qed.

Lemma mask_items ch cur i c :
  py_iter ch = Ok cur -> getitem_int ch i = Ok c -> nth_index cur i = Ok c.
Proof.
  destruct ch; try discriminate; cbn [py_iter getitem_int];
    intros H; injection H as <-; auto.
Qed.

(** The marker of a fire event is drawn on the axis of a channel
    exactly when the event puts a pulse on the series of that channel:
    on the axes of the marker the series gets two samples, the first at
    the time of the event, and on the other axes it stays as it is.
    The fire event comes at any point of a run of the event loop. *)
Theorem marker_drawn_where_pulse_is :
  forall data st0 cur0 before st cur m ts rest st' cur',
    initial_state data = Ok st0 ->
    py_iter (channels (boost st0)) = Ok cur0 ->
    run_events (st0, cur0) before = Ok (st, cur) ->
    lookup "ts" m = Some ts -> is_none ts = false ->
    lookup "path" m = Some (JArr (JStr "boost" :: JStr "fire" :: rest)) ->
    lookup "type" m = Some (JStr "action") ->
    step (st, cur) (JObj m) = Ok (st', cur') ->
    exists axes,
      fire_events st' = (fire_events st ++ [mkFire ts cur])%list /\
      marker_axes (mkFire ts cur) = Ok axes /\
      forall k,
        (In k axes /\
         exists v1 t2 v2,
           plot_data (get_gen st' k) =
             append_sample (append_sample (plot_data (get_gen st k)) ts v1) t2 v2) \/
        (~ In k axes /\ plot_data (get_gen st' k) = plot_data (get_gen st k)).
Proof.
  intros data st0 cur0 before st cur m ts rest st' cur' _ I0 R Hts Hn Hp Hty S.
  pose proof (run_events_tracks_mask _ _ _ _ _ R I0) as I.
  assert (S' : step (st, cur) (JObj m) =
                (st <- fire_channel (append_fire st ts cur) G1 ts ;;
                 st <- fire_channel st G2 ts ;; Ok (st, cur))).
  { unfold step. cbn [py_get bind]. rewrite Hts, Hp, Hty, Hn. reflexivity. }
  rewrite S' in S. clear S'. bind_inv S. bind_inv S. injection S as <- <-.
  pose proof (fire_channel_boost _ _ _ _ E) as [B1 F1].
  pose proof (fire_channel_boost _ _ _ _ E0) as [B2 F2].
  assert (C0 : exists c0, getitem_int (channels (boost st)) 0 = Ok c0).
  { unfold fire_channel in E. bind_inv E. eauto. }
  assert (C1 : exists c1, getitem_int (channels (boost st)) 1 = Ok c1).
  { unfold fire_channel in E0. bind_inv E0. rewrite B1 in E1. eauto. }
  destruct C0 as [c0 C0], C1 as [c1 C1].
  pose proof (fire_channel_cases _ G1 _ _ c0 E C0) as K1.
  assert (C1' : getitem_int (channels (boost a)) (gen_index G2) = Ok c1)
    by (rewrite B1; exact C1).
  pose proof (fire_channel_cases _ G2 _ _ c1 E0 C1') as K2.
  exists ((if truthy c0 then [G1] else []) ++ (if truthy c1 then [G2] else []))%list.
  split; [rewrite F2, F1; reflexivity|]. split.
  { unfold marker_axes. cbn [fire_channels].
    rewrite (mask_items _ _ _ _ I C0), (mask_items _ _ _ _ I C1). reflexivity. }
  intros k.
  destruct K1 as [[T0 [v1 [t2 [v2 ->]]]] | [T0 ->]],
           K2 as [[T1 [w1 [u2 [w2 ->]]]] | [T1 ->]];
    rewrite T0, T1; destruct k;
    cbn [app In get_gen append_plot set_gen g1 g2 plot_data append_fire];
    first [ left; split; [tauto|]; do 3 eexists; reflexivity
          | right; split; [intuition discriminate | reflexivity] ].
Qed.

Lemma marker_drawn_where_pulse_is_witness :
  let data := JObj [("initialContext",
                     JObj [("boost", JObj [("channels", JArr [JBool true; JBool true])])])] in
  let before := [mk_event (JInt 10) "boost" "channels" (JArr [JBool false; JBool true])
                   "state"] in
  let fire := mk_event (JInt 2000) "boost" "fire" JNull "action" in
  exists st0 st st' axes,
    initial_state data = Ok st0 /\
    run_events (st0, [JBool true; JBool true]) before = Ok (st, [JBool false; JBool true]) /\
    step (st, [JBool false; JBool true]) fire = Ok (st', [JBool false; JBool true]) /\
    marker_axes (mkFire (JInt 2000) [JBool false; JBool true]) = Ok axes /\
    axes = [G2] /\
    plot_data (g1 st') = plot_data (g1 st).
Proof.
  intros data before fire.
  destruct (initial_state data) as [st0|] eqn:E0; [|discriminate E0].
  assert (I0 : py_iter (channels (boost st0)) = Ok [JBool true; JBool true]).
  { vm_compute in E0. injection E0 as <-. reflexivity. }
  destruct (run_events (st0, [JBool true; JBool true]) before)
    as [[st cur]|] eqn:E1;
    [|vm_compute in E0; injection E0 as <-; discriminate E1].
  assert (C1 : cur = [JBool false; JBool true]).
  { vm_compute in E0. injection E0 as <-. vm_compute in E1. now injection E1. }
  subst cur.
  destruct (step (st, [JBool false; JBool true]) fire) as [[st' cur']|] eqn:E2;
    [|vm_compute in E0; injection E0 as <-; vm_compute in E1; injection E1 as <-;
      discriminate E2].
  assert (C2 : cur' = [JBool false; JBool true]).
  { vm_compute in E0. injection E0 as <-. vm_compute in E1. injection E1 as <-.
    vm_compute in E2. now injection E2. }
  subst cur'.
  destruct (marker_drawn_where_pulse_is data st0 [JBool true; JBool true] before
              st [JBool false; JBool true]
              [("ts", JInt 2000); ("path", JArr [JStr "boost"; JStr "fire"]);
               ("value", JNull); ("type", JStr "action")]
              (JInt 2000) [] st' [JBool false; JBool true]
              E0 I0 E1 eq_refl eq_refl eq_refl eq_refl E2)
    as [axes [_ [A H]]].
  exists st0, st, st', axes.
  split; [reflexivity|]. split; [exact E1|]. split; [exact E2|].
  split; [exact A|].
  assert (X : axes = [G2]) by (vm_compute in A; now injection A).
  split; [exact X|].
  destruct (H G1) as [[I _] | [_ P]]; [|exact P].
  rewrite X in I. destruct I as [I | []]. discriminate I.
Defined.

(** * Properties of the command line *)

(** The program writes an image only when every stage has succeeded:
    two arguments are given, the file is read as a document, the engine
    and the drawing return and [savefig] writes the file.  The image is
    then the file named by the second argument, the exit status is 0
    and the two progress lines are all that is printed.  In every other
    case no image is written. *)
Theorem image_written_only_on_success :
  forall draw savefig argv file p,
    image (main draw savefig argv file) = Some p <->
    exists prog f rest data st,
      argv = prog :: f :: p :: rest /\ file = Loaded data /\
      process_stimulation_data data = Ok st /\
      draw data st = Ok tt /\ savefig p = Ok tt /\
      main draw savefig argv file =
        mkOutcome ["Saving plot to " ++ p ++ "..."; "Done."] (Some p) 0.
Proof.
  intros draw savefig argv file p. split.
  - destruct argv as [|prog [|f [|o rest]]]; try discriminate.
    cbn [main]. unfold plot_stimulation_data.
    destruct file as [| | |data]; try discriminate.
    destruct (process_stimulation_data data) as [st|] eqn:P; try discriminate.
    destruct (draw data st) as [[]|] eqn:D; try discriminate.
    destruct (savefig o) as [[]|] eqn:V; try discriminate.
    cbn [image app]. intros H. injection H as <-.
    exists prog, f, rest, data, st. repeat split; auto.
  - intros [prog [f [rest [data [st [-> [-> [P [D [V H]]]]]]]]]].
    now rewrite H.
Qed.

Lemma image_written_only_on_success_witness :
  main (fun _ _ => Ok tt) (fun _ => Ok tt) ["plot_hsr.py"; "in.json"; "out.png"]
    (Loaded (JObj []))
  = mkOutcome ["Saving plot to out.png..."; "Done."] (Some "out.png") 0.
Proof.
  destruct (proj1 (image_written_only_on_success (fun _ _ => Ok tt) (fun _ => Ok tt)
                     ["plot_hsr.py"; "in.json"; "out.png"] (Loaded (JObj [])) "out.png")
              eq_refl)
    as [prog [f [rest [data [st [_ [_ [_ [_ [_ H]]]]]]]]]].
  exact H.
Defined.

(** * Properties of the dictionaries of the drawing *)

Lemma key_eq_class a b :
  hashable a = true -> hashable b = true ->
  key_eq a b = same_class (class_of a) (class_of b).
Proof.
  intros Ha Hb. unfold key_eq.
  destruct a as [|x|x|f|s|l|m]; try discriminate;
    destruct b as [|y|y|g|t|l2|m2]; try discriminate;
    cbn [py_eq as_num is_nan_value class_of jval num_val andb orb same_class];
    unfold num_eq; cbn [num_val];
    rewrite ?orb_false_r; try reflexivity;
    try (destruct f); try (destruct g);
    cbn [PyNum.float_val is_nan same_class andb orb];
    rewrite ?orb_false_r; reflexivity.
Qed.

Lemma same_class_refl c : c <> KOther -> same_class c c = true.
Proof.
  destruct c; cbn [same_class]; intros H;
    first [ reflexivity | apply String.eqb_refl | apply XOrder.xeqb_refl | congruence ].
Qed.

Lemma same_class_sym a b : same_class a b = same_class b a.
Proof.
  destruct a, b; cbn; auto.
  - apply String.eqb_sym.
  - apply XOrder.xeqb_sym.
Qed.

Lemma same_class_trans a b c :
  same_class a b = true -> same_class b c = true -> same_class a c = true.
Proof.
  destruct a, b; try discriminate; destruct c; try discriminate; cbn; auto.
  - intros H1 H2. apply String.eqb_eq in H1, H2. subst. apply String.eqb_refl.
  - apply XOrder.xeqb_trans.
Qed.

Lemma class_of_hashable k : hashable k = true -> class_of k <> KOther.
Proof.
  destruct k; try discriminate; cbn [class_of]; try discriminate;
    intros _; destruct (jval _); discriminate.
Qed.

Lemma key_eq_refl k : hashable k = true -> key_eq k k = true.
Proof.
  intros H. rewrite key_eq_class by assumption.
  apply same_class_refl. now apply class_of_hashable.
Qed.

Lemma key_eq_sym a b :
  hashable a = true -> hashable b = true -> key_eq a b = key_eq b a.
Proof. intros. rewrite !key_eq_class by assumption. apply same_class_sym. Qed.

Lemma key_eq_trans a b c :
  hashable a = true -> hashable b = true -> hashable c = true ->
  key_eq a b = true -> key_eq b c = true -> key_eq a c = true.
Proof. intros ? ? ?. rewrite !key_eq_class by assumption. apply same_class_trans. Qed.

(** Two keys that are the same find the same entry. *)
Lemma dict_find_same {V : Type} (d : list (json * V)) k k' :
  keys_hashable d -> hashable k = true -> hashable k' = true ->
  key_eq k k' = true -> dict_find d k = dict_find d k'.
Proof.
  intros K Hk Hk' E. induction K as [|[k0 v0] d H0 K IH]; auto.
  cbn [dict_find fst] in *. rewrite IH.
  destruct (key_eq k0 k) eqn:A, (key_eq k0 k') eqn:B; auto.
  - rewrite (key_eq_trans k0 k k') in B by assumption. discriminate.
  - rewrite (key_eq_sym k k') in E by assumption.
    rewrite (key_eq_trans k0 k' k) in A by assumption. discriminate.
Qed.

(** Lookup after an assignment. *)
Lemma dict_find_put {V : Type} (d : list (json * V)) k v k' :
  keys_hashable d -> hashable k = true -> hashable k' = true ->
  dict_find (dict_put d k v) k' = if key_eq k k' then Some v else dict_find d k'.
Proof.
  intros K Hk Hk'. induction K as [|[k0 v0] d H0 K IH]; [reflexivity|].
  cbn [dict_put dict_find fst] in *.
  destruct (key_eq k0 k) eqn:A; cbn [dict_find].
  - destruct (key_eq k k') eqn:B.
    + now rewrite (key_eq_trans k0 k k') by assumption.
    + destruct (key_eq k0 k') eqn:C; auto.
      rewrite (key_eq_sym k0 k) in A by assumption.
      rewrite (key_eq_trans k k0 k') in B by assumption. discriminate.
  - destruct (key_eq k0 k') eqn:C; [|exact IH].
    destruct (key_eq k k') eqn:B; auto.
    rewrite (key_eq_sym k k') in B by assumption.
    rewrite (key_eq_trans k0 k' k) in A by assumption. discriminate.
Qed.

Lemma dict_put_hashable {V : Type} (d : list (json * V)) k v :
  keys_hashable d -> hashable k = true -> keys_hashable (dict_put d k v).
Proof.
  intros K Hk. induction K as [|[k0 v0] d H0 K IH]; cbn [dict_put].
  - repeat constructor. exact Hk.
  - destruct (key_eq k0 k); constructor; auto.
Qed.

(** ** The titles of the modes *)

Lemma fold_raise {A B : Type} (f : result A -> B -> result A) l e :
  (forall b, f (Raise e) b = Raise e) -> fold_left f l (Raise e) = Raise e.
Proof. intros H. induction l as [|b l IH]; cbn; auto. now rewrite H. Qed.

Lemma find_snoc {A : Type} (p : A -> bool) l x :
  find p (l ++ [x]) =
  match find p l with
  | Some y => Some y
  | None => if p x then Some x else None
  end.
Proof.
  induction l as [|y l IH]; cbn [app find]; [reflexivity|].
  destruct (p y); auto.
Qed.

Lemma mode_map_fold items : forall d mm,
  keys_hashable d ->
  fold_left (fun acc mode_item =>
               d <- acc ;;
               id <- getitem_str mode_item "id" ;;
               title <- getitem_str mode_item "title" ;;
               dict_set d id title)
            items (Ok d) = Ok mm ->
  keys_hashable mm /\
  forall id, hashable id = true ->
    dict_find mm id =
    match find (fun it => key_eq (id_of it) id) (rev items) with
    | Some it => Some (title_of it)
    | None => dict_find d id
    end.
Proof.
  induction items as [|it items IH]; intros d mm K H.
  - injection H as <-. split; auto.
  - cbn [fold_left bind] in H.
    destruct (getitem_str it "id") as [i|] eqn:I; cbn [bind] in H;
      [|rewrite fold_raise in H by reflexivity; discriminate H].
    destruct (getitem_str it "title") as [t|] eqn:T; cbn [bind] in H;
      [|rewrite fold_raise in H by reflexivity; discriminate H].
    unfold dict_set in H.
    destruct (hashable i) eqn:Hi;
      [|rewrite fold_raise in H by reflexivity; discriminate H].
    destruct (IH _ _ (dict_put_hashable d i t K Hi) H) as [K' F].
    split; [exact K'|]. intros id Hid.
    rewrite (F id Hid). cbn [rev]. rewrite find_snoc.
    destruct (find _ (rev items)); auto.
    rewrite dict_find_put by assumption.
    unfold id_of. rewrite I.
    destruct (key_eq i id); [|reflexivity].
    unfold title_of. now rewrite T.
Qed.

(** The title that a mode id gets is the title of the last entry of
    the mode list whose id is the same key, and 'Unknown' when the list
    has no such entry. *)
Theorem mode_title_is_last_listed :
  forall data items mode_map mode_id,
    py_get data "modes" (JArr []) = Ok (JArr items) ->
    mode_map_of data = Ok mode_map ->
    hashable mode_id = true ->
    dict_get mode_map mode_id (JStr "Unknown") =
    Ok (match find (fun it => key_eq (id_of it) mode_id) (rev items) with
        | Some it => title_of it
        | None => JStr "Unknown"
        end).
Proof.
  intros data items mm id G M H. unfold mode_map_of in M. rewrite G in M.
  cbn [bind py_iter] in M.
  destruct (mode_map_fold items [] mm (Forall_nil _) M) as [_ F].
  unfold dict_get. rewrite H, (F id H). cbn [dict_find].
  destruct (find _ (rev items)); reflexivity.
Qed.

Lemma mode_title_is_last_listed_witness :
  let data := JObj [("modes",
                     JArr [JObj [("id", JInt 1); ("title", JStr "Wave")];
                           JObj [("id", JInt 2); ("title", JStr "Pulse")];
                           JObj [("id", JBool true); ("title", JStr "Tide")]])] in
  exists mode_map,
    mode_map_of data = Ok mode_map /\
    dict_get mode_map (JInt 1) (JStr "Unknown") = Ok (JStr "Tide") /\
    dict_get mode_map (JInt 3) (JStr "Unknown") = Ok (JStr "Unknown").
Proof.
  intros data.
  destruct (mode_map_of data) as [mm|] eqn:E; [|discriminate E].
  exists mm. split; [reflexivity|]. split.
  - exact (mode_title_is_last_listed data _ mm (JInt 1) eq_refl E eq_refl).
  - exact (mode_title_is_last_listed data _ mm (JInt 3) eq_refl E eq_refl).
Defined.

(** ** The colours of the modes *)

(** A mode id keeps its colour: the call returns the colour that the
    dictionary holds for the id, every colour that the dictionary held
    before the call is still there after it, and a later call for the
    same key returns the same colour and leaves the dictionary as it
    is.  An id that is new gets the colour drawn for it. *)
Theorem mode_color_is_kept :
  forall seeded_color mode_id color_map c color_map',
    keys_hashable color_map ->
    get_mode_color seeded_color mode_id color_map = Ok (c, color_map') ->
    keys_hashable color_map' /\
    dict_find color_map' mode_id = Some c /\
    (forall k c0, hashable k = true ->
       dict_find color_map k = Some c0 -> dict_find color_map' k = Some c0) /\
    (forall id', hashable id' = true -> key_eq mode_id id' = true ->
       get_mode_color seeded_color id' color_map' = Ok (c, color_map')) /\
    (dict_find color_map mode_id = None -> c = seeded_color mode_id).
Proof.
  intros seeded id cm c cm' K H.
  unfold get_mode_color, dict_contains, dict_getitem in H.
  destruct (hashable id) eqn:Hid; [|discriminate H]. cbn [bind] in H.
  assert (X : keys_hashable cm' /\ dict_find cm' id = Some c /\
              (forall k c0, hashable k = true ->
                 dict_find cm k = Some c0 -> dict_find cm' k = Some c0) /\
              (dict_find cm id = None -> c = seeded id)).
  { destruct (dict_find cm id) as [c0|] eqn:F.
    - rewrite F in H. cbn [bind] in H. injection H as <- <-.
      repeat split; auto. discriminate.
    - rewrite dict_find_put, key_eq_refl in H by assumption.
      cbn [bind] in H. injection H as <- <-.
      split; [now apply dict_put_hashable|].
      split; [rewrite dict_find_put, key_eq_refl by assumption; reflexivity|].
      split; [|reflexivity].
      intros k c0 Hk Fk. rewrite dict_find_put by assumption.
      destruct (key_eq id k) eqn:E; auto.
      rewrite (dict_find_same cm id k) in F by assumption. congruence. }
  destruct X as [K' [F' [P N]]].
  split; [exact K'|]. split; [exact F'|]. split; [exact P|]. split; [|exact N].
  intros id' Hid' E.
  unfold get_mode_color, dict_contains, dict_getitem. rewrite Hid'. cbn [bind].
  rewrite <- (dict_find_same cm' id id') by assumption.
  rewrite F'. cbn [bind]. rewrite <- (dict_find_same cm' id id') by assumption.
  rewrite F'. reflexivity.
Qed.

Lemma mode_color_is_kept_witness :
  let seeded := fun j => match j with JInt 1 => "#112233" | _ => "#445566" end in
  exists c color_map',
    get_mode_color seeded (JInt 1) [(JStr "a", "#000000")] = Ok (c, color_map') /\
    c = "#112233" /\
    get_mode_color seeded (JBool true) color_map' = Ok (c, color_map').
Proof.
  intros seeded.
  destruct (get_mode_color seeded (JInt 1) [(JStr "a", "#000000")])
    as [[c cm']|] eqn:E; [|discriminate E].
  assert (K : keys_hashable [(JStr "a", "#000000")]) by (repeat constructor).
  destruct (mode_color_is_kept seeded (JInt 1) _ c cm' K E) as [_ [_ [_ [S N]]]].
  exists c, cm'. split; [reflexivity|]. split.
  - apply N. reflexivity.
  - apply S; reflexivity.
Defined.

(** * The event loop only appends *)

Lemma update_modes st st' :
  update st st' -> forall k, exists l, modes_of st' k = (modes_of st k ++ l)%list.
Proof.
  induction 1 as [st|st st' k t v _ IH|st st' k t v _ IH
                 |st st' k v _ IH|st st' k v _ IH
                 |st st' k t m _ IH|st st' t c _ IH
                 |st st' b _ IH]; intros k'.
  - exists []. now rewrite app_nil_r.
  - destruct (IH k') as [l Hl]. exists l. destruct k, k'; exact Hl.
  - destruct (IH k') as [l Hl]. exists l. destruct k, k'; exact Hl.
  - destruct (IH k') as [l Hl]. exists l. destruct k, k'; exact Hl.
  - destruct (IH k') as [l Hl]. exists l. destruct k, k'; exact Hl.
  - destruct (IH k') as [l Hl].
    destruct k, k'; cbn [modes_of append_mode modes_g1 modes_g2] in *;
      rewrite ?Hl, <- ?app_assoc; eauto.
  - destruct (IH k') as [l Hl]. exists l. destruct k'; exact Hl.
  - destruct (IH k') as [l Hl]. exists l. destruct k'; exact Hl.
Qed.

(** The event loop never removes, reorders or rewrites what it has
    recorded: after any run that returns, the samples of each series and
    adjust series, the mode timelines and the markers are those of the
    state before the run, followed by what the run added. *)
Theorem run_events_only_appends :
  forall events st cur st' cur',
    st_aligned st ->
    run_events (st, cur) events = Ok (st', cur') ->
    st_aligned st' /\
    (exists l, fire_events st' = (fire_events st ++ l)%list) /\
    forall k,
      (exists l, samples (plot_data (get_gen st' k)) =
                 (samples (plot_data (get_gen st k)) ++ l)%list) /\
      (exists l, samples (adjust_plot_data (get_gen st' k)) =
                 (samples (adjust_plot_data (get_gen st k)) ++ l)%list) /\
      (exists l, modes_of st' k = (modes_of st k ++ l)%list).
Proof.
  intros events st cur st' cur' A R.
  apply run_events_update in R.
  destruct (update_samples _ _ R A) as [A' S].
  split; [exact A'|]. split; [exact (proj2 (update_grows _ _ R))|].
  intros k. destruct (S k) as [P Q].
  split; [exact P|]. split; [exact Q|]. exact (update_modes _ _ R k).
Qed.

Lemma run_events_only_appends_witness :
  let st := mkState (mkGenerator (JInt 30) (mkPlot [JInt 0] [JInt 30]) (JInt 50)
                       (mkPlot [JInt 0] [JInt 50]))
              (mkGenerator (JInt 70) (mkPlot [JInt 0] [JInt 70]) (JInt 50)
                       (mkPlot [JInt 0] [JInt 50]))
              (mkBoost (JBool false) (JArr [JBool true; JBool false])
                 (JFloat float_0_1) (JInt 5))
              [] [] [] in
  exists st' cur' l,
    run_events (st, [JBool true; JBool false])
      [mk_event (JInt 10) "generator1" "intensity" (JInt 40) "state";
       mk_event (JInt 20) "boost" "fire" JNull "action"] = Ok (st', cur') /\
    samples (plot_data (g1 st')) = ((JInt 0, JInt 30) :: l)%list.
Proof.
  intros st.
  destruct (run_events (st, [JBool true; JBool false])
      [mk_event (JInt 10) "generator1" "intensity" (JInt 40) "state";
       mk_event (JInt 20) "boost" "fire" JNull "action"])
    as [[st' cur']|] eqn:E; [|discriminate E].
  assert (A : st_aligned st) by (intros k; destruct k; split; reflexivity).
  destruct (run_events_only_appends _ st _ st' cur' A E) as [_ [_ H]].
  destruct (H G1) as [[l Hl] _].
  exists st', cur', l. split; [reflexivity|]. exact Hl.
Defined.
